(** * Synthetics trigger-and-wait engine: a shallow embedding

    The definitions below follow the utilities of the synthetics command
    ([src/unnamed/part_000]: execution rule resolution, result
    classification, URL templates, the polling loop, the reporter
    fan-out, the trigger dispatcher) and [src/helpers/user-provided-git.ts]
    (user supplied git metadata).

    Conventions.
    - An optional property ([x?: T], possibly [undefined]) is an [option].
    - JavaScript strings are [string]s; the character classes of the
      regular expressions are those of the ASCII range.
    - Times and timeouts are integral milliseconds in [Z].
    - A [Map] (insertion ordered) is an association list; a plain object
      used as a dictionary is a [gmap].
    - Code that can throw returns a [Completion]. *)

From Stdlib Require Import ZArith Lia Ascii String.
From stdpp Require Import gmap strings list fin_maps.

Local Open Scope string_scope.
Local Open Scope Z_scope.
Local Open Scope list_scope.

(** ** Interfaces *)

(** The types of this section are declared in [./interfaces], which is not
    under src; each is modelled with the fields that the code reads or
    writes, as the data model of the specification lists them. *)

(** Modelled from the spec: the [ExecutionRule] enumeration of
    [./interfaces], [blocking | non_blocking | skipped]. *)
Inductive ExecutionRule : Type :=
  | BLOCKING
  | NON_BLOCKING
  | SKIPPED.

Global Instance ExecutionRule_eq_dec : EqDecision ExecutionRule.
Proof. solve_decision. Defined.

(** The members of the [ERRORS] enumeration are string constants declared
    in [./interfaces]; their spelling is left open. *)
Class ERRORS : Type := {
  ENDPOINT : string;
  TIMEOUT : string;
  TUNNEL : string;
}.

(** Modelled from the spec: the device of a result, of [./interfaces]. *)
Record Device : Type := {
  height : Z;
  id : string;
  width : Z;
}.

(** A browser step of a result; its content is never inspected here. *)
Inductive Step : Type := MkStep (description : string).

(** Modelled from the spec: [Result] of [./interfaces], the inner result
    of a poll result, with its optional verdict fields. *)
Record Result : Type := {
  device : option Device;
  duration : option Z;
  error : option string;
  errorCode : option string;
  eventType : string;
  passed : option bool;
  startUrl : option string;
  stepDetails : list Step;
  tunnel : bool;
  unhealthy : option bool;
}.

(** Modelled from the spec: [PollResult] of [./interfaces]. *)
Record PollResult : Type := {
  dc_id : Z;
  result : Result;
  resultID : string;
  timestamp : Z;
}.

(** Modelled from the spec: [InternalTest] of [./interfaces], with its
    optional [options?.ci?.executionRule]. *)
Record CIOptions : Type := { ci_executionRule : option ExecutionRule }.
Record TestOptions : Type := { ci : option CIOptions }.

Record InternalTest : Type := {
  request_url : string;          (* config.request.url *)
  options : option TestOptions;
  type : string;
  subtype : option string;
  suite : option string;
}.

(** Modelled from the spec: [ConfigOverride] of [./interfaces], a user
    supplied override.  The properties that the code reads by name are
    fields; the remaining ones are kept as a dictionary from the property
    name to an opaque rendering of its value. *)
Record ConfigOverride : Type := {
  cfg_executionRule : option ExecutionRule;
  cfg_pollingTimeout : option Z;
  cfg_startUrl : option string;
  cfg_others : gmap string string;
}.

(** JavaScript truthiness of an optional boolean and an optional string. *)
Definition truthy_bool (b : option bool) : bool :=
  match b with Some true => true | _ => false end.

Definition truthy_string (s : option string) : bool :=
  match s with
  | Some s => negb (String.eqb s EmptyString)
  | None => false
  end.

(** [x === c] for an optional string [x] and a string constant [c]. *)
Definition strict_eq (x : option string) (c : string) : bool :=
  match x with
  | Some s => String.eqb s c
  | None => false
  end.

(** ** Execution rule *)

Definition getStrictestExecutionRule
    (configRule : ExecutionRule) (testRule : option ExecutionRule) : ExecutionRule :=
  if bool_decide (configRule = SKIPPED) || bool_decide (testRule = Some SKIPPED) then SKIPPED
  else if bool_decide (configRule = NON_BLOCKING) || bool_decide (testRule = Some NON_BLOCKING)
  then NON_BLOCKING
  else if bool_decide (configRule = BLOCKING) || bool_decide (testRule = Some BLOCKING)
  then BLOCKING
  else BLOCKING.

(** [test.options?.ci?.executionRule] *)
Definition test_executionRule (test : InternalTest) : option ExecutionRule :=
  match options test with
  | Some o => match ci o with
              | Some c => ci_executionRule c
              | None => None
              end
  | None => None
  end.

(** Every member of the enumeration is a non-empty string, hence truthy:
    [configOverride && configOverride.executionRule] holds exactly when the
    override exists and sets the rule. *)
Definition getExecutionRule
    (test : InternalTest) (configOverride : option ConfigOverride) : ExecutionRule :=
  match configOverride with
  | Some c =>
      match cfg_executionRule c with
      | Some rule => getStrictestExecutionRule rule (test_executionRule test)
      | None => default BLOCKING (test_executionRule test)
      end
  | None => default BLOCKING (test_executionRule test)
  end.

(** ** Result classifier *)

Section Classifier.
Context {E : ERRORS}.

Definition isCriticalError (r : Result) : bool :=
  truthy_bool (unhealthy r) || strict_eq (error r) ENDPOINT.

Definition hasResultPassed
    (r : Result) (failOnCriticalErrors failOnTimeout : bool) : bool :=
  if isCriticalError r && negb failOnCriticalErrors then true
  else if strict_eq (error r) TIMEOUT && negb failOnTimeout then true
  else match passed r with
       | Some b => b
       | None =>
           match errorCode r with
           | Some _ => false
           | None => true
           end
       end.

Definition hasTestSucceeded
    (results : list PollResult) (failOnCriticalErrors failOnTimeout : bool) : bool :=
  forallb (fun pollResult => hasResultPassed (result pollResult) failOnCriticalErrors failOnTimeout)
          results.
End Classifier.

(** ** Strings *)

Definition nl : string := String "010"%char EmptyString.

Fixpoint drop_string (n : nat) (s : string) : string :=
  match n, s with
  | O, _ => s
  | S n', String _ s' => drop_string n' s'
  | S _, EmptyString => EmptyString
  end.

(** [s.includes(sub)] *)
Fixpoint includes (sub s : string) : bool :=
  String.prefix sub s ||
  match s with
  | EmptyString => false
  | String _ s' => includes sub s'
  end.

(** [s.replace(pat, rep)] for a string pattern: the first occurrence only. *)
Fixpoint replace_first (pat rep s : string) : string :=
  if String.prefix pat s then rep +:+ drop_string (String.length pat) s
  else match s with
       | EmptyString => EmptyString
       | String c s' => String c (replace_first pat rep s')
       end.

(** [xs.join(sep)] *)
Fixpoint join (sep : string) (xs : list string) : string :=
  match xs with
  | [] => EmptyString
  | [x] => x
  | x :: rest => x +:+ sep +:+ join sep rest
  end.

(** Character classes: [\s], the braces, and the line terminators that
    [.] does not match. *)
Definition is_space (c : ascii) : bool :=
  let n := nat_of_ascii c in
  (Nat.eqb n 32 || (Nat.leb 9 n && Nat.leb n 13))%bool.

Definition is_brace (c : ascii) : bool :=
  (Ascii.eqb c "{" || Ascii.eqb c "}")%bool.

Definition is_line_terminator (c : ascii) : bool :=
  (Ascii.eqb c "010" || Ascii.eqb c "013")%bool.

Fixpoint trim_left (s : string) : string :=
  match s with
  | String c s' => if is_space c then trim_left s' else s
  | EmptyString => EmptyString
  end.

Fixpoint all_space (s : string) : bool :=
  match s with
  | String c s' => is_space c && all_space s'
  | EmptyString => true
  end.

Fixpoint trim_right (s : string) : string :=
  match s with
  | String c s' => if all_space s then EmptyString else String c (trim_right s')
  | EmptyString => EmptyString
  end.

(** The longest prefix without a brace, and what follows it. *)
Fixpoint span_no_brace (s : string) : string * string :=
  match s with
  | String c s' =>
      if is_brace c then (EmptyString, s)
      else let '(w, r) := span_no_brace s' in (String c w, r)
  | EmptyString => (EmptyString, EmptyString)
  end.

(** ** URL templates *)

(** A value stored in a template context. *)
Inductive JSValue : Type :=
  | JSUndefined
  | JSString (s : string).

Definition ToString (v : JSValue) : string :=
  match v with
  | JSUndefined => "undefined"
  | JSString s => s
  end.

(** The parts of a parsed [URL] that the code reads. *)
Record URL : Type := {
  hash : string;
  host : string;
  hostname : string;
  origin : string;
  search : string;
  pathname : string;
  port : string;
  protocol : string;
}.

(** What the JavaScript runtime provides: the [URL] constructor ([None]
    when it throws) and the properties that every plain object inherits
    from its prototype, each with the rendering of its value. *)
Class Runtime : Type := {
  newURL : string -> option URL;
  objectPrototype : gmap string string;
}.

(** Calls received by the main reporter, in order. *)
Inductive ReporterCall : Type :=
  | CallError (message : string)
  | CallLog (message : string)
  | CallInitErrors (errors : list string)
  | CallTestTrigger (test : InternalTest) (testId : string)
                    (executionRule : ExecutionRule) (config : option ConfigOverride)
  | CallTestWait (test : InternalTest)
  | CallTestsWait (tests : list InternalTest).

(** [s] without its prefix [p], when it starts with [p]. *)
Fixpoint strip_prefix (p s : string) : option string :=
  match p with
  | EmptyString => Some s
  | String a p' =>
      match s with
      | String b s' => if Ascii.eqb a b then strip_prefix p' s' else None
      | EmptyString => None
      end
  end.

(** One attempt of [/{{\s*([^{}]*?)\s*}}/] at the head of [s]: the whole
    match, the captured group and the rest of the input.  Between the
    opening and the closing braces no brace can occur, so the match ends
    at the first brace after the opening; the group is lazy and the white
    space on both sides of it is greedy, so the group is the text in
    between without its leading and trailing white space. *)
Definition match_template (s : string) : option (string * string * string) :=
  match strip_prefix "{{" s with
  | Some t =>
      let '(w, r) := span_no_brace t in
      match strip_prefix "}}" r with
      | Some rest => Some ("{{" +:+ w +:+ "}}", trim_right (trim_left w), rest)
      | None => None
      end
  | None => None
  end.

(** No brace occurs in [s]. *)
Fixpoint no_brace (s : string) : bool :=
  match s with
  | EmptyString => true
  | String c s' => negb (is_brace c) && no_brace s'
  end.

Section Template.
Context {R : Runtime}.

(** [p in context] and [context[p]] rendered as a string. *)
Definition js_in (p : string) (context : gmap string JSValue) : bool :=
  bool_decide (is_Some (context !! p)) || bool_decide (is_Some (objectPrototype !! p)).

Definition js_get (p : string) (context : gmap string JSValue) : string :=
  match context !! p with
  | Some v => ToString v
  | None => match objectPrototype !! p with
            | Some s => s
            | None => "undefined"
            end
  end.

(** The replacement callback of [template]. *)
Definition replacer (context : gmap string JSValue) (mtch p1 : string) : string :=
  if js_in p1 context then js_get p1 context else mtch.

(** [st.replace(TEMPLATE_REGEX, f)] with the global flag: scan from the
    left; at a match, emit the replacement and resume after the match
    ([skip] counts the characters of the match still to pass). *)
Fixpoint template_from (skip : nat) (st : string) (context : gmap string JSValue) : string :=
  match st with
  | EmptyString => EmptyString
  | String c st' =>
      match skip with
      | S k => template_from k st' context
      | O =>
          match match_template st with
          | Some (m, p1, _) =>
              replacer context m p1 +:+ template_from (String.length m - 1) st' context
          | None => String c (template_from 0 st' context)
          end
      end
  end.

Definition template (st : string) (context : gmap string JSValue) : string :=
  template_from 0 st context.
End Template.

(** ** Template context of a test URL *)

(** [process.env]: the variables in enumeration order, each name once. *)
Definition env_lookup (env : list (string * string)) (name : string) : option string :=
  (list_to_map env : gmap string string) !! name.

Definition URL_VARIABLES : list string :=
  ["DOMAIN"; "HASH"; "HOST"; "HOSTNAME"; "ORIGIN"; "PARAMS"; "PATHNAME"; "PORT"; "PROTOCOL";
   "SUBDOMAIN"].

(** The lookahead [(?=[^\/]*\..{2,5})] at the head of [s]. *)
Definition two_chars (s : string) : bool :=
  match s with
  | String a (String b _) => negb (is_line_terminator a) && negb (is_line_terminator b)
  | _ => false
  end.

Fixpoint lookahead (s : string) : bool :=
  match s with
  | EmptyString => false
  | String c s' =>
      (Ascii.eqb c "." && two_chars s') || (negb (Ascii.eqb c "/") && lookahead s')
  end.

(** [(.*?)\.] followed by the lookahead, attempted at the head of [s]:
    the shortest group comes first. *)
Fixpoint group_at (s : string) : option string :=
  match s with
  | EmptyString => None
  | String c s' =>
      if Ascii.eqb c "." && lookahead s' then Some EmptyString
      else if is_line_terminator c then None
      else String c <$> group_at s'
  end.

(** [hostname.match(SUBDOMAIN_REGEX)]: the leftmost match; the result is
    its first group. *)
Fixpoint subdomain_match (s : string) : option string :=
  match group_at s with
  | Some g => Some g
  | None =>
      match s with
      | EmptyString => None
      | String _ s' => subdomain_match s'
      end
  end.

(** [Object.keys(context)] are the names of [env], and [URL], which is
    not reserved. *)
Definition warnOnReservedEnvVarNames (env : list (string * string)) : list ReporterCall :=
  let usedEnvVarNames := filter (fun name => name ∈ URL_VARIABLES) (env.*1) in
  if bool_decide (0 < length usedEnvVarNames)%nat then
    let names := join ", " usedEnvVarNames in
    let plural := bool_decide (1 < length usedEnvVarNames)%nat in
    [CallLog
       ("Detected " +:+ names +:+ " environment variable" +:+ (if plural then "s" else EmptyString)
        +:+ ". " +:+ names +:+ " " +:+ (if plural then "are" else "is a") +:+ " Datadog "
        +:+ "reserved variable" +:+ (if plural then "s" else EmptyString)
        +:+ " used to parse your original test URL, read more about it on "
        +:+ "our documentation https://docs.datadoghq.com/synthetics/ci/?tab=apitest#start-url. "
        +:+ "If you want to override your startUrl parameter using environment variables, "
        +:+ "use " +:+ (if plural then EmptyString else "a ") +:+ "different namespace"
        +:+ (if plural then "s" else EmptyString) +:+ "." +:+ nl +:+ nl)]
  else [].

Section Resolver.
Context {R : Runtime}.

(** Returns the context and the calls made on the reporter. *)
Definition parseUrlVariables (env : list (string * string)) (url : string)
    : gmap string JSValue * list ReporterCall :=
  let context : gmap string JSValue :=
    <["URL" := JSString url]> (JSString <$> (list_to_map env : gmap string string)) in
  match newURL url with
  | None =>
      (context,
       [CallError ("The start url " +:+ url +:+ " contains variables, CI overrides will be ignored"
                   +:+ nl)])
  | Some objUrl =>
      let subdomainMatch := subdomain_match (hostname objUrl) in
      let domain :=
        match subdomainMatch with
        | Some g => replace_first (g +:+ ".") EmptyString (hostname objUrl)
        | None => hostname objUrl
        end in
      (<["SUBDOMAIN" := match subdomainMatch with
                        | Some g => JSString g
                        | None => JSUndefined
                        end]>
       (<["PROTOCOL" := JSString (protocol objUrl)]>
       (<["PORT" := JSString (port objUrl)]>
       (<["PATHNAME" := JSString (pathname objUrl)]>
       (<["PARAMS" := JSString (search objUrl)]>
       (<["ORIGIN" := JSString (origin objUrl)]>
       (<["HOSTNAME" := JSString (hostname objUrl)]>
       (<["HOST" := JSString (host objUrl)]>
       (<["HASH" := JSString (hash objUrl)]>
       (<["DOMAIN" := JSString domain]> context))))))))),
       warnOnReservedEnvVarNames env)
  end.
End Resolver.

(** ** Payloads *)

(** Modelled from the spec: [TestPayload] of [./interfaces],
    [{public_id, executionRule}] plus the overrides that apply. *)
Record TestPayload : Type := {
  payload_executionRule : ExecutionRule;
  payload_public_id : string;
  payload_pollingTimeout : option Z;
  payload_startUrl : option string;
  payload_others : gmap string string;
}.

(** The keys handed to [pick], [pollingTimeout] apart (it is a field). *)
Definition picked_keys : list string :=
  ["allowInsecureCertificates"; "basicAuth"; "body"; "bodyType"; "cookies";
   "defaultStepTimeout"; "deviceIds"; "followRedirects"; "headers"; "locations"; "retry";
   "startUrlSubstitutionRegex"; "tunnel"; "variables"].

(** Modelled from the spec: [pick] of [helpers/utils] is not under src; it
    picks the recognised option keys from the override. *)
Definition pick (others : gmap string string) (keys : list string) : gmap string string :=
  filter (fun kv => kv.1 ∈ keys) others.

(** [Object.keys(config).length] is zero. *)
Definition config_is_empty (config : ConfigOverride) : bool :=
  match cfg_executionRule config, cfg_pollingTimeout config, cfg_startUrl config with
  | None, None, None => bool_decide (cfg_others config = ∅)
  | _, _, _ => false
  end.

Section HandleConfig.
Context {R : Runtime}.

Definition handleConfig (env : list (string * string)) (test : InternalTest)
    (publicId : string) (config : option ConfigOverride) : TestPayload * list ReporterCall :=
  let executionRule := getExecutionRule test config in
  let handledConfig :=
    {| payload_executionRule := executionRule;
       payload_public_id := publicId;
       payload_pollingTimeout := None;
       payload_startUrl := None;
       payload_others := ∅ |} in
  match config with
  | None => (handledConfig, [])
  | Some config =>
      if config_is_empty config then (handledConfig, [])
      else
        let handledConfig :=
          {| payload_executionRule := executionRule;
             payload_public_id := publicId;
             payload_pollingTimeout := cfg_pollingTimeout config;
             payload_startUrl := None;
             payload_others := pick (cfg_others config) picked_keys |} in
        if (String.eqb (type test) "browser" || strict_eq (subtype test) "http")
           && truthy_string (cfg_startUrl config)
        then
          let startUrl := default EmptyString (cfg_startUrl config) in
          let '(context, calls) := parseUrlVariables env (request_url test) in
          let deprecation :=
            if existsb (fun v => includes v startUrl) URL_VARIABLES
            then [CallError ("[DEPRECATION] The usage of URL variables is deprecated, "
                             +:+ "see explanation in the README" +:+ nl +:+ nl)]
            else [] in
          ({| payload_executionRule := executionRule;
              payload_public_id := publicId;
              payload_pollingTimeout := cfg_pollingTimeout config;
              payload_startUrl := Some (template startUrl context);
              payload_others := pick (cfg_others config) picked_keys |},
           calls ++ deprecation)
        else (handledConfig, [])
  end.
End HandleConfig.

(** ** Thrown values *)

Record HttpResponse : Type := { status : option Z }.

(** A failure of the backend client. *)
Record BackendError : Type := {
  instanceofError : bool;
  message : string;
  response : option HttpResponse;
}.

Inductive Exception : Type :=
  | Rethrown (e : BackendError)              (* [throw error], unchanged *)
  | NewError (msg : string)                  (* [new Error(msg)] *)
  | EndpointError (msg : string) (status : option Z)
  | TypeError.                               (* property read on [undefined] *)

Inductive Completion (A : Type) : Type :=
  | Return (a : A)
  | Throw (e : Exception).
Arguments Return {A} a.
Arguments Throw {A} e.

(** Helpers imported from [./api] and from [chalk], not under src. *)
Class ApiHelpers : Type := {
  isNotFoundError : BackendError -> bool;
  is5xxError : BackendError -> bool;
  formatBackendErrors : BackendError -> string;
  chalk_bold_dim : string -> string;
  chalk_yellow_bold : string -> string;
}.

(** ** Tests to trigger *)

(** Modelled from the spec: [TriggerConfig] and [Summary] of
    [./interfaces]. *)
Record TriggerConfig : Type := {
  tc_config : ConfigOverride;
  tc_id : string;
  tc_suite : option string;
}.

Record Summary : Type := {
  criticalErrors : Z;
  failed : Z;
  summary_passed : Z;
  skipped : Z;
  testsNotFound : gset string;
  timedOut : Z;
}.

Definition createSummary : Summary :=
  {| criticalErrors := 0; failed := 0; summary_passed := 0; skipped := 0;
     testsNotFound := ∅; timedOut := 0 |}.

(** [[\d\w]] *)
Definition is_word (c : ascii) : bool :=
  let n := nat_of_ascii c in
  ((Nat.leb 48 n && Nat.leb n 57) || (Nat.leb 65 n && Nat.leb n 90)
   || (Nat.leb 97 n && Nat.leb n 122) || Nat.eqb n 95)%bool.

(** [PUBLIC_ID_REGEX.test(id)] *)
Definition PUBLIC_ID_REGEX_test (s : string) : bool :=
  match s with
  | String a1 (String a2 (String a3 (String "-" (String b1 (String b2 (String b3
      (String "-" (String c1 (String c2 (String c3 EmptyString)))))))))) =>
      forallb is_word [a1; a2; a3; b1; b2; b3; c1; c2; c3]
  | _ => false
  end.

(** [id.substr(id.lastIndexOf('/') + 1)] *)
Fixpoint after_last_slash (s : string) : string :=
  match s with
  | EmptyString => EmptyString
  | String c s' =>
      if includes "/" s' then after_last_slash s'
      else if Ascii.eqb c "/" then s' else s
  end.

Definition normalize_id (id : string) : string :=
  if PUBLIC_ID_REGEX_test id then id else after_last_slash id.

(** What the lookups have accumulated. *)
Record Lookups : Type := {
  overriddenTestsToTrigger : list TestPayload;
  errorMessages : list string;
  summary : Summary;
  tests : list (option InternalTest);
  calls : list ReporterCall;
}.

Record TestsToTrigger : Type := {
  ttt_tests : list InternalTest;
  ttt_overriddenTestsToTrigger : list TestPayload;
  ttt_summary : Summary;
}.

Section TestsToTrigger.
Context {R : Runtime} {H : ApiHelpers}.

(** The body of the callback mapped over the trigger configs.  The
    lookups are awaited together; the model runs the callbacks one after
    the other in the order of the configs, which is the order a backend
    answering in request order produces.  The reporter calls made before
    a throw are not kept. *)
Definition lookup_one (getTest : string -> BackendError + InternalTest)
    (env : list (string * string)) (st : Lookups) (tc : TriggerConfig)
    : Completion Lookups :=
  let id := normalize_id (tc_id tc) in
  match getTest id with
  | inl error =>
      if instanceofError error && isNotFoundError error then
        let errorMessage := formatBackendErrors error in
        Return
          {| overriddenTestsToTrigger := overriddenTestsToTrigger st;
             errorMessages :=
               errorMessages st
               ++ ["[" +:+ chalk_bold_dim id +:+ "] " +:+ chalk_yellow_bold "Test not found"
                   +:+ ": " +:+ errorMessage];
             summary :=
               {| criticalErrors := criticalErrors (summary st);
                  failed := failed (summary st);
                  summary_passed := summary_passed (summary st);
                  skipped := skipped (summary st);
                  testsNotFound := {[ id ]} ∪ testsNotFound (summary st);
                  timedOut := timedOut (summary st) |};
             tests := tests st ++ [None];
             calls := calls st |}
      else Throw (Rethrown error)
  | inr fetched =>
      let test :=
        {| request_url := request_url fetched; options := options fetched;
           type := type fetched; subtype := subtype fetched; suite := tc_suite tc |} in
      let '(overriddenConfig, handleCalls) := handleConfig env test id (Some (tc_config tc)) in
      let trigger :=
        CallTestTrigger test id (payload_executionRule overriddenConfig) (Some (tc_config tc)) in
      if bool_decide (payload_executionRule overriddenConfig = SKIPPED) then
        Return
          {| overriddenTestsToTrigger := overriddenTestsToTrigger st ++ [overriddenConfig];
             errorMessages := errorMessages st;
             summary :=
               {| criticalErrors := criticalErrors (summary st);
                  failed := failed (summary st);
                  summary_passed := summary_passed (summary st);
                  skipped := skipped (summary st) + 1;
                  testsNotFound := testsNotFound (summary st);
                  timedOut := timedOut (summary st) |};
             tests := tests st ++ [None];
             calls := calls st ++ handleCalls ++ [trigger] |}
      else
        Return
          {| overriddenTestsToTrigger := overriddenTestsToTrigger st ++ [overriddenConfig];
             errorMessages := errorMessages st;
             summary := summary st;
             tests := tests st ++ [Some test];
             calls := calls st ++ handleCalls ++ [trigger; CallTestWait test] |}
  end.

Fixpoint lookup_all (getTest : string -> BackendError + InternalTest)
    (env : list (string * string)) (st : Lookups) (triggerConfigs : list TriggerConfig)
    : Completion Lookups :=
  match triggerConfigs with
  | [] => Return st
  | tc :: rest =>
      match lookup_one getTest env st tc with
      | Return st' => lookup_all getTest env st' rest
      | Throw e => Throw e
      end
  end.

Definition getTestsToTrigger (getTest : string -> BackendError + InternalTest)
    (env : list (string * string)) (triggerConfigs : list TriggerConfig)
    : Completion (TestsToTrigger * list ReporterCall) :=
  let start :=
    {| overriddenTestsToTrigger := []; errorMessages := []; summary := createSummary;
       tests := []; calls := [] |} in
  match lookup_all getTest env start triggerConfigs with
  | Throw e => Throw e
  | Return st =>
      match overriddenTestsToTrigger st with
      | [] => Throw (NewError "No tests to trigger")
      | _ :: _ =>
          (* tests.filter(definedTypeGuard) *)
          let waitedTests := omap (fun o => o) (tests st) in
          Return
            ({| ttt_tests := waitedTests;
                ttt_overriddenTestsToTrigger := overriddenTestsToTrigger st;
                ttt_summary := summary st |},
             calls st ++ [CallInitErrors (errorMessages st); CallTestsWait waitedTests])
      end
  end.
End TestsToTrigger.

(** ** Trigger dispatcher *)

(** Modelled from the spec: [TriggerResponse] and [Trigger] of
    [./interfaces]; a trigger response is
    [{public_id, result_id, device, location}]. *)
Record TriggerResponse : Type := {
  tr_device : string;
  tr_location : Z;
  tr_public_id : string;
  tr_result_id : string;
}.

Record Trigger : Type := { trigger_results : list TriggerResponse }.

Section Dispatcher.
Context {H : ApiHelpers}.
(** The value of [getCIMetadata()], a helper that is not under src. *)
Context {Metadata : Type} (ciMetadata : Metadata).

Record SyntheticsMetadata : Type := {
  ci_metadata : Metadata;
  trigger_app : string;
}.

Record Payload : Type := {
  payload_tests : list TestPayload;
  payload_metadata : SyntheticsMetadata;
}.

(** The request body that [runTests] hands to [api.triggerTests];
    [ciTriggerApp] is the module variable of that name. *)
Definition runTests_payload (ciTriggerApp : string) (testsToTrigger : list TestPayload)
    : Payload :=
  {| payload_tests := testsToTrigger;
     payload_metadata := {| ci_metadata := ciMetadata; trigger_app := ciTriggerApp |} |}.

Definition runTests (triggerTests : Payload -> BackendError + Trigger)
    (ciTriggerApp : string) (testsToTrigger : list TestPayload) : Completion Trigger :=
  match triggerTests (runTests_payload ciTriggerApp testsToTrigger) with
  | inr trigger => Return trigger
  | inl e =>
      let errorMessage := formatBackendErrors e in
      let testIds := join "," (payload_public_id <$> testsToTrigger) in
      match response e with
      | Some r =>
          Throw (EndpointError
                   ("[" +:+ testIds +:+ "] Failed to trigger tests: " +:+ errorMessage +:+ nl)
                   (status r))
      | None => Throw TypeError          (* [e.response.status] on [undefined] *)
      end
  end.
End Dispatcher.

(** ** Reporter fan-out *)

Section Reporters.
(** What the member reporters act on (their output streams, files...). *)
Context {World : Type}.

(** A hook either returns or throws, and leaves the world in some state. *)
Inductive HookOutcome : Type :=
  | Returned (w : World)
  | Threw (e : Exception) (w : World).

Definition Effect : Type := World -> HookOutcome.

Record TestEndArgs : Type := {
  te_test : InternalTest;
  te_results : list PollResult;
  te_baseUrl : string;
  te_locationNames : gmap Z string;
  te_failOnCriticalErrors : bool;
  te_failOnTimeout : bool;
}.

Record TestTriggerArgs : Type := {
  tt_test : InternalTest;
  tt_testId : string;
  tt_executionRule : ExecutionRule;
  tt_config : option ConfigOverride;
}.

(** A member reporter implements any subset of the hooks. *)
Record Reporter : Type := {
  r_error : option (string -> Effect);
  r_initErrors : option (list string -> Effect);
  r_log : option (string -> Effect);
  r_reportStart : option (Z -> Effect);
  r_runEnd : option (Summary -> Effect);
  r_testEnd : option (TestEndArgs -> Effect);
  r_testTrigger : option (TestTriggerArgs -> Effect);
  r_testWait : option (InternalTest -> Effect);
  r_testsWait : option (list InternalTest -> Effect);
}.

Record MainReporter : Type := {
  m_error : string -> Effect;
  m_initErrors : list string -> Effect;
  m_log : string -> Effect;
  m_reportStart : Z -> Effect;
  m_runEnd : Summary -> Effect;
  m_testEnd : TestEndArgs -> Effect;
  m_testTrigger : TestTriggerArgs -> Effect;
  m_testWait : InternalTest -> Effect;
  m_testsWait : list InternalTest -> Effect;
}.

(** [for (const reporter of reporters) { if (typeof reporter.hook ===
    'function') { reporter.hook(args) } }]: an exception leaves the loop. *)
Fixpoint for_each_reporter {A : Type} (hook : Reporter -> option (A -> Effect))
    (reporters : list Reporter) (args : A) : Effect :=
  fun w =>
    match reporters with
    | [] => Returned w
    | reporter :: rest =>
        match hook reporter with
        | Some f =>
            match f args w with
            | Returned w' => for_each_reporter hook rest args w'
            | Threw e w' => Threw e w'
            end
        | None => for_each_reporter hook rest args w
        end
    end.

Definition getReporter (reporters : list Reporter) : MainReporter :=
  {| m_error := for_each_reporter r_error reporters;
     m_initErrors := for_each_reporter r_initErrors reporters;
     m_log := for_each_reporter r_log reporters;
     m_reportStart := for_each_reporter r_reportStart reporters;
     m_runEnd := for_each_reporter r_runEnd reporters;
     m_testEnd := for_each_reporter r_testEnd reporters;
     m_testTrigger := for_each_reporter r_testTrigger reporters;
     m_testWait := for_each_reporter r_testWait reporters;
     m_testsWait := for_each_reporter r_testsWait reporters |}.

(** The hook set, to speak of all the hooks at once. *)
Inductive Hook : Type :=
  | hook_error | hook_initErrors | hook_log | hook_reportStart | hook_runEnd
  | hook_testEnd | hook_testTrigger | hook_testWait | hook_testsWait.

Definition HookArgs (h : Hook) : Type :=
  match h with
  | hook_error => string
  | hook_initErrors => list string
  | hook_log => string
  | hook_reportStart => Z
  | hook_runEnd => Summary
  | hook_testEnd => TestEndArgs
  | hook_testTrigger => TestTriggerArgs
  | hook_testWait => InternalTest
  | hook_testsWait => list InternalTest
  end.

Definition member_hook (h : Hook) : Reporter -> option (HookArgs h -> Effect) :=
  match h with
  | hook_error => r_error
  | hook_initErrors => r_initErrors
  | hook_log => r_log
  | hook_reportStart => r_reportStart
  | hook_runEnd => r_runEnd
  | hook_testEnd => r_testEnd
  | hook_testTrigger => r_testTrigger
  | hook_testWait => r_testWait
  | hook_testsWait => r_testsWait
  end.

Definition main_hook (h : Hook) : MainReporter -> HookArgs h -> Effect :=
  match h with
  | hook_error => m_error
  | hook_initErrors => m_initErrors
  | hook_log => m_log
  | hook_reportStart => m_reportStart
  | hook_runEnd => m_runEnd
  | hook_testEnd => m_testEnd
  | hook_testTrigger => m_testTrigger
  | hook_testWait => m_testWait
  | hook_testsWait => m_testsWait
  end.




End Reporters.
Arguments HookOutcome : clear implicits.
Arguments Effect : clear implicits.
Arguments Reporter : clear implicits.
Arguments MainReporter : clear implicits.

(** ** User supplied git metadata *)

(** [normalizeRef] of [./utils] is not under src. *)
Class GitHelpers : Type := { normalizeRef : option string -> option string }.

(** Modelled from the spec: [removeEmptyValues] of [./utils] is not under
    src; empty-string values (and absent ones) are dropped before emission. *)
Definition removeEmptyValue (v : option string) : option string :=
  match v with
  | Some s => if String.eqb s EmptyString then None else Some s
  | None => None
  end.

(** The emitted tags, one field per tag name of [./tags]. *)
Record GitMetadata : Type := {
  GIT_REPOSITORY_URL : option string;
  GIT_BRANCH : option string;
  GIT_SHA : option string;
  GIT_TAG : option string;
  GIT_COMMIT_MESSAGE : option string;
  GIT_COMMIT_COMMITTER_DATE : option string;
  GIT_COMMIT_COMMITTER_EMAIL : option string;
  GIT_COMMIT_COMMITTER_NAME : option string;
  GIT_COMMIT_AUTHOR_DATE : option string;
  GIT_COMMIT_AUTHOR_EMAIL : option string;
  GIT_COMMIT_AUTHOR_NAME : option string;
}.

(** [s?.includes(sub)], read as a condition. *)
Definition opt_includes (sub : string) (s : option string) : bool :=
  match s with
  | Some s => includes sub s
  | None => false
  end.

Section UserProvidedGit.
Context {G : GitHelpers}.

Definition getUserGitMetadata (env : list (string * string)) : GitMetadata :=
  let DD_GIT_BRANCH := env_lookup env "DD_GIT_BRANCH" in
  let DD_GIT_TAG := env_lookup env "DD_GIT_TAG" in
  let branch := normalizeRef DD_GIT_BRANCH in
  let tag := normalizeRef DD_GIT_TAG in
  let branch := if truthy_string DD_GIT_TAG then None else branch in
  let '(branch, tag) :=
    if opt_includes "origin/tags" DD_GIT_BRANCH || opt_includes "refs/heads/tags" DD_GIT_BRANCH
    then (None, normalizeRef DD_GIT_BRANCH)
    else (branch, tag) in
  {| GIT_REPOSITORY_URL := removeEmptyValue (env_lookup env "DD_GIT_REPOSITORY_URL");
     GIT_BRANCH := removeEmptyValue branch;
     GIT_SHA := removeEmptyValue (env_lookup env "DD_GIT_COMMIT_SHA");
     GIT_TAG := removeEmptyValue tag;
     GIT_COMMIT_MESSAGE := removeEmptyValue (env_lookup env "DD_GIT_COMMIT_MESSAGE");
     GIT_COMMIT_COMMITTER_DATE :=
       removeEmptyValue (env_lookup env "DD_GIT_COMMIT_COMMITTER_DATE");
     GIT_COMMIT_COMMITTER_EMAIL :=
       removeEmptyValue (env_lookup env "DD_GIT_COMMIT_COMMITTER_EMAIL");
     GIT_COMMIT_COMMITTER_NAME :=
       removeEmptyValue (env_lookup env "DD_GIT_COMMIT_COMMITTER_NAME");
     GIT_COMMIT_AUTHOR_DATE := removeEmptyValue (env_lookup env "DD_GIT_COMMIT_AUTHOR_DATE");
     GIT_COMMIT_AUTHOR_EMAIL := removeEmptyValue (env_lookup env "DD_GIT_COMMIT_AUTHOR_EMAIL");
     GIT_COMMIT_AUTHOR_NAME := removeEmptyValue (env_lookup env "DD_GIT_COMMIT_AUTHOR_NAME") |}.
End UserProvidedGit.

(** Modelled from the spec: [normalizeRef] of [./utils] is not under src;
    a ref is stripped of its [refs/heads/] or [origin/] prefix, any other
    ref and an absent one are returned as they are. *)
Definition normalizeRef_spec (ref : option string) : option string :=
  match ref with
  | None => None
  | Some r =>
      if String.prefix "refs/heads/" r then Some (drop_string 11 r)
      else if String.prefix "origin/" r then Some (drop_string 7 r)
      else Some r
  end.

(** ** Polling engine *)

Definition POLLING_INTERVAL : Z := 5000.

(** A trigger result is [{...triggerResponse, pollingTimeout}], later
    completed with its [result]; the spread response is kept as a whole. *)
Record TriggerResult : Type := {
  trr_response : TriggerResponse;
  pollingTimeout : Z;
  trr_result : option PollResult;
}.

(** [Map.prototype.set]: a known key keeps its place and takes the new
    value, a new key goes last. *)
Fixpoint map_set {V : Type} (key : string) (value : V) (m : list (string * V))
    : list (string * V) :=
  match m with
  | [] => [(key, value)]
  | (k, v) :: rest =>
      if String.eqb k key then (key, value) :: rest else (k, v) :: map_set key value rest
  end.

(** [Map.prototype.get] followed by a mutation of the object found: the
    objects of the map are shared with the array of its values. *)
Fixpoint map_update {V : Type} (key : string) (f : V -> V) (m : list (string * V))
    : list (string * V) :=
  match m with
  | [] => []
  | (k, v) :: rest =>
      if String.eqb k key then (k, f v) :: rest else (k, v) :: map_update key f rest
  end.

Definition createTriggerResultMap (triggerResponses : list TriggerResponse)
    (defaultTimeout : Z) (triggerConfigs : list TriggerConfig)
    : list (string * TriggerResult) :=
  let timeoutByPublicId : gmap string Z :=
    foldl (fun m trigger =>
             <[tc_id trigger := default defaultTimeout (cfg_pollingTimeout (tc_config trigger))]> m)
          ∅ triggerConfigs in
  foldl (fun m triggerResponse =>
           map_set (tr_result_id triggerResponse)
             {| trr_response := triggerResponse;
                pollingTimeout :=
                  default defaultTimeout (timeoutByPublicId !! tr_public_id triggerResponse);
                trr_result := None |} m)
        [] triggerResponses.

Definition createFailingResult (errorMessage resultId deviceId : string) (dcId : Z)
    (tunnel : bool) : PollResult :=
  {| dc_id := dcId;
     result :=
       {| device := Some {| height := 0; id := deviceId; width := 0 |};
          duration := Some 0;
          error := Some errorMessage;
          errorCode := None;
          eventType := "finished";
          passed := Some false;
          startUrl := Some EmptyString;
          stepDetails := [];
          tunnel := tunnel;
          unhealthy := None |};
     resultID := resultId;
     timestamp := 0 |}.

(** [!tr.result] *)
Definition pending (tr : TriggerResult) : bool :=
  match trr_result tr with Some _ => false | None => true end.

Definition set_result (r : PollResult) (tr : TriggerResult) : TriggerResult :=
  {| trr_response := trr_response tr; pollingTimeout := pollingTimeout tr;
     trr_result := Some r |}.

(** [for (const triggerResult of triggerResults.filter((tr) => !tr.result))
    { if (cond) { triggerResult.result = createFailingResult(...) } }] *)
Definition fail_pending (cond : TriggerResult -> bool) (errorMessage : string) (tunnel : bool)
    (store : list (string * TriggerResult)) : list (string * TriggerResult) :=
  (fun entry : string * TriggerResult =>
     let tr := entry.2 in
     if pending tr && cond tr
     then (entry.1,
           set_result (createFailingResult errorMessage (tr_result_id (trr_response tr))
                         (tr_device (trr_response tr)) (tr_location (trr_response tr)) tunnel)
                      tr)
     else entry) <$> store.

(** [Math.max(...xs)]; [None] stands for the [-Infinity] of no argument. *)
Definition max_of (xs : list Z) : option Z :=
  match xs with
  | [] => None
  | x :: rest => Some (foldl Z.max x rest)
  end.

Definition reached (pollingDuration : Z) (limit : option Z) : bool :=
  match limit with
  | Some m => m <=? pollingDuration
  | None => true
  end.

(** What the loop observes from outside at its [i]-th iteration: the
    clock, the flag [isTunnelConnected] (flipped by the callbacks of
    [tunnel.keepAlive()]) and the answer of [api.pollResults]. *)
Record PollingEnv : Type := {
  now : nat -> Z;
  isTunnelConnected : nat -> bool;
  pollResults : nat -> list string -> BackendError + list PollResult;
}.

Inductive LoopStep : Type :=
  | Continue (store : list (string * TriggerResult))
  | Break (store : list (string * TriggerResult))
  | Abort (e : Exception).

(** [for (const polledResult of polledResults) ...] *)
Definition attach_polled (polledResults : list PollResult)
    (store : list (string * TriggerResult)) : list (string * TriggerResult) :=
  foldl (fun store polledResult =>
           if String.eqb (eventType (result polledResult)) "finished"
           then map_update (resultID polledResult) (set_result polledResult) store
           else store)
        store polledResults.

Definition any_pending (store : list (string * TriggerResult)) : bool :=
  bool_decide (0 < length (filter (fun entry => pending entry.2 = true) store))%nat.

Section Polling.
Context {E : ERRORS} {H : ApiHelpers}.
Variable env : PollingEnv.
Variable pollingStartDate : Z.
Variable tunnel : bool.                       (* a tunnel was supplied *)
Variable failOnCriticalErrors : option bool.
Variable maxPollingTimeout : option Z.

(** The two rounds of synthesised results that open an iteration: the
    trigger results past their timeout, then, with a tunnel that is no
    longer connected, all the pending ones. *)
Definition expire (i : nat) (store : list (string * TriggerResult))
    : list (string * TriggerResult) :=
  let pollingDuration := now env i - pollingStartDate in
  let store :=
    fail_pending (fun tr => pollingTimeout tr <=? pollingDuration) TIMEOUT tunnel store in
  if tunnel && negb (isTunnelConnected env i)
  then fail_pending (fun _ => true) TUNNEL tunnel store
  else store.

(** The result ids handed to [api.pollResults]. *)
Definition pending_ids (store : list (string * TriggerResult)) : list string :=
  (fun entry => tr_result_id (trr_response entry.2))
  <$> filter (fun entry => pending entry.2 = true) store.

(** The body of the [while] loop, at iteration [i]. *)
Definition poll_iteration (i : nat) (store : list (string * TriggerResult)) : LoopStep :=
  let pollingDuration := now env i - pollingStartDate in
  let store := expire i store in
  if reached pollingDuration maxPollingTimeout then Break store
  else
    let polled :=
      match pollResults env i (pending_ids store) with
      | inr polledResults => Return (polledResults, store)
      | inl error =>
          if is5xxError error && negb (truthy_bool failOnCriticalErrors)
          then Return ([], fail_pending (fun _ => true) ENDPOINT tunnel store)
          else Throw (Rethrown error)
      end in
    match polled with
    | Throw e => Abort e
    | Return (polledResults, store) =>
        let store := attach_polled polledResults store in
        if any_pending store then Continue store else Break store
    end.

(** The [while] loop from iteration [i] on; [None] when [fuel] iterations
  did not suffice. *)
Fixpoint poll_loop (fuel : nat) (i : nat) (store : list (string * TriggerResult))
  : option (Completion (list (string * TriggerResult))) :=
if any_pending store then
  match fuel with
  | O => None
  | S fuel' =>
      match poll_iteration i store with
      | Continue store' => poll_loop fuel' (S i) store'
      | Break store' => Some (Return store')
      | Abort e => Some (Throw e)
      end
  end
else Some (Return store).
End Polling.

(** [triggerResults.reduce(...)]: bundle the results by public id.  A
    missing result would be stored as [undefined], hence the [option].
    The public ids are test identifiers; none of them names a property
    that the accumulator object inherits. *)
Definition bundle_results (store : list (string * TriggerResult))
    : gmap string (list (option PollResult)) :=
  foldl (fun resultsByPublicId entry =>
           let triggerResult := entry.2 in
           <[tr_public_id (trr_response triggerResult) :=
               default [] (resultsByPublicId !! tr_public_id (trr_response triggerResult))
               ++ [trr_result triggerResult]]> resultsByPublicId)
        ∅ store.

Section WaitForResults.
Context {E : ERRORS} {H : ApiHelpers}.

Definition waitForResults (env : PollingEnv) (pollingStartDate : Z) (fuel : nat)
  (triggerResponses : list TriggerResponse) (defaultTimeout : Z)
  (triggerConfigs : list TriggerConfig) (tunnel : bool) (failOnCriticalErrors : option bool)
  : option (Completion (gmap string (list (option PollResult)))) :=
let triggerResultMap := createTriggerResultMap triggerResponses defaultTimeout triggerConfigs in
let maxPollingTimeout := max_of ((fun entry => pollingTimeout entry.2) <$> triggerResultMap) in
match poll_loop env pollingStartDate tunnel failOnCriticalErrors maxPollingTimeout
        fuel 0 triggerResultMap with
| None => None
| Some (Throw e) => Some (Throw e)
| Some (Return store) => Some (Return (bundle_results store))
end.
End WaitForResults.


(** ** The claims, as the specification words them *)

(** The total order skipped > non_blocking > blocking. *)
Definition rule_rank (rule : ExecutionRule) : nat :=
  match rule with
  | BLOCKING => 0
  | NON_BLOCKING => 1
  | SKIPPED => 2
  end.

Definition rule_max (a b : ExecutionRule) : ExecutionRule :=
  if (rule_rank a <? rule_rank b)%nat then b else a.

(** The test that a trigger config resolves to, when the backend knows
    it, with its payload. *)
Definition resolved `{Runtime} (getTest : string -> BackendError + InternalTest)
    (env : list (string * string)) (tc : TriggerConfig) : option (TestPayload * InternalTest) :=
  match getTest (normalize_id (tc_id tc)) with
  | inr fetched =>
      let test :=
        {| request_url := request_url fetched; options := options fetched;
           type := type fetched; subtype := subtype fetched; suite := tc_suite tc |} in
      Some ((handleConfig env test (normalize_id (tc_id tc)) (Some (tc_config tc))).1, test)
  | inl _ => None
  end.

Definition is_skipped (resolution : TestPayload * InternalTest) : bool :=
  bool_decide (payload_executionRule resolution.1 = SKIPPED).

(** The tests handed to [reporter.testWait], in the order of the calls. *)
Definition test_waits (reported : list ReporterCall) : list InternalTest :=
  omap (fun call => match call with CallTestWait test => Some test | _ => None end) reported.

(** A stored trigger result answers a trigger response: it sits under the
    response's result id, still carries the response, and its result, once
    known, bears that result id. *)
Definition answers (tr : TriggerResponse) (entry : string * TriggerResult) : Prop :=
  entry.1 = tr_result_id tr
  ∧ trr_response entry.2 = tr
  ∧ ∀ pr, trr_result entry.2 = Some pr → resultID pr = tr_result_id tr.

(** A bundled result is the one of a trigger response. *)
Definition result_of (tr : TriggerResponse) (o : option PollResult) : Prop :=
  ∃ pr, o = Some pr ∧ resultID pr = tr_result_id tr.

Definition timeouts (store : list (string * TriggerResult)) : list Z :=
  (fun entry => pollingTimeout entry.2) <$> store.

(** A poll result synthesised for a trigger response after a failure. *)
Definition synthesised (errorMessage : string) (tr : TriggerResponse) (pr : PollResult)
    : Prop :=
  resultID pr = tr_result_id tr
  ∧ timestamp pr = 0
  ∧ error (result pr) = Some errorMessage
  ∧ passed (result pr) = Some false
  ∧ eventType (result pr) = "finished".

(** ** Further parts of the program *)

(** ** Variables given on the command line *)

Definition dquote : string := String "034"%char EmptyString.

(** [s.indexOf(c)] for a character [c]; [None] stands for [-1]. *)
Fixpoint indexOf (c : ascii) (s : string) : option nat :=
  match s with
  | EmptyString => None
  | String a s' => if Ascii.eqb a c then Some O else S <$> indexOf c s'
  end.

(** [s.substring(0, n)] *)
Fixpoint take_string (n : nat) (s : string) : string :=
  match n, s with
  | S n', String c s' => String c (take_string n' s')
  | _, _ => EmptyString
  end.

(** [obj[key] = value] on an object made by the literal [{}]: the key
    becomes an own property, except [__proto__], whose inherited setter
    ignores a string. *)
Definition js_assign (key value : string) (obj : gmap string string) : gmap string string :=
  if String.eqb key "__proto__" then obj else <[key := value]> obj.

(** One round of the loop of [parseVariablesFromCli], on the variables
    gathered and the lines logged so far. *)
Definition parse_variable (acc : gmap string string * list string) (variableArgument : string)
    : gmap string string * list string :=
  match indexOf "=" variableArgument with
  | None =>
      (acc.1,
       acc.2 ++ ["Ignoring variable " +:+ dquote +:+ variableArgument +:+ dquote
                 +:+ " as separator " +:+ dquote +:+ "=" +:+ dquote +:+ " was not found"])
  | Some O =>
      (acc.1,
       acc.2 ++ ["Ignoring variable " +:+ dquote +:+ variableArgument +:+ dquote
                 +:+ " as variable name is empty"])
  | Some separatorIndex =>
      (js_assign (take_string separatorIndex variableArgument)
         (drop_string (S separatorIndex) variableArgument) acc.1,
       acc.2)
  end.

(** Returns the variables, [None] for [undefined], and the lines handed to
    [logFunction]; the argument list defaults to the empty one. *)
Definition parseVariablesFromCli (variableArguments : option (list string))
    : option (gmap string string) * list string :=
  let result := foldl parse_variable (∅, []) (default [] variableArguments) in
  (if bool_decide (0 < size result.1)%nat then Some result.1 else None, result.2).

(** ** Retry helper *)

(** [if (waiter)] for a number of milliseconds, an integer, or [undefined]. *)
Definition truthy_number (w : option Z) : bool :=
  match w with
  | Some w => negb (w =? 0)
  | None => false
  end.

Section Retry.
Context {T E : Type}.
(** [func n] is what the call of [func] made after [n] failed calls
    settles to: a rejection or a value. *)
Variable func : nat -> E + T.
Variable shouldRetryAfterWait : nat -> E -> option Z.

(** [trier(retries)]: the outcome and the waits made, in order; [None]
    when [fuel] calls did not suffice. *)
Fixpoint trier (fuel : nat) (retries : nat) : option ((E + T) * list Z) :=
  match fuel with
  | O => None
  | S fuel' =>
      match func retries with
      | inr value => Some (inr value, [])
      | inl e =>
          let waiter := shouldRetryAfterWait retries e in
          if truthy_number waiter then
            match trier fuel' (S retries) with
            | Some (outcome, waits) => Some (outcome, default 0 waiter :: waits)
            | None => None
            end
          else Some (inl e, [])
      end
  end.

Definition retry (fuel : nat) : option ((E + T) * list Z) := trier fuel 0.
End Retry.

(** An argument that [parseVariablesFromCli] ignores with a log line. *)
Definition ignored_variable (variableArgument : string) : bool :=
  match indexOf "=" variableArgument with
  | None | Some O => true
  | Some (S _) => false
  end.

(** The polling timeout that the trigger configs give a public id: that of
    the last config with this id, when it sets one, else the default. *)
Definition configured_timeout (defaultTimeout : Z) (triggerConfigs : list TriggerConfig)
    (publicId : string) : Z :=
  match last (filter (fun trigger => tc_id trigger = publicId) triggerConfigs) with
  | Some trigger => default defaultTimeout (cfg_pollingTimeout (tc_config trigger))
  | None => defaultTimeout
  end.

(** What the opening of an iteration makes of a trigger result, [elapsed]
    after the start of the polling. *)
Definition expired_entry `{ERRORS} (elapsed : Z) (tunnel disconnected : bool)
    (entry : string * TriggerResult) : string * TriggerResult :=
  let tr := entry.2 in
  let failing errorMessage :=
    (entry.1,
     set_result (createFailingResult errorMessage (tr_result_id (trr_response tr))
                   (tr_device (trr_response tr)) (tr_location (trr_response tr)) tunnel)
                tr) in
  if pending tr then
    if pollingTimeout tr <=? elapsed then failing TIMEOUT
    else if tunnel && disconnected then failing TUNNEL
    else entry
  else entry.

(** The lookup of a trigger config fails with a not-found error. *)
Definition not_found `{ApiHelpers} (getTest : string -> BackendError + InternalTest)
    (tc : TriggerConfig) : bool :=
  match getTest (normalize_id (tc_id tc)) with
  | inl e => instanceofError e && isNotFoundError e
  | inr _ => false
  end.

(** The lookup of a trigger config fails with another error. *)
Definition lookup_fails `{ApiHelpers} (getTest : string -> BackendError + InternalTest)
    (tc : TriggerConfig) : bool :=
  match getTest (normalize_id (tc_id tc)) with
  | inl e => negb (instanceofError e && isNotFoundError e)
  | inr _ => false
  end.

(** The names of the placeholders that [template] meets in a text, from
    left to right. *)
Fixpoint placeholders_from (skip : nat) (st : string) : list string :=
  match st with
  | EmptyString => []
  | String c st' =>
      match skip with
      | S k => placeholders_from k st'
      | O =>
          match match_template st with
          | Some (m, p1, _) => p1 :: placeholders_from (String.length m - 1) st'
          | None => placeholders_from 0 st'
          end
      end
  end.

Definition placeholders (st : string) : list string := placeholders_from 0 st.

(** No line terminator occurs in [s]. *)
Fixpoint no_line_terminator (s : string) : bool :=
  match s with
  | EmptyString => true
  | String c s' => negb (is_line_terminator c) && no_line_terminator s'
  end.

(** The trigger result that [createTriggerResultMap] makes for a trigger
    response, and the one that holds a given result. *)
Definition fresh_entry (defaultTimeout : Z) (triggerConfigs : list TriggerConfig)
    (tr : TriggerResponse) : string * TriggerResult :=
  (tr_result_id tr,
   {| trr_response := tr;
      pollingTimeout := configured_timeout defaultTimeout triggerConfigs (tr_public_id tr);
      trr_result := None |}).

Definition settled_entry (defaultTimeout : Z) (triggerConfigs : list TriggerConfig)
    (answer : TriggerResponse -> PollResult) (tr : TriggerResponse)
    : string * TriggerResult :=
  (tr_result_id tr,
   {| trr_response := tr;
      pollingTimeout := configured_timeout defaultTimeout triggerConfigs (tr_public_id tr);
      trr_result := Some (answer tr) |}).

(** ** Sample data *)

Definition sample_errors : ERRORS :=
  {| ENDPOINT := "Endpoint Failure"; TIMEOUT := "Timeout"; TUNNEL := "Tunnel Failure" |}.

Definition sample_result (err : option string) (verdict : option bool) : Result :=
  {| device := None; duration := Some 12; error := err; errorCode := None;
     eventType := "finished"; passed := verdict; startUrl := None; stepDetails := [];
     tunnel := false; unhealthy := None |}.

Definition sample_api : ApiHelpers :=
  {| isNotFoundError := fun e =>
       match response e with
       | Some r => bool_decide (status r = Some 404)
       | None => false
       end;
     is5xxError := fun e =>
       match response e with
       | Some {| status := Some code |} => (500 <=? code) && (code <=? 599)
       | _ => false
       end;
     formatBackendErrors := message;
     chalk_bold_dim := fun s => s;
     chalk_yellow_bold := fun s => s |}.

Definition sample_git : GitHelpers := {| normalizeRef := normalizeRef_spec |}.

(** A connection that was refused: the client's error has no response. *)
Definition connection_refused : BackendError :=
  {| instanceofError := true; message := "connect ECONNREFUSED"; response := None |}.

Definition bad_gateway : BackendError :=
  {| instanceofError := true; message := "Bad Gateway";
     response := Some {| status := Some 502 |} |}.

Definition sample_payload (publicId : string) (rule : ExecutionRule) : TestPayload :=
  {| payload_executionRule := rule; payload_public_id := publicId;
     payload_pollingTimeout := None; payload_startUrl := None; payload_others := ∅ |}.




(** A runtime whose [URL] constructor knows one URL, of a host without
    subdomain, and rejects the others. *)
Definition sample_runtime : Runtime :=
  {| newURL := fun url =>
       if String.eqb url "https://example.com/v1"
       then Some {| hash := EmptyString; host := "example.com"; hostname := "example.com";
                    origin := "https://example.com"; search := EmptyString; pathname := "/v1";
                    port := EmptyString; protocol := "https:" |}
       else None;
     objectPrototype := {[ "toString" := "function toString() { [native code] }" ]} |}.

Definition sample_test (rule : option ExecutionRule) : InternalTest :=
  {| request_url := "https://example.com/v1";
     options := Some {| ci := Some {| ci_executionRule := rule |} |};
     type := "browser"; subtype := None; suite := None |}.

Definition sample_config (url : option string) : ConfigOverride :=
  {| cfg_executionRule := None; cfg_pollingTimeout := None; cfg_startUrl := url;
     cfg_others := ∅ |}.

(** A backend that knows one test, whose rule is [skipped]. *)
Definition sample_getTest (id : string) : BackendError + InternalTest :=
  if String.eqb id "abc-def-ghi" then inr (sample_test (Some SKIPPED))
  else inl {| instanceofError := true; message := "Not found";
              response := Some {| status := Some 404 |} |}.

Definition sample_trigger_config (id : string) : TriggerConfig :=
  {| tc_config := sample_config None; tc_id := id; tc_suite := None |}.

(** Three trigger responses, two of them for the same test. *)
Definition sample_response (publicId resultId : string) : TriggerResponse :=
  {| tr_device := "chrome.laptop_large"; tr_location := 1; tr_public_id := publicId;
     tr_result_id := resultId |}.

Definition sample_responses : list TriggerResponse :=
  [sample_response "aaa-aaa-aaa" "r1"; sample_response "bbb-bbb-bbb" "r2";
   sample_response "aaa-aaa-aaa" "r3"].

(** A backend that accepts every request and answers one trigger response
    per payload submitted. *)
Definition echo_backend (body : @Payload unit) : BackendError + Trigger :=
  inr {| trigger_results :=
           (fun payload =>
              sample_response (payload_public_id payload) ("r-" +:+ payload_public_id payload))
           <$> payload_tests body |}.

Definition sample_poll_result (resultId : string) : PollResult :=
  {| dc_id := 1; result := sample_result None (Some true); resultID := resultId;
     timestamp := 1667400000000 |}.

(** A clock that advances by the polling interval, a backend that
    answers the first poll with the result of [r1] and fails the second
    one with a 502, no tunnel event. *)
Definition sample_polling_env : PollingEnv :=
  {| now := fun i => POLLING_INTERVAL * Z.of_nat i;
     isTunnelConnected := fun _ => true;
     pollResults := fun i _ =>
       match i with
       | O => inr [sample_poll_result "r1"]
       | _ => inl bad_gateway
       end |}.

(** A backend that answers every poll with the result of [r1]. *)
Definition steady_polling_env : PollingEnv :=
  {| now := fun i => POLLING_INTERVAL * Z.of_nat i;
     isTunnelConnected := fun _ => true;
     pollResults := fun _ _ => inr [sample_poll_result "r1"] |}.

(** A backend whose polls all fail with a 502. *)
Definition failing_polling_env : PollingEnv :=
  {| now := fun i => POLLING_INTERVAL * Z.of_nat i;
     isTunnelConnected := fun _ => true;
     pollResults := fun _ _ => inl bad_gateway |}.

(** An action that fails twice and then returns 42, and a policy that
    waits longer each time and gives up after three failures. *)
Definition flaky (n : nat) : string + Z :=
  match n with
  | O | S O => inl "ECONNRESET"
  | _ => inr 42
  end.

Definition backoff (retries : nat) (e : string) : option Z :=
  if (retries <? 3)%nat then Some (500 * (Z.of_nat retries + 1)) else None.

(** A runtime whose [URL] constructor knows the URL of a shop API. *)
Definition shop_runtime : Runtime :=
  {| newURL := fun url =>
       if String.eqb url "https://api.shop.example.com/v1"
       then Some {| hash := EmptyString; host := "api.shop.example.com";
                    hostname := "api.shop.example.com";
                    origin := "https://api.shop.example.com"; search := EmptyString;
                    pathname := "/v1"; port := EmptyString; protocol := "https:" |}
       else None;
     objectPrototype := ∅ |}.

(** A backend that answers every poll with a passed result for each of
    the result ids asked for. *)
Definition prompt_polling_env : PollingEnv :=
  {| now := fun i => POLLING_INTERVAL * Z.of_nat i;
     isTunnelConnected := fun _ => true;
     pollResults := fun _ resultIds => inr (sample_poll_result <$> resultIds) |}.

(** * Theorems *)

(** ** Execution rule *)

Lemma getStrictestExecutionRule_max (configRule : ExecutionRule)
    (testRule : option ExecutionRule) :
  getStrictestExecutionRule configRule testRule
  = rule_max configRule (default BLOCKING testRule).
Proof. by destruct configRule, testRule as [[]|]. Qed.

(** C3: the resolved execution rule is the maximum of the override's rule
    and the test's rule under skipped > non_blocking > blocking, an
    undefined rule (or an absent override) counting as blocking. *)
Theorem getExecutionRule_is_max (test : InternalTest) (configOverride : option ConfigOverride) :
  getExecutionRule test configOverride
  = rule_max (default BLOCKING (configOverride ≫= cfg_executionRule))
             (default BLOCKING (test_executionRule test)).
Proof.
  unfold getExecutionRule.
  destruct configOverride as [c|]; simpl.
  - destruct (cfg_executionRule c) as [rule|]; simpl.
    + apply getStrictestExecutionRule_max.
    + by destruct (test_executionRule test) as [[]|].
  - by destruct (test_executionRule test) as [[]|].
Qed.

(** ** Result classifier *)

Lemma strict_eq_true (x : option string) (c : string) :
  strict_eq x c = true ↔ x = Some c.
Proof.
  destruct x as [s|]; simpl; [|done].
  rewrite String.eqb_eq. split; congruence.
Qed.

Lemma truthy_bool_true (b : option bool) : truthy_bool b = true ↔ b = Some true.
Proof. by destruct b as [[]|]. Qed.

Lemma isCriticalError_true `{ERRORS} (r : Result) :
  isCriticalError r = true ↔ unhealthy r = Some true ∨ error r = Some ENDPOINT.
Proof.
  unfold isCriticalError.
  rewrite orb_true_iff, truthy_bool_true, strict_eq_true. done.
Qed.

Lemma first_gate `{ERRORS} (r : Result) (foc : bool) :
  isCriticalError r && negb foc = true
  ↔ (unhealthy r = Some true ∨ error r = Some ENDPOINT) ∧ foc = false.
Proof. rewrite andb_true_iff, isCriticalError_true, negb_true_iff. done. Qed.

Lemma second_gate `{ERRORS} (r : Result) (fot : bool) :
  strict_eq (error r) TIMEOUT && negb fot = true ↔ error r = Some TIMEOUT ∧ fot = false.
Proof. rewrite andb_true_iff, strict_eq_true, negb_true_iff. done. Qed.

(** C2: the verdict of [hasResultPassed], clause by clause. *)
Theorem hasResultPassed_cases `{ERRORS} (r : Result) (failOnCriticalErrors failOnTimeout : bool) :
  let critical :=
    (unhealthy r = Some true ∨ error r = Some ENDPOINT) ∧ failOnCriticalErrors = false in
  let timeout := error r = Some TIMEOUT ∧ failOnTimeout = false in
  let verdict := hasResultPassed r failOnCriticalErrors failOnTimeout in
  (critical → verdict = true)
  ∧ (¬ critical → timeout → verdict = true)
  ∧ (¬ critical → ¬ timeout → ∀ b, passed r = Some b → verdict = b)
  ∧ (¬ critical → ¬ timeout → passed r = None → is_Some (errorCode r) → verdict = false)
  ∧ (¬ critical → ¬ timeout → passed r = None → errorCode r = None → verdict = true).
Proof.
  intros critical timeout verdict. subst critical timeout verdict.
  unfold hasResultPassed.
  destruct (isCriticalError r && negb failOnCriticalErrors) eqn:G1.
  { apply first_gate in G1. repeat split; intros; done. }
  assert (N1 : ¬ ((unhealthy r = Some true ∨ error r = Some ENDPOINT)
                  ∧ failOnCriticalErrors = false)).
  { rewrite <- first_gate. by rewrite G1. }
  destruct (strict_eq (error r) TIMEOUT && negb failOnTimeout) eqn:G2.
  { apply second_gate in G2. repeat split; intros; done. }
  assert (N2 : ¬ (error r = Some TIMEOUT ∧ failOnTimeout = false)).
  { rewrite <- second_gate. by rewrite G2. }
  repeat split; try done.
  - intros _ _ b ->. done.
  - intros _ _ -> [c ->]. done.
  - intros _ _ -> ->. done.
Qed.

(** A timed out result passes when timeouts are tolerated. *)
Lemma hasResultPassed_cases_witness :
  hasResultPassed (E := sample_errors) (sample_result (Some "Timeout") (Some false)) true false
  = true.
Proof.
  apply (proj1 (proj2 (hasResultPassed_cases (H := sample_errors)
                         (sample_result (Some "Timeout") (Some false)) true false))).
  - intros [_ Hfoc]. discriminate Hfoc.
  - split; reflexivity.
Defined.

(** C6: turning a policy flag from [true] to [false], the other one being
    fixed, never turns a passing verdict into a failing one. *)
Theorem hasResultPassed_monotone `{ERRORS} (r : Result) (failOnCriticalErrors failOnTimeout : bool) :
  (hasResultPassed r true failOnTimeout = true → hasResultPassed r false failOnTimeout = true)
  ∧ (hasResultPassed r failOnCriticalErrors true = true
     → hasResultPassed r failOnCriticalErrors false = true).
Proof.
  unfold hasResultPassed. split.
  - rewrite !andb_false_r, !andb_true_r.
    destruct (isCriticalError r); [done|].
    by destruct (strict_eq (error r) TIMEOUT && negb failOnTimeout).
  - rewrite !andb_false_r, !andb_true_r.
    destruct (isCriticalError r && negb failOnCriticalErrors); [done|].
    by destruct (strict_eq (error r) TIMEOUT).
Qed.

Lemma hasResultPassed_monotone_witness :
  hasResultPassed (E := sample_errors) (sample_result None (Some true)) false true = true.
Proof.
  apply (proj1 (hasResultPassed_monotone (H := sample_errors)
                  (sample_result None (Some true)) true true)).
  reflexivity.
Defined.


(** ** Reporter fan-out *)

Section FanOut.
Context {World : Type}.
Implicit Types (reporters : list (Reporter World)) (w : World).

Lemma main_hook_getReporter (h : Hook) reporters :
  main_hook h (getReporter reporters) = for_each_reporter (member_hook h) reporters.
Proof. by destruct h. Qed.



End FanOut.



(** ** Trigger dispatcher *)

Section DispatcherFacts.
Context `{ApiHelpers} {Metadata : Type} (ciMetadata : Metadata).

(** A failure that carries a response is wrapped, with its status. *)
Lemma runTests_wraps_failure (triggerTests : Payload → BackendError + Trigger)
    (ciTriggerApp : string) (testsToTrigger : list TestPayload) (e : BackendError)
    (r : HttpResponse) :
  triggerTests (runTests_payload ciMetadata ciTriggerApp testsToTrigger) = inl e →
  response e = Some r →
  runTests ciMetadata triggerTests ciTriggerApp testsToTrigger
  = Throw (EndpointError
             ("[" +:+ join "," (payload_public_id <$> testsToTrigger)
              +:+ "] Failed to trigger tests: " +:+ formatBackendErrors e +:+ nl)
             (status r)).
Proof. intros He Hr. unfold runTests. by rewrite He, Hr. Qed.
End DispatcherFacts.

(** C8: a failure without a response (here a refused connection) is not
    wrapped; reading [e.response.status] throws a [TypeError] instead. *)
Theorem runTests_failure_without_response :
  runTests (H := sample_api) tt (fun _ => inl connection_refused) "npm_package"
    [sample_payload "abc-def-ghi" BLOCKING; sample_payload "jkl-mno-pqr" BLOCKING]
  = Throw TypeError.
Proof. reflexivity. Qed.

(** ** User supplied git metadata *)

Lemma prefix_includes (sub s : string) : String.prefix sub s = true → includes sub s = true.
Proof. intros Hp. destruct s; simpl in *; by rewrite Hp. Qed.

Lemma prefix_app_l (a c s : string) :
  String.prefix (a +:+ c) s = true → String.prefix a s = true.
Proof.
  revert s. induction a as [|x a IH]; intros s; [by destruct s|].
  destruct s as [|y s]; simpl; [done|].
  destruct (ascii_dec x y); [apply IH|done].
Qed.

Section GitFacts.
Context `{GitHelpers}.

Lemma getUserGitMetadata_tag_in_branch (env : list (string * string)) (b : string) :
  env_lookup env "DD_GIT_BRANCH" = Some b →
  includes "origin/tags" b = true ∨ includes "refs/heads/tags" b = true →
  GIT_BRANCH (getUserGitMetadata env) = None
  ∧ GIT_TAG (getUserGitMetadata env) = removeEmptyValue (normalizeRef (Some b)).
Proof.
  intros Hb Hinc. unfold getUserGitMetadata. rewrite Hb. simpl.
  assert (includes "origin/tags" b || includes "refs/heads/tags" b = true) as ->.
  { apply orb_true_iff. exact Hinc. }
  done.
Qed.

Lemma getUserGitMetadata_no_tag_in_branch (env : list (string * string)) (b : string) :
  env_lookup env "DD_GIT_BRANCH" = Some b →
  includes "origin/tags" b = false → includes "refs/heads/tags" b = false →
  GIT_TAG (getUserGitMetadata env)
  = removeEmptyValue (normalizeRef (env_lookup env "DD_GIT_TAG"))
  ∧ GIT_BRANCH (getUserGitMetadata env)
    = if truthy_string (env_lookup env "DD_GIT_TAG") then None
      else removeEmptyValue (normalizeRef (Some b)).
Proof.
  intros Hb Horigin Hheads. unfold getUserGitMetadata. rewrite Hb.
  cbn [opt_includes]. rewrite Horigin, Hheads. cbn [orb GIT_TAG GIT_BRANCH].
  by destruct (truthy_string _).
Qed.

(** A ref [refs/tags/name] holds one of the two tested substrings only
    when [name] does. *)
Lemma includes_refs_tags (name : string) :
  includes "origin/tags" ("refs/tags/" +:+ name) = includes "origin/tags" name
  ∧ includes "refs/heads/tags" ("refs/tags/" +:+ name) = includes "refs/heads/tags" name.
Proof.
  change ("refs/tags/" +:+ name)
    with (String "r" (String "e" (String "f" (String "s" (String "/"
            (String "t" (String "a" (String "g" (String "s" (String "/" name)))))))))).
  split; reflexivity.
Qed.

(** C7, as the code has it: a branch ref that contains [origin/tags] or
    [refs/heads/tags], so one prefixed [origin/tags/] or
    [refs/heads/tags/], is emitted normalised as the tag and the branch is
    cleared; a branch ref that contains neither, so one prefixed
    [refs/tags/] whose name contains neither, is not read as a tag: the
    tag emitted is the normalised [DD_GIT_TAG], and the normalised ref
    stays the branch unless a non-empty [DD_GIT_TAG] is supplied; a
    non-empty [DD_GIT_TAG] clears the branch. *)
Theorem getUserGitMetadata_tags (env : list (string * string)) :
  (∀ b, env_lookup env "DD_GIT_BRANCH" = Some b →
        includes "origin/tags" b = true ∨ includes "refs/heads/tags" b = true →
        GIT_BRANCH (getUserGitMetadata env) = None
        ∧ GIT_TAG (getUserGitMetadata env) = removeEmptyValue (normalizeRef (Some b)))
  ∧ (∀ b, env_lookup env "DD_GIT_BRANCH" = Some b →
          String.prefix "origin/tags/" b = true ∨ String.prefix "refs/heads/tags/" b = true →
          GIT_BRANCH (getUserGitMetadata env) = None
          ∧ GIT_TAG (getUserGitMetadata env) = removeEmptyValue (normalizeRef (Some b)))
  ∧ (∀ b, env_lookup env "DD_GIT_BRANCH" = Some b →
          includes "origin/tags" b = false → includes "refs/heads/tags" b = false →
          GIT_TAG (getUserGitMetadata env)
          = removeEmptyValue (normalizeRef (env_lookup env "DD_GIT_TAG"))
          ∧ GIT_BRANCH (getUserGitMetadata env)
            = if truthy_string (env_lookup env "DD_GIT_TAG") then None
              else removeEmptyValue (normalizeRef (Some b)))
  ∧ (∀ name, env_lookup env "DD_GIT_BRANCH" = Some ("refs/tags/" +:+ name) →
             includes "origin/tags" name = false → includes "refs/heads/tags" name = false →
             GIT_TAG (getUserGitMetadata env)
             = removeEmptyValue (normalizeRef (env_lookup env "DD_GIT_TAG"))
             ∧ GIT_BRANCH (getUserGitMetadata env)
               = if truthy_string (env_lookup env "DD_GIT_TAG") then None
                 else removeEmptyValue (normalizeRef (Some ("refs/tags/" +:+ name))))
  ∧ (∀ t, env_lookup env "DD_GIT_TAG" = Some t → t ≠ EmptyString →
          GIT_BRANCH (getUserGitMetadata env) = None).
Proof.
  split_and!.
  - intros b. apply getUserGitMetadata_tag_in_branch.
  - intros b Hb Hp. apply getUserGitMetadata_tag_in_branch; [done|].
    destruct Hp as [Hp|Hp]; [left|right]; apply prefix_includes.
    + by apply (prefix_app_l "origin/tags" "/").
    + by apply (prefix_app_l "refs/heads/tags" "/").
  - intros b. apply getUserGitMetadata_no_tag_in_branch.
  - intros name Hb Horigin Hheads.
    destruct (includes_refs_tags name) as [Ho Hh].
    apply getUserGitMetadata_no_tag_in_branch; [done|by rewrite Ho|by rewrite Hh].
  - intros t Ht Hne. unfold getUserGitMetadata. rewrite Ht. simpl.
    assert (String.eqb t EmptyString = false) as -> by by apply String.eqb_neq.
    simpl. by destruct (_ || _).
Qed.
End GitFacts.

Lemma getUserGitMetadata_tags_witness :
  GIT_BRANCH (getUserGitMetadata (G := sample_git) [("DD_GIT_BRANCH", "origin/tags/v1.0")])
  = None
  ∧ GIT_TAG (getUserGitMetadata (G := sample_git) [("DD_GIT_BRANCH", "origin/tags/v1.0")])
    = Some "tags/v1.0".
Proof.
  apply (proj1 (proj2 (getUserGitMetadata_tags (H := sample_git)
                         [("DD_GIT_BRANCH", "origin/tags/v1.0")])) "origin/tags/v1.0").
  - reflexivity.
  - left. reflexivity.
Defined.

(** C7, as stated, fails on the prefix [refs/tags/]: the ref stays the
    branch and no tag is emitted. *)
Lemma getUserGitMetadata_refs_tags_kept_as_branch :
  GIT_BRANCH (getUserGitMetadata (G := sample_git) [("DD_GIT_BRANCH", "refs/tags/v1.0")])
  = Some "refs/tags/v1.0"
  ∧ GIT_TAG (getUserGitMetadata (G := sample_git) [("DD_GIT_BRANCH", "refs/tags/v1.0")])
    = None.
Proof. split; reflexivity. Qed.

(** An empty [DD_GIT_TAG] is not a supplied tag: the branch stays. *)
Remark getUserGitMetadata_empty_tag :
  GIT_BRANCH (getUserGitMetadata (G := sample_git)
                [("DD_GIT_BRANCH", "main"); ("DD_GIT_TAG", EmptyString)])
  = Some "main".
Proof. reflexivity. Qed.


(** ** URL templates *)

Lemma string_app_cons (x : ascii) (a b : string) : String x a +:+ b = String x (a +:+ b).
Proof. reflexivity. Qed.

Lemma string_app_nil_l (b : string) : EmptyString +:+ b = b.
Proof. reflexivity. Qed.

Lemma string_app_assoc (a b c : string) : (a +:+ b) +:+ c = a +:+ (b +:+ c).
Proof.
  induction a as [|x a IH]; [done|].
  rewrite !string_app_cons. by rewrite IH.
Qed.

Lemma string_length_app (a b : string) :
  String.length (a +:+ b) = (String.length a + String.length b)%nat.
Proof.
  induction a as [|x a IH]; [done|].
  rewrite string_app_cons. simpl. by rewrite IH.
Qed.

Lemma strip_prefix_Some (p s t : string) : strip_prefix p s = Some t ↔ s = p +:+ t.
Proof.
  revert s. induction p as [|a p IH]; intros s; simpl.
  - rewrite string_app_nil_l. split; congruence.
  - rewrite string_app_cons. destruct s as [|b s]; [done|].
    destruct (Ascii.eqb_spec a b) as [->|Hne].
    + rewrite IH. split; congruence.
    + split; [done|]. intros [= ? ?]. done.
Qed.

Lemma strip_prefix_app (p t : string) : strip_prefix p (p +:+ t) = Some t.
Proof. by apply strip_prefix_Some. Qed.

Lemma span_no_brace_sound (t : string) :
  t = (span_no_brace t).1 +:+ (span_no_brace t).2.
Proof.
  induction t as [|c t IH]; simpl; [done|].
  destruct (is_brace c); simpl; [done|].
  destruct (span_no_brace t) as [w r]. simpl in *.
  rewrite string_app_cons. by rewrite <- IH.
Qed.

Lemma span_no_brace_append (t x : string) :
  match x with EmptyString => True | String c _ => is_brace c = true end →
  span_no_brace (t +:+ x) = ((span_no_brace t).1, (span_no_brace t).2 +:+ x).
Proof.
  intros Hx. induction t as [|c t IH].
  - rewrite string_app_nil_l. destruct x as [|c x]; simpl; [done|]. by rewrite Hx.
  - rewrite string_app_cons. simpl.
    destruct (is_brace c); simpl; [done|].
    rewrite IH. by destruct (span_no_brace t).
Qed.

Lemma span_no_brace_all (w : string) :
  no_brace w = true → span_no_brace w = (w, EmptyString).
Proof.
  induction w as [|c w IH]; simpl; [done|].
  intros [Hc Hw]%andb_true_iff. apply negb_true_iff in Hc. rewrite Hc.
  by rewrite (IH Hw).
Qed.

(** A match at the head of [s] is a prefix of [s]. *)
Lemma match_template_sound (s m p1 rest : string) :
  match_template s = Some (m, p1, rest) → s = m +:+ rest.
Proof.
  unfold match_template.
  destruct (strip_prefix "{{" s) as [t|] eqn:Hs; [|done].
  apply strip_prefix_Some in Hs.
  pose proof (span_no_brace_sound t) as Ht.
  destruct (span_no_brace t) as [w r]. simpl in Ht.
  destruct (strip_prefix "}}" r) as [rest'|] eqn:Hr; [|done].
  apply strip_prefix_Some in Hr.
  intros [= <- <- <-]. rewrite Hs, Ht, Hr.
  by rewrite !string_app_assoc.
Qed.

(** A placeholder is matched whole. *)
Lemma match_template_placeholder (w post : string) :
  no_brace w = true →
  match_template ("{{" +:+ w +:+ "}}" +:+ post)
  = Some ("{{" +:+ w +:+ "}}", trim_right (trim_left w), post).
Proof.
  intros Hw. unfold match_template.
  rewrite strip_prefix_app.
  rewrite (span_no_brace_append w ("}}" +:+ post)) by done.
  rewrite (span_no_brace_all w Hw). simpl.
  done.
Qed.

Lemma strip_prefix_two (a : ascii) (s : string) :
  strip_prefix (String a (String a EmptyString)) s
  = match s with
    | String b (String c t) => if Ascii.eqb a b && Ascii.eqb a c then Some t else None
    | _ => None
    end.
Proof.
  destruct s as [|b [|c t]]; cbn -[Ascii.eqb]; try done.
  - by destruct (Ascii.eqb a b).
  - by destruct (Ascii.eqb a b), (Ascii.eqb a c).
Qed.

(** No closing [}}] appears at the head by putting [{{] after the text. *)
Lemma strip_close_before_open (r x : string) :
  strip_prefix "}}" r = None → strip_prefix "}}" (r +:+ "{{" +:+ x) = None.
Proof.
  rewrite !strip_prefix_two.
  destruct r as [|d1 [|d2 r]]; rewrite ?string_app_cons, ?string_app_nil_l.
  - done.
  - intros _. change ("{{" +:+ x) with (String "{" (String "{" x)).
    change (Ascii.eqb "}" "{") with false. by rewrite andb_false_r.
  - by destruct (Ascii.eqb "}" d1 && Ascii.eqb "}" d2).
Qed.

(** What precedes an opening [{{] is matched as it is on its own. *)
Lemma match_template_before (pre x : string) :
  pre ≠ EmptyString →
  match_template (pre +:+ "{{" +:+ x)
  = (fun '(m, p1, rest) => (m, p1, rest +:+ "{{" +:+ x)) <$> match_template pre.
Proof.
  intros Hpre. unfold match_template.
  destruct (strip_prefix "{{" pre) as [t|] eqn:Hs.
  - apply strip_prefix_Some in Hs. subst pre.
    rewrite string_app_assoc, strip_prefix_app.
    rewrite (span_no_brace_append t ("{{" +:+ x)) by done.
    destruct (span_no_brace t) as [w r]. cbn [fst snd].
    destruct (strip_prefix "}}" r) as [rest|] eqn:Hr.
    + apply strip_prefix_Some in Hr. subst r.
      by rewrite string_app_assoc, strip_prefix_app.
    + by rewrite strip_close_before_open.
  - cbn [fmap option_fmap option_map].
    rewrite strip_prefix_two in Hs. rewrite strip_prefix_two.
    destruct pre as [|c1 [|c2 pre]]; [done| |]; rewrite ?string_app_cons, ?string_app_nil_l.
    + change ("{{" +:+ x) with (String "{" (String "{" x)).
      destruct (Ascii.eqb_spec "{" c1) as [<-|]; [|done].
      change (Ascii.eqb "{" "{") with true. cbn [andb].
      change (span_no_brace (String "{" x)) with (EmptyString, String "{" x).
      cbn beta iota. rewrite strip_prefix_two. by destruct x.
    + by destruct (Ascii.eqb "{" c1 && Ascii.eqb "{" c2).
Qed.

Section TemplateFacts.
Context `{Runtime}.
Implicit Types (context : gmap string JSValue).

Lemma template_from_skip (a b : string) context :
  template_from (String.length a) (a +:+ b) context = template_from 0 b context.
Proof.
  induction a as [|x a IH]; [by destruct b|].
  rewrite string_app_cons. simpl. exact IH.
Qed.

Lemma template_from_app (pre x : string) (skip : nat) context :
  (skip ≤ String.length pre)%nat →
  template_from skip (pre +:+ "{{" +:+ x) context
  = template_from skip pre context +:+ template_from 0 ("{{" +:+ x) context.
Proof.
  revert skip. induction pre as [|c pre IH]; intros skip Hskip.
  - simpl in Hskip. assert (skip = 0%nat) as -> by lia. done.
  - rewrite string_app_cons.
    destruct skip as [|k].
    + change (template_from 0 (String c (pre +:+ "{{" +:+ x)) context)
        with (match match_template (String c (pre +:+ "{{" +:+ x)) with
              | Some (m, p1, _) =>
                  replacer context m p1
                  +:+ template_from (String.length m - 1) (pre +:+ "{{" +:+ x) context
              | None => String c (template_from 0 (pre +:+ "{{" +:+ x) context)
              end).
      change (template_from 0 (String c pre) context)
        with (match match_template (String c pre) with
              | Some (m, p1, _) =>
                  replacer context m p1 +:+ template_from (String.length m - 1) pre context
              | None => String c (template_from 0 pre context)
              end).
      rewrite <- string_app_cons, match_template_before by done.
      destruct (match_template (String c pre)) as [[[m p1] rest]|] eqn:Hm; simpl.
      * apply match_template_sound in Hm.
        assert (String.length m - 1 ≤ String.length pre)%nat.
        { apply (f_equal String.length) in Hm. rewrite string_length_app in Hm.
          simpl in Hm. lia. }
        rewrite IH by done. by rewrite string_app_assoc.
      * rewrite IH by lia. done.
    + simpl in *. apply IH. lia.
Qed.

(** A placeholder is rendered by the callback, whatever surrounds it. *)
Lemma template_placeholder (pre w post : string) context :
  no_brace w = true →
  template (pre +:+ "{{" +:+ w +:+ "}}" +:+ post) context
  = template pre context
    +:+ replacer context ("{{" +:+ w +:+ "}}") (trim_right (trim_left w))
    +:+ template post context.
Proof.
  intros Hw. unfold template.
  rewrite template_from_app by lia. f_equal.
  change (template_from 0 ("{{" +:+ w +:+ "}}" +:+ post) context)
    with (match match_template ("{{" +:+ w +:+ "}}" +:+ post) with
          | Some (m, p1, _) =>
              replacer context m p1
              +:+ template_from (String.length m - 1) ("{" +:+ w +:+ "}}" +:+ post) context
          | None => String "{" (template_from 0 ("{" +:+ w +:+ "}}" +:+ post) context)
          end).
  rewrite match_template_placeholder by done. f_equal.
  replace ("{" +:+ w +:+ "}}" +:+ post) with (("{" +:+ w +:+ "}}") +:+ post)
    by by rewrite !string_app_assoc.
  replace (String.length ("{{" +:+ w +:+ "}}") - 1)%nat with (String.length ("{" +:+ w +:+ "}}")).
  - apply template_from_skip.
  - rewrite !string_app_cons, !string_app_nil_l. simpl. lia.
Qed.

Lemma parseUrlVariables_SUBDOMAIN (env : list (string * string)) (url : string) (u : URL) :
  newURL url = Some u →
  (parseUrlVariables env url).1 !! "SUBDOMAIN"
  = Some (match subdomain_match (hostname u) with
          | Some g => JSString g
          | None => JSUndefined
          end).
Proof.
  intros Hu. unfold parseUrlVariables. rewrite Hu. cbn [fst].
  apply lookup_insert_eq.
Qed.

Lemma handleConfig_startUrl (env : list (string * string)) (test : InternalTest)
    (publicId : string) (config : ConfigOverride) (st : string) :
  type test = "browser" ∨ subtype test = Some "http" →
  cfg_startUrl config = Some st →
  st ≠ EmptyString →
  payload_startUrl (handleConfig env test publicId (Some config)).1
  = Some (template st (parseUrlVariables env (request_url test)).1).
Proof.
  intros Hkind Hst Hne. unfold handleConfig.
  assert (config_is_empty config = false) as ->.
  { unfold config_is_empty. rewrite Hst. by repeat case_match. }
  assert (String.eqb (type test) "browser" || strict_eq (subtype test) "http" = true) as ->.
  { apply orb_true_iff. destruct Hkind as [Hk|Hk]; [left|right].
    - by apply String.eqb_eq.
    - by apply strict_eq_true. }
  rewrite Hst. cbn [truthy_string andb default from_option].
  assert (String.eqb st EmptyString = false) as -> by by apply String.eqb_neq.
  cbn [negb]. by destruct (parseUrlVariables env (request_url test)).
Qed.

(** C10: once the test URL parses, the context holds the key SUBDOMAIN;
    for a host without subdomain its value is [undefined], and a start URL
    with the placeholder [{{SUBDOMAIN}}] is rendered with the text
    "undefined" in its place; in general a placeholder is replaced by the
    value of its name when the name is in the context, and is left as it
    is when the name is not. *)
Theorem parseUrlVariables_SUBDOMAIN_substituted (env : list (string * string)) :
  (∀ url u, newURL url = Some u → is_Some ((parseUrlVariables env url).1 !! "SUBDOMAIN"))
  ∧ (∀ test publicId config u pre post,
       newURL (request_url test) = Some u →
       subdomain_match (hostname u) = None →
       type test = "browser" ∨ subtype test = Some "http" →
       cfg_startUrl config = Some (pre +:+ "{{SUBDOMAIN}}" +:+ post) →
       let context := (parseUrlVariables env (request_url test)).1 in
       context !! "SUBDOMAIN" = Some JSUndefined
       ∧ payload_startUrl (handleConfig env test publicId (Some config)).1
         = Some (template pre context +:+ "undefined" +:+ template post context))
  ∧ (∀ context pre w post,
       no_brace w = true →
       let name := trim_right (trim_left w) in
       template (pre +:+ "{{" +:+ w +:+ "}}" +:+ post) context
       = template pre context
         +:+ (if js_in name context then js_get name context else "{{" +:+ w +:+ "}}")
         +:+ template post context).
Proof.
  split; [|split].
  - intros url u Hu. rewrite (parseUrlVariables_SUBDOMAIN env url u Hu). by eexists.
  - intros test publicId config u pre post Hu Hsub Hkind Hst context.
    assert (Hctx : context !! "SUBDOMAIN" = Some JSUndefined).
    { subst context. rewrite (parseUrlVariables_SUBDOMAIN env _ u Hu). by rewrite Hsub. }
    split; [done|].
    rewrite (handleConfig_startUrl env test publicId config _ Hkind Hst).
    + f_equal. fold context.
      change "{{SUBDOMAIN}}" with ("{{" +:+ "SUBDOMAIN" +:+ "}}").
      rewrite string_app_assoc, string_app_assoc, template_placeholder by done.
      do 2 f_equal.
      change (trim_right (trim_left "SUBDOMAIN")) with "SUBDOMAIN".
      unfold replacer, js_in, js_get. rewrite Hctx.
      rewrite bool_decide_eq_true_2 by by eexists. done.
    + destruct pre; discriminate.
  - intros context pre w post Hw name. by apply template_placeholder.
Qed.
End TemplateFacts.

Lemma parseUrlVariables_SUBDOMAIN_substituted_witness :
  payload_startUrl
    (handleConfig (R := sample_runtime) [] (sample_test None) "abc-def-ghi"
       (Some (sample_config (Some "https://{{SUBDOMAIN}}.staging.{{ DOMAIN }}/{{ABSENT}}")))).1
  = Some "https://undefined.staging.example.com/{{ABSENT}}".
Proof.
  pose proof (proj1 (proj2 (parseUrlVariables_SUBDOMAIN_substituted (H := sample_runtime) []))
                (sample_test None) "abc-def-ghi"
                (sample_config (Some "https://{{SUBDOMAIN}}.staging.{{ DOMAIN }}/{{ABSENT}}"))
                {| hash := EmptyString; host := "example.com"; hostname := "example.com";
                   origin := "https://example.com"; search := EmptyString; pathname := "/v1";
                   port := EmptyString; protocol := "https:" |}
                "https://" ".staging.{{ DOMAIN }}/{{ABSENT}}"
                eq_refl eq_refl (or_introl eq_refl) eq_refl) as [_ Hurl].
  rewrite Hurl. vm_compute. reflexivity.
Defined.

(** ** Tests to trigger *)

Section TriggerPath.
Context `{Runtime} `{ApiHelpers}.

Lemma option_list_Some {A : Type} (x : A) : option_list (Some x) = [x].
Proof. reflexivity. Qed.

Lemma option_list_None {A : Type} : option_list (@None A) = [].
Proof. reflexivity. Qed.

Lemma handleConfig_executionRule (env : list (string * string)) (test : InternalTest)
    (publicId : string) (config : option ConfigOverride) :
  payload_executionRule (handleConfig env test publicId config).1
  = getExecutionRule test config.
Proof.
  unfold handleConfig. destruct config as [config|]; [|done].
  destruct (config_is_empty config); [done|].
  destruct (_ && _); [|done].
  by destruct (parseUrlVariables env (request_url test)).
Qed.

(** What one lookup adds to the payloads, the waited tests and the count
    of skipped tests. *)
Lemma lookup_one_adds (getTest : string → BackendError + InternalTest)
    (env : list (string * string)) (st st' : Lookups) (tc : TriggerConfig) :
  lookup_one getTest env st tc = Return st' →
  let found := option_list (resolved getTest env tc) in
  overriddenTestsToTrigger st' = overriddenTestsToTrigger st ++ found.*1
  ∧ omap (fun o => o) (tests st')
    = omap (fun o => o) (tests st) ++ (filter (fun r => is_skipped r = false) found).*2
  ∧ skipped (summary st')
    = skipped (summary st) + Z.of_nat (length (filter (fun r => is_skipped r = true) found)).
Proof.
  unfold lookup_one, resolved.
  destruct (getTest (normalize_id (tc_id tc))) as [e|fetched].
  - destruct (_ && _); [|done]. intros [= <-]. cbn.
    rewrite omap_app, !app_nil_r. split_and!; [done..|lia].
  - destruct (handleConfig _ _ _ _) as [payload handleCalls] eqn:Hh. cbn [fst].
    unfold is_skipped.
    destruct (bool_decide (payload_executionRule payload = SKIPPED)) eqn:Hs;
      intros [= <-]; cbn [overriddenTestsToTrigger tests summary skipped option_list];
      rewrite omap_app, !option_list_Some;
      rewrite !filter_cons, !filter_nil; cbn [fst snd]; rewrite Hs;
      repeat case_decide; try done; cbn; rewrite ?app_nil_r; split_and!; done || lia.
Qed.

Lemma lookup_all_adds (getTest : string → BackendError + InternalTest)
    (env : list (string * string)) (triggerConfigs : list TriggerConfig) (st st' : Lookups) :
  lookup_all getTest env st triggerConfigs = Return st' →
  let found := omap (resolved getTest env) triggerConfigs in
  overriddenTestsToTrigger st' = overriddenTestsToTrigger st ++ found.*1
  ∧ omap (fun o => o) (tests st')
    = omap (fun o => o) (tests st) ++ (filter (fun r => is_skipped r = false) found).*2
  ∧ skipped (summary st')
    = skipped (summary st) + Z.of_nat (length (filter (fun r => is_skipped r = true) found)).
Proof.
  revert st. induction triggerConfigs as [|tc rest IH]; intros st; simpl.
  - intros [= <-]. rewrite !app_nil_r. split_and!; [done..|lia].
  - destruct (lookup_one getTest env st tc) as [st1|e] eqn:H1; [|done].
    intros Hrest. apply lookup_one_adds in H1 as (Hp1 & Ht1 & Hs1).
    apply IH in Hrest as (Hp & Ht & Hs).
    rewrite Hp, Ht, Hs, Hp1, Ht1, Hs1.
    destruct (resolved getTest env tc) as [r|];
      rewrite ?option_list_Some, ?option_list_None; cbn [omap list_omap].
    + rewrite !filter_cons, filter_nil.
      destruct (is_skipped r) eqn:Hr; repeat case_decide; try done;
        rewrite <- ?app_assoc, ?fmap_cons, ?app_nil_r, ?length_cons;
        (split_and!; [done..|simpl length; unfold omap; lia]).
    + rewrite ?filter_nil, ?fmap_nil, !app_nil_r.
      split_and!; [done..|simpl length; unfold omap; lia].
Qed.

(** Neither [parseUrlVariables] nor [handleConfig] calls [testWait]. *)
Lemma handleConfig_no_testWait (env : list (string * string)) (test : InternalTest)
    (publicId : string) (config : option ConfigOverride) :
  test_waits (handleConfig env test publicId config).2 = [].
Proof.
  unfold handleConfig. destruct config as [config|]; [|done].
  destruct (config_is_empty config); [done|].
  destruct (_ && _); [|done].
  destruct (parseUrlVariables env (request_url test)) as [context handleCalls] eqn:Hparse.
  cbn [snd]. unfold test_waits. rewrite omap_app.
  assert (handleCalls = (parseUrlVariables env (request_url test)).2) as ->
    by by rewrite Hparse.
  unfold parseUrlVariables, warnOnReservedEnvVarNames.
  destruct (newURL _); cbn [snd]; repeat case_bool_decide; by destruct (existsb _ _).
Qed.

(** What one lookup adds to the calls of [testWait]. *)
Lemma lookup_one_waits (getTest : string → BackendError + InternalTest)
    (env : list (string * string)) (st st' : Lookups) (tc : TriggerConfig) :
  lookup_one getTest env st tc = Return st' →
  test_waits (calls st')
  = test_waits (calls st)
    ++ (filter (fun r => is_skipped r = false) (option_list (resolved getTest env tc))).*2.
Proof.
  unfold lookup_one, resolved.
  destruct (getTest (normalize_id (tc_id tc))) as [e|fetched].
  - destruct (_ && _); [|done]. intros [= <-]. cbn. by rewrite app_nil_r.
  - pose proof (handleConfig_no_testWait env
                  {| request_url := request_url fetched; options := options fetched;
                     type := type fetched; subtype := subtype fetched; suite := tc_suite tc |}
                  (normalize_id (tc_id tc)) (Some (tc_config tc))) as Hquiet.
    destruct (handleConfig _ _ _ _) as [payload handleCalls] eqn:Hh. cbn [fst snd] in *.
    unfold is_skipped.
    destruct (bool_decide (payload_executionRule payload = SKIPPED)) eqn:Hs;
      intros [= <-]; cbn [calls]; unfold test_waits in *;
      rewrite !omap_app, Hquiet, option_list_Some, filter_cons, filter_nil;
      cbn [fst snd]; rewrite Hs; repeat case_decide; try done; cbn; by rewrite ?app_nil_r.
Qed.

Lemma lookup_all_waits (getTest : string → BackendError + InternalTest)
    (env : list (string * string)) (triggerConfigs : list TriggerConfig) (st st' : Lookups) :
  lookup_all getTest env st triggerConfigs = Return st' →
  test_waits (calls st')
  = test_waits (calls st)
    ++ (filter (fun r => is_skipped r = false) (omap (resolved getTest env) triggerConfigs)).*2.
Proof.
  revert st. induction triggerConfigs as [|tc rest IH]; intros st; simpl.
  - intros [= <-]. by rewrite app_nil_r.
  - destruct (lookup_one getTest env st tc) as [st1|e] eqn:H1; [|done].
    intros Hrest. apply lookup_one_waits in H1. apply IH in Hrest.
    rewrite Hrest, H1, <- app_assoc. f_equal.
    destruct (resolved getTest env tc) as [r|];
      rewrite ?option_list_Some, ?option_list_None; cbn [omap list_omap]; [|done].
    rewrite !filter_cons, filter_nil. by case_decide.
Qed.

(** C4, as the code has it: the payloads that [getTestsToTrigger] returns
    are those of the tests that the backend knows, each with the resolved
    rule, a skipped test included, and [runTests] sends a request with
    exactly that list to a backend that accepts it; the tests returned
    for waiting, in the order of the configs, and the tests handed to
    [testWait] are the tests that are not skipped, and the counter of
    skipped tests is the number of the skipped ones.  The order of the
    payloads and of the [testWait] calls is that of the lookups'
    completion, and is left open. *)
Theorem getTestsToTrigger_keeps_skipped_payloads {Metadata : Type} (ciMetadata : Metadata)
    (getTest : string → BackendError + InternalTest) (env : list (string * string))
    (ciTriggerApp : string) (triggerConfigs : list TriggerConfig)
    (toTrigger : TestsToTrigger) (reported : list ReporterCall) :
  getTestsToTrigger getTest env triggerConfigs = Return (toTrigger, reported) →
  let found := omap (resolved getTest env) triggerConfigs in
  ttt_overriddenTestsToTrigger toTrigger ≡ₚ found.*1
  ∧ (∀ tc payload test,
       tc ∈ triggerConfigs →
       resolved getTest env tc = Some (payload, test) →
       payload ∈ ttt_overriddenTestsToTrigger toTrigger
       ∧ payload_executionRule payload = getExecutionRule test (Some (tc_config tc)))
  ∧ (∀ (triggerTests : Payload → BackendError + Trigger) (trigger : Trigger),
       (∀ body, payload_tests body = ttt_overriddenTestsToTrigger toTrigger →
                triggerTests body = inr trigger) →
       runTests ciMetadata triggerTests ciTriggerApp (ttt_overriddenTestsToTrigger toTrigger)
       = Return trigger)
  ∧ ttt_tests toTrigger = (filter (fun r => is_skipped r = false) found).*2
  ∧ test_waits reported ≡ₚ (filter (fun r => is_skipped r = false) found).*2
  ∧ skipped (ttt_summary toTrigger)
    = Z.of_nat (length (filter (fun r => is_skipped r = true) found)).
Proof.
  intros Hrun found.
  assert (Hall : ttt_overriddenTestsToTrigger toTrigger = found.*1
                 ∧ ttt_tests toTrigger = (filter (fun r => is_skipped r = false) found).*2
                 ∧ test_waits reported = (filter (fun r => is_skipped r = false) found).*2
                 ∧ skipped (ttt_summary toTrigger)
                   = Z.of_nat (length (filter (fun r => is_skipped r = true) found))).
  { unfold getTestsToTrigger in Hrun.
    destruct (lookup_all _ _ _ _) as [st|e] eqn:Hl; [|done].
    pose proof (lookup_all_waits _ _ _ _ _ Hl) as Hw.
    apply lookup_all_adds in Hl as (Hp & Ht & Hs). cbn in Hp, Ht, Hs, Hw.
    destruct (overriddenTestsToTrigger st) as [|p ps] eqn:Hov; [done|].
    injection Hrun as <- <-. cbn [ttt_overriddenTestsToTrigger ttt_tests ttt_summary].
    subst found. split_and!; [done|done| |lia].
    unfold test_waits in *. rewrite omap_app, Hw. cbn. by rewrite app_nil_r. }
  destruct Hall as (Hp & Ht & Hw & Hs).
  split_and!; try done.
  - by rewrite Hp.
  - intros tc payload test Htc Hres. split.
    + rewrite Hp. apply (list_elem_of_fmap_2 fst found (payload, test)).
      apply list_elem_of_omap. by exists tc.
    + unfold resolved in Hres.
      destruct (getTest (normalize_id (tc_id tc))) as [e|fetched]; [done|].
      injection Hres as <- <-.
      exact (handleConfig_executionRule env _ (normalize_id (tc_id tc)) (Some (tc_config tc))).
  - intros triggerTests trigger Haccepts. unfold runTests.
    by rewrite (Haccepts (runTests_payload ciMetadata ciTriggerApp _) eq_refl).
  - by rewrite Hw.
Qed.
End TriggerPath.

(** A single test, skipped by its own options, goes through the path:
    the backend receives its payload. *)
Lemma getTestsToTrigger_keeps_skipped_payloads_witness :
  runTests (H := sample_api) tt echo_backend "npm_package"
    [sample_payload "abc-def-ghi" SKIPPED]
  = Return {| trigger_results := [sample_response "abc-def-ghi" "r-abc-def-ghi"] |}.
Proof.
  apply (proj1 (proj2 (proj2 (getTestsToTrigger_keeps_skipped_payloads
                                (H := sample_runtime) (H0 := sample_api) tt sample_getTest []
                                "npm_package" [sample_trigger_config "abc-def-ghi"]
                                {| ttt_tests := [];
                                   ttt_overriddenTestsToTrigger :=
                                     [sample_payload "abc-def-ghi" SKIPPED];
                                   ttt_summary :=
                                     {| criticalErrors := 0; failed := 0; summary_passed := 0;
                                        skipped := 1; testsNotFound := ∅; timedOut := 0 |} |}
                                _ eq_refl)))
           echo_backend).
  intros body Hbody. unfold echo_backend. by rewrite Hbody.
Defined.

(** C4, as stated, fails: the payload of a skipped test is returned and
    [runTests] submits it; the test is counted as skipped, and neither
    returned for waiting nor handed to [testWait]. *)
Lemma getTestsToTrigger_submits_skipped_test :
  getExecutionRule (sample_test (Some SKIPPED)) (Some (sample_config None)) = SKIPPED
  ∧ (match getTestsToTrigger (R := sample_runtime) (H := sample_api) sample_getTest []
             [sample_trigger_config "abc-def-ghi"] with
     | Return (toTrigger, reported) =>
         Some (ttt_overriddenTestsToTrigger toTrigger,
               runTests (H := sample_api) tt echo_backend "npm_package"
                 (ttt_overriddenTestsToTrigger toTrigger),
               ttt_tests toTrigger, test_waits reported, skipped (ttt_summary toTrigger))
     | Throw _ => None
     end)
    = Some ([sample_payload "abc-def-ghi" SKIPPED],
            Return {| trigger_results := [sample_response "abc-def-ghi" "r-abc-def-ghi"] |},
            [], [], 1).
Proof. split; reflexivity. Qed.

(** ** Polling engine *)

(** *** The map of trigger results *)

Lemma map_set_fresh {V : Type} (key : string) (value : V) (m : list (string * V)) :
  key ∉ m.*1 → map_set key value m = m ++ [(key, value)].
Proof.
  induction m as [|[k v] m IH]; intros Hfresh; simpl; [done|].
  rewrite fmap_cons, not_elem_of_cons in Hfresh. destruct Hfresh as [Hk Hm].
  destruct (String.eqb_spec k key) as [->|_]; [done|].
  by rewrite IH.
Qed.

Lemma answers_keys (rs : list TriggerResponse) (store : list (string * TriggerResult)) :
  Forall2 answers rs store → store.*1 = tr_result_id <$> rs.
Proof.
  induction 1 as [|tr e rs store (Hk & _) _ IH]; [done|].
  rewrite !fmap_cons. by rewrite Hk, IH.
Qed.

Lemma createTriggerResultMap_answers (rs : list TriggerResponse) (defaultTimeout : Z)
    (triggerConfigs : list TriggerConfig) :
  NoDup (tr_result_id <$> rs) →
  Forall2 answers rs (createTriggerResultMap rs defaultTimeout triggerConfigs).
Proof.
  unfold createTriggerResultMap.
  generalize (foldl (fun (m : gmap string Z) trigger =>
                       <[tc_id trigger :=
                           default defaultTimeout (cfg_pollingTimeout (tc_config trigger))]> m)
                    ∅ triggerConfigs).
  intros timeoutByPublicId Hnodup.
  change rs with ([] ++ rs) at 1.
  assert (Hacc : Forall2 answers [] (@nil (string * TriggerResult))) by constructor.
  change rs with ([] ++ rs) in Hnodup.
  revert Hacc Hnodup.
  generalize (@nil (string * TriggerResult)) as acc.
  generalize (@nil TriggerResponse) as seen.
  induction rs as [|tr rs IH]; intros seen acc Hacc Hnodup; simpl.
  - by rewrite app_nil_r.
  - rewrite (cons_middle tr seen rs), app_assoc.
    apply IH; [|by rewrite <- app_assoc].
    rewrite map_set_fresh.
    + apply Forall2_app; [done|]. by repeat constructor.
    + rewrite (answers_keys _ _ Hacc).
      rewrite fmap_app, fmap_cons in Hnodup.
      apply NoDup_app in Hnodup as (_ & Hdisj & _).
      intros Hin. apply (Hdisj _ Hin). apply list_elem_of_here.
Qed.

(** *** What the loop preserves *)

Lemma fail_pending_answers (rs : list TriggerResponse) (cond : TriggerResult → bool)
    (errorMessage : string) (tunnel : bool) (store : list (string * TriggerResult)) :
  Forall2 answers rs store → Forall2 answers rs (fail_pending cond errorMessage tunnel store).
Proof.
  intros Hst. unfold fail_pending. apply Forall2_fmap_r.
  eapply Forall2_impl; [exact Hst|].
  intros tr [k e] (Hk & Hr & Hid). simpl in *.
  destruct (pending e && cond e); [|done].
  split_and!; [done..|].
  intros pr [= <-]. simpl. by rewrite Hr.
Qed.

Lemma map_update_answers (rs : list TriggerResponse) (pr : PollResult)
    (store : list (string * TriggerResult)) :
  Forall2 answers rs store →
  Forall2 answers rs (map_update (resultID pr) (set_result pr) store).
Proof.
  induction 1 as [|tr [k e] rs store (Hk & Hr & Hid) Hrest IH]; simpl; [constructor|].
  destruct (String.eqb_spec k (resultID pr)) as [Heq|_].
  - constructor; [|done]. simpl in *. split_and!; [done..|].
    intros pr' [= <-]. by rewrite <- Hk.
  - by constructor.
Qed.

Lemma attach_polled_answers (rs : list TriggerResponse) (polledResults : list PollResult)
    (store : list (string * TriggerResult)) :
  Forall2 answers rs store → Forall2 answers rs (attach_polled polledResults store).
Proof.
  unfold attach_polled. revert store.
  induction polledResults as [|pr prs IH]; intros store Hst; simpl; [done|].
  apply IH. destruct (String.eqb _ _); [|done]. by apply map_update_answers.
Qed.

Lemma fail_pending_timeouts (cond : TriggerResult → bool) (errorMessage : string)
    (tunnel : bool) (store : list (string * TriggerResult)) :
  timeouts (fail_pending cond errorMessage tunnel store) = timeouts store.
Proof.
  unfold timeouts, fail_pending. rewrite <- list_fmap_compose.
  apply list_fmap_ext. intros _ [k e] _. simpl. by destruct (pending e && cond e).
Qed.

Lemma map_update_timeouts (pr : PollResult) (store : list (string * TriggerResult)) :
  timeouts (map_update (resultID pr) (set_result pr) store) = timeouts store.
Proof.
  unfold timeouts. induction store as [|[k e] store IH]; simpl; [done|].
  destruct (String.eqb k (resultID pr)); simpl; [done|]. f_equal. exact IH.
Qed.

Lemma attach_polled_timeouts (polledResults : list PollResult)
    (store : list (string * TriggerResult)) :
  timeouts (attach_polled polledResults store) = timeouts store.
Proof.
  unfold attach_polled. revert store.
  induction polledResults as [|pr prs IH]; intros store; simpl; [done|].
  rewrite IH. destruct (String.eqb _ _); [|done]. apply map_update_timeouts.
Qed.

(** *** Pending trigger results *)

Lemma any_pending_false (store : list (string * TriggerResult)) :
  any_pending store = false ↔ Forall (fun entry => pending entry.2 = false) store.
Proof.
  unfold any_pending. rewrite bool_decide_eq_false.
  induction store as [|e store IH]; simpl.
  - split; [constructor|lia].
  - rewrite filter_cons, Forall_cons. destruct (pending e.2) eqn:Hp.
    + rewrite decide_True by done. simpl. split; [lia|]. by intros [? _].
    + rewrite decide_False by done. rewrite IH. split; [by split|by intros [_ ?]].
Qed.

Lemma fail_pending_settles (cond : TriggerResult → bool) (errorMessage : string)
    (tunnel : bool) (store : list (string * TriggerResult)) :
  Forall (fun entry => pending entry.2 = true → cond entry.2 = true) store →
  any_pending (fail_pending cond errorMessage tunnel store) = false.
Proof.
  intros Hall. apply any_pending_false. unfold fail_pending. apply Forall_fmap.
  eapply Forall_impl; [exact Hall|].
  intros [k e] Hc. simpl in *. destruct (pending e) eqn:Hp; simpl; [|done].
  by rewrite Hc.
Qed.

Lemma fail_pending_keeps_settled (cond : TriggerResult → bool) (errorMessage : string)
    (tunnel : bool) (store : list (string * TriggerResult)) :
  any_pending store = false →
  any_pending (fail_pending cond errorMessage tunnel store) = false.
Proof.
  rewrite !any_pending_false. intros Hall. unfold fail_pending. apply Forall_fmap.
  eapply Forall_impl; [exact Hall|].
  intros [k e] Hp. simpl in *. by rewrite Hp.
Qed.

Lemma foldl_max_ge (xs : list Z) (x : Z) :
  x ≤ foldl Z.max x xs ∧ Forall (fun y => y ≤ foldl Z.max x xs) xs.
Proof.
  revert x. induction xs as [|y xs IH]; intros x; simpl; [by split|].
  destruct (IH (Z.max x y)) as [Hx Hall].
  split; [lia|]. constructor; [lia|done].
Qed.

Lemma foldl_max_le (xs : list Z) (x d : Z) :
  x ≤ d → Forall (fun y => y ≤ d) xs → foldl Z.max x xs ≤ d.
Proof.
  revert x. induction xs as [|y xs IH]; intros x Hx Hall; simpl; [done|].
  apply Forall_cons in Hall as [Hy Hall]. apply IH; [lia|done].
Qed.

Lemma reached_max_of (d : Z) (xs : list Z) :
  reached d (max_of xs) = true ↔ Forall (fun x => x ≤ d) xs.
Proof.
  destruct xs as [|x xs]; simpl; [by split; [constructor|]|].
  rewrite Z.leb_le. split.
  - intros Hmax. destruct (foldl_max_ge xs x) as [Hx Hall].
    constructor; [lia|]. eapply Forall_impl; [exact Hall|]. simpl. lia.
  - intros [Hx Hall]%Forall_cons. by apply foldl_max_le.
Qed.

(** *** The loop *)

Section Loop.
Context `{ERRORS} `{ApiHelpers}.
Variable env : PollingEnv.
Variable pollingStartDate : Z.
Variable tunnel : bool.
Variable failOnCriticalErrors : option bool.
Variable maxPollingTimeout : option Z.

Local Abbreviation expired := (expire env pollingStartDate tunnel).
Local Abbreviation iteration :=
  (poll_iteration env pollingStartDate tunnel failOnCriticalErrors maxPollingTimeout).
Local Abbreviation loop :=
  (poll_loop env pollingStartDate tunnel failOnCriticalErrors maxPollingTimeout).

Lemma expire_answers (rs : list TriggerResponse) (i : nat)
    (store : list (string * TriggerResult)) :
  Forall2 answers rs store → Forall2 answers rs (expired i store).
Proof.
  intros Hst. unfold expire.
  destruct (tunnel && negb (isTunnelConnected env i)); by repeat apply fail_pending_answers.
Qed.

Lemma expire_timeouts (i : nat) (store : list (string * TriggerResult)) :
  timeouts (expired i store) = timeouts store.
Proof.
  unfold expire.
  destruct (tunnel && negb (isTunnelConnected env i)); by rewrite !fail_pending_timeouts.
Qed.

(** Past the longest timeout, nothing is left pending. *)
Lemma expire_reached (i : nat) (store : list (string * TriggerResult)) :
  reached (now env i - pollingStartDate) (max_of (timeouts store)) = true →
  any_pending (expired i store) = false.
Proof.
  rewrite reached_max_of. intros Hall. unfold expire.
  assert (any_pending
            (fail_pending (fun tr => pollingTimeout tr <=? now env i - pollingStartDate)
               TIMEOUT tunnel store) = false) as Hsettled.
  { apply fail_pending_settles. unfold timeouts in Hall. rewrite Forall_fmap in Hall.
    eapply Forall_impl; [exact Hall|]. simpl. intros e He _. by apply Z.leb_le. }
  destruct (tunnel && negb (isTunnelConnected env i)); [|done].
  by apply fail_pending_keeps_settled.
Qed.

(** One iteration keeps the responses and the timeouts of the store. *)
Lemma poll_iteration_keeps (rs : list TriggerResponse) (i : nat)
    (store : list (string * TriggerResult)) :
  Forall2 answers rs store →
  match iteration i store with
  | Continue store' | Break store' =>
      Forall2 answers rs store' ∧ timeouts store' = timeouts store
  | Abort _ => True
  end.
Proof.
  intros Hst. unfold poll_iteration.
  pose proof (expire_answers rs i store Hst) as He.
  pose proof (expire_timeouts i store) as Ht.
  destruct (reached _ _); [done|].
  destruct (pollResults env i _) as [e|polledResults].
  - destruct (is5xxError e && negb (truthy_bool failOnCriticalErrors)); [|done].
    assert (Forall2 answers rs (fail_pending (fun _ => true) ENDPOINT tunnel (expired i store))
            ∧ timeouts (fail_pending (fun _ => true) ENDPOINT tunnel (expired i store))
              = timeouts store) as Hkeep.
    { split; [by apply fail_pending_answers|by rewrite fail_pending_timeouts]. }
    simpl. by destruct (any_pending _).
  - assert (Forall2 answers rs (attach_polled polledResults (expired i store))
            ∧ timeouts (attach_polled polledResults (expired i store)) = timeouts store)
      as Hkeep.
    { split; [by apply attach_polled_answers|by rewrite attach_polled_timeouts]. }
    by destruct (any_pending _).
Qed.

(** An iteration that leaves the loop leaves nothing pending. *)
Lemma poll_iteration_break (i : nat) (store store' : list (string * TriggerResult)) :
  maxPollingTimeout = max_of (timeouts store) →
  iteration i store = Break store' →
  any_pending store' = false.
Proof.
  intros Hmax. unfold poll_iteration.
  destruct (reached _ _) eqn:Hreached.
  { intros [= <-]. apply expire_reached. by rewrite <- Hmax. }
  destruct (pollResults env i _) as [e|polledResults].
  - destruct (is5xxError e && negb (truthy_bool failOnCriticalErrors)); [|done].
    simpl. destruct (any_pending _) eqn:Hp; [done|]. by intros [= <-].
  - destruct (any_pending _) eqn:Hp; [done|]. by intros [= <-].
Qed.

(** When the loop is left normally, every trigger result has its result,
    and the store still answers the trigger responses. *)
Lemma poll_loop_returns (rs : list TriggerResponse) (fuel i : nat)
    (store store' : list (string * TriggerResult)) :
  maxPollingTimeout = max_of (timeouts store) →
  Forall2 answers rs store →
  loop fuel i store = Some (Return store') →
  Forall2 answers rs store' ∧ any_pending store' = false.
Proof.
  revert i store. induction fuel as [|fuel IH]; intros i store Hmax Hst; simpl.
  - destruct (any_pending store) eqn:Hp; [done|]. by intros [= <-].
  - destruct (any_pending store) eqn:Hp; [|by intros [= <-]].
    pose proof (poll_iteration_keeps rs i store Hst) as Hkeep.
    pose proof (poll_iteration_break i store) as Hbreak.
    destruct (iteration i store) as [next|last|e]; [| |done].
    + destruct Hkeep as [Hnext Ht]. apply IH; [by rewrite Ht|done].
    + intros [= <-]. destruct Hkeep as [Hlast _]. split; [done|]. by apply Hbreak.
Qed.

(** An iteration aborts only by throwing again the error of its poll, one
    that is not a 5xx error to be swallowed. *)
Lemma poll_iteration_abort (i : nat) (store : list (string * TriggerResult)) (ex : Exception) :
  iteration i store = Abort ex →
  ∃ e, pollResults env i (pending_ids (expired i store)) = inl e
       ∧ is5xxError e && negb (truthy_bool failOnCriticalErrors) = false
       ∧ ex = Rethrown e.
Proof.
  unfold poll_iteration.
  destruct (reached _ _); [done|].
  destruct (pollResults env i _) as [e|polledResults].
  - destruct (is5xxError e && negb (truthy_bool failOnCriticalErrors)) eqn:Hswallow.
    + simpl. by destruct (any_pending _).
    + intros [= <-]. by exists e.
  - by destruct (any_pending _).
Qed.

(** Once the clock has passed the longest timeout the loop has ended:
    normally, or on the error of a poll made before that. *)
Lemma poll_loop_settles (k i : nat) (store : list (string * TriggerResult)) :
  maxPollingTimeout = max_of (timeouts store) →
  Forall (fun t => t ≤ now env (i + k) - pollingStartDate) (timeouts store) →
  (∃ store', loop (S k) i store = Some (Return store'))
  ∨ (∃ j ids e,
       (i ≤ j < i + k)%nat
       ∧ pollResults env j ids = inl e
       ∧ is5xxError e && negb (truthy_bool failOnCriticalErrors) = false
       ∧ loop (S k) i store = Some (Throw (Rethrown e))).
Proof.
  revert i store. induction k as [|k IH]; intros i store Hmax Hclock.
  - left. simpl. destruct (any_pending store); [|by eexists].
    unfold poll_iteration.
    rewrite Nat.add_0_r in Hclock. apply reached_max_of in Hclock.
    rewrite Hmax, Hclock. by eexists.
  - change (loop (S (S k)) i store)
      with (if any_pending store
            then match iteration i store with
                 | Continue store' => loop (S k) (S i) store'
                 | Break store' => Some (Return store')
                 | Abort e => Some (Throw e)
                 end
            else Some (Return store)).
    destruct (any_pending store); [|left; by eexists].
    destruct (iteration i store) as [next|last|ex] eqn:Hit; [|left; by eexists|].
    + assert (timeouts next = timeouts store) as Ht.
      { unfold poll_iteration in Hit.
        destruct (reached _ _); [done|].
        destruct (pollResults env i _) as [e|polledResults].
        - destruct (is5xxError e && negb (truthy_bool failOnCriticalErrors)); [|done].
          simpl in Hit. destruct (any_pending _); [|done].
          injection Hit as <-. by rewrite fail_pending_timeouts, expire_timeouts.
        - destruct (any_pending _); [|done].
          injection Hit as <-. by rewrite attach_polled_timeouts, expire_timeouts. }
      destruct (IH (S i) next) as [Hreturn|(j & ids & e & Hj & Hpoll & Hkept & Hthrow)].
      * by rewrite Ht.
      * rewrite Ht. by replace (S i + k)%nat with (i + S k)%nat by lia.
      * by left.
      * right. exists j, ids, e. split_and!; [lia|lia|done..].
    + right. apply poll_iteration_abort in Hit as (e & Hpoll & Hkept & ->).
      exists i, (pending_ids (expired i store)), e. split_and!; [lia|lia|done..].
Qed.
End Loop.

(** *** The bundle *)

Lemma bundle_results_lookup (store : list (string * TriggerResult))
    (acc : gmap string (list (option PollResult))) (p : string) :
  foldl (fun resultsByPublicId entry =>
           <[tr_public_id (trr_response entry.2) :=
               default [] (resultsByPublicId !! tr_public_id (trr_response entry.2))
               ++ [trr_result entry.2]]> resultsByPublicId)
        acc store !! p
  = match filter (fun entry => tr_public_id (trr_response entry.2) = p) store with
    | [] => acc !! p
    | entries => Some (default [] (acc !! p) ++ ((fun entry => trr_result entry.2) <$> entries))
    end.
Proof.
  revert acc. induction store as [|e store IH]; intros acc; simpl; [done|].
  rewrite IH, filter_cons.
  destruct (decide (tr_public_id (trr_response e.2) = p)) as [<-|Hne].
  - rewrite lookup_insert_eq. simpl.
    destruct (filter _ store) as [|e' es]; [done|].
    by rewrite <- app_assoc.
  - by rewrite lookup_insert_ne.
Qed.

Lemma answers_filter (rs : list TriggerResponse) (store : list (string * TriggerResult))
    (p : string) :
  Forall2 answers rs store →
  Forall2 answers (filter (fun tr => tr_public_id tr = p) rs)
          (filter (fun entry => tr_public_id (trr_response entry.2) = p) store).
Proof.
  induction 1 as [|tr e rs store Ha _ IH]; [constructor|].
  rewrite !filter_cons. destruct Ha as (Hk & Hr & Hid).
  rewrite Hr. destruct (decide (tr_public_id tr = p)); [|done].
  constructor; [|done]. by split_and!.
Qed.

Lemma answers_results (rs : list TriggerResponse) (entries : list (string * TriggerResult)) :
  Forall2 answers rs entries →
  Forall (fun entry => pending entry.2 = false) entries →
  Forall2 result_of rs ((fun entry => trr_result entry.2) <$> entries).
Proof.
  induction 1 as [|tr e rs entries (_ & _ & Hid) _ IH]; [constructor|].
  intros [Hp Hrest]%Forall_cons. rewrite fmap_cons. constructor; [|by apply IH].
  unfold pending in Hp. destruct (trr_result e.2) as [pr|]; [|done].
  exists pr. split; [done|]. by apply Hid.
Qed.

Section Results.
Context `{ERRORS} `{ApiHelpers}.

(** C1, as the code has it: for trigger responses with distinct result
    ids, once the clock has passed every timeout [waitForResults] has
    returned a mapping, unless it has thrown again the error of a poll
    made before that, an error that is not a 5xx error to be swallowed;
    and a mapping it returns holds, under each public id, one result per
    trigger response of that public id, in the order of the responses,
    each with the result id of its response. *)
Theorem waitForResults_one_result_per_response (env : PollingEnv) (pollingStartDate : Z)
    (triggerResponses : list TriggerResponse) (defaultTimeout : Z)
    (triggerConfigs : list TriggerConfig) (tunnel : bool) (failOnCriticalErrors : option bool) :
  NoDup (tr_result_id <$> triggerResponses) →
  (∀ n,
     Forall (fun t => t ≤ now env n - pollingStartDate)
            (timeouts (createTriggerResultMap triggerResponses defaultTimeout triggerConfigs)) →
     (∃ out, waitForResults env pollingStartDate (S n) triggerResponses defaultTimeout
               triggerConfigs tunnel failOnCriticalErrors = Some (Return out))
     ∨ (∃ i resultIds e,
          (i < n)%nat
          ∧ pollResults env i resultIds = inl e
          ∧ is5xxError e && negb (truthy_bool failOnCriticalErrors) = false
          ∧ waitForResults env pollingStartDate (S n) triggerResponses defaultTimeout
              triggerConfigs tunnel failOnCriticalErrors = Some (Throw (Rethrown e))))
  ∧ (∀ fuel out,
       waitForResults env pollingStartDate fuel triggerResponses defaultTimeout
         triggerConfigs tunnel failOnCriticalErrors = Some (Return out) →
       ∀ p,
         let responses := filter (fun tr => tr_public_id tr = p) triggerResponses in
         Forall2 result_of responses (default [] (out !! p))
         ∧ (out !! p = None ↔ responses = [])).
Proof.
  intros Hnodup. unfold waitForResults. split.
  - intros n Hclock.
    destruct (poll_loop_settles env pollingStartDate tunnel failOnCriticalErrors _ n 0
                (createTriggerResultMap triggerResponses defaultTimeout triggerConfigs)
                eq_refl Hclock) as [[store Hc]|(i & ids & e & Hi & Hpoll & Hkept & Hc)];
      unfold timeouts in Hc; rewrite Hc.
    + left. by eexists.
    + right. exists i, ids, e. split_and!; [lia|done..].
  - intros fuel out Hrun p.
    set (responses := filter (fun tr => tr_public_id tr = p) triggerResponses).
    destruct (poll_loop _ _ _ _ _ _ _ _) as [[store|e]|] eqn:Hloop; [|done..].
    injection Hrun as <-.
    apply (poll_loop_returns env pollingStartDate tunnel failOnCriticalErrors _
             triggerResponses) in Hloop as [Hanswers Hsettled];
      [|done|by apply createTriggerResultMap_answers].
    apply any_pending_false in Hsettled.
    unfold bundle_results. rewrite bundle_results_lookup, lookup_empty.
    pose proof (answers_filter _ _ p Hanswers) as Hp. fold responses in Hp.
    assert (Forall (fun entry : string * TriggerResult => pending entry.2 = false)
                   (filter (fun entry => tr_public_id (trr_response entry.2) = p) store))
      as Hdone.
    { apply Forall_forall. intros e [_ He]%list_elem_of_filter.
      by apply (proj1 (Forall_forall _ _) Hsettled). }
    pose proof (answers_results _ _ Hp Hdone) as Hresults.
    destruct Hp as [|tr e responses' entries Ha Hrest]; simpl; [by split|].
    split; [exact Hresults|by split].
Qed.

(** C5: a poll that fails.  A 5xx failure, when critical errors are not
    to fail the run, gives every trigger result still pending a result
    synthesised with the error ENDPOINT and leaves the others as they
    are, and the loop is left normally; any other failure, or a 5xx one
    when critical errors fail the run, is thrown again as it is. *)
Theorem poll_failure_handling (env : PollingEnv) (pollingStartDate : Z) (tunnel : bool)
    (failOnCriticalErrors : option bool) (maxPollingTimeout : option Z) (i : nat)
    (store : list (string * TriggerResult)) (e : BackendError) :
  let ready := expire env pollingStartDate tunnel i store in
  let failed := fail_pending (fun _ => true) ENDPOINT tunnel ready in
  any_pending store = true →
  reached (now env i - pollingStartDate) maxPollingTimeout = false →
  pollResults env i (pending_ids ready) = inl e →
  (is5xxError e = true → truthy_bool failOnCriticalErrors = false →
   (∀ fuel, poll_loop env pollingStartDate tunnel failOnCriticalErrors maxPollingTimeout
              (S fuel) i store = Some (Return failed))
   ∧ Forall2 (fun before after =>
                after.1 = before.1
                ∧ trr_response after.2 = trr_response before.2
                ∧ match trr_result before.2 with
                  | Some pr => trr_result after.2 = Some pr
                  | None =>
                      ∃ pr, trr_result after.2 = Some pr
                            ∧ synthesised ENDPOINT (trr_response before.2) pr
                  end)
             ready failed)
  ∧ (is5xxError e = false ∨ truthy_bool failOnCriticalErrors = true →
     ∀ fuel, poll_loop env pollingStartDate tunnel failOnCriticalErrors maxPollingTimeout
               (S fuel) i store = Some (Throw (Rethrown e))).
Proof.
  intros ready failed Hpending Hreached Hpoll. split.
  - intros H5xx Hfoc. split.
    + intros fuel. simpl. rewrite Hpending. unfold poll_iteration.
      fold ready. rewrite Hreached, Hpoll, H5xx, Hfoc. simpl. fold failed.
      assert (any_pending failed = false) as ->; [|done].
      apply fail_pending_settles. by apply Forall_forall.
    + unfold failed, fail_pending. apply Forall2_fmap_r, Forall_Forall2_diag.
      apply Forall_forall. intros [k tr] _. simpl.
      unfold pending. destruct (trr_result tr) as [pr|] eqn:Hr; simpl; [by rewrite Hr|].
      split_and!; [done..|]. eexists. split; [done|]. by split_and!.
  - intros Hother fuel. simpl. rewrite Hpending. unfold poll_iteration.
    fold ready. rewrite Hreached, Hpoll.
    assert (is5xxError e && negb (truthy_bool failOnCriticalErrors) = false) as ->; [|done].
    destruct Hother as [->| ->]; [done|]. by rewrite andb_false_r.
Qed.
End Results.

(** The run of the sample backend: the first poll brings [r1], the second
    one fails with a 502 that is swallowed. *)
Lemma waitForResults_one_result_per_response_witness :
  ∃ out,
    waitForResults (E := sample_errors) (H := sample_api) sample_polling_env 0 5
      sample_responses 60000 [] false (Some false) = Some (Return out)
    ∧ Forall2 result_of
        [sample_response "aaa-aaa-aaa" "r1"; sample_response "aaa-aaa-aaa" "r3"]
        (default [] (out !! "aaa-aaa-aaa")).
Proof.
  eexists. split; [reflexivity|].
  apply (proj2 (waitForResults_one_result_per_response
                  (H := sample_errors) (H0 := sample_api) sample_polling_env 0
                  sample_responses 60000 [] false (Some false) ltac:(compute_done))
           5%nat _ eq_refl "aaa-aaa-aaa").
Defined.

(** C1, as stated, fails when two trigger responses share a result id:
    the map of trigger results keeps one entry for both, and the mapping
    returned holds one result, under the public id of the second. *)
Lemma waitForResults_shared_result_id :
  match waitForResults (E := sample_errors) (H := sample_api) steady_polling_env 0 3
          [sample_response "aaa-aaa-aaa" "r1"; sample_response "bbb-bbb-bbb" "r1"]
          60000 [] false (Some false) with
  | Some (Return out) => Some (out !! "aaa-aaa-aaa", out !! "bbb-bbb-bbb")
  | _ => None
  end = Some (None, Some [Some (sample_poll_result "r1")]).
Proof. reflexivity. Qed.

(** A 502 on the first poll, swallowed. *)
Lemma poll_failure_handling_witness :
  poll_loop (E := sample_errors) (H := sample_api) failing_polling_env 0 false (Some false)
    (Some 60000) 1 0 (createTriggerResultMap sample_responses 60000 [])
  = Some (Return
            (fail_pending (fun _ => true) (ENDPOINT (ERRORS := sample_errors)) false
               (expire (E := sample_errors) failing_polling_env 0 false 0
                  (createTriggerResultMap sample_responses 60000 [])))).
Proof.
  apply (proj1 (proj1 (poll_failure_handling (H := sample_errors) (H0 := sample_api)
                         failing_polling_env 0 false (Some false) (Some 60000) 0
                         (createTriggerResultMap sample_responses 60000 []) bad_gateway
                         eq_refl eq_refl eq_refl)
                 eq_refl eq_refl)).
Defined.

(** * Further properties *)

(** * Further properties *)

(** ** Result classifier, over the results of a test *)

Lemma hasResultPassed_relax `{ERRORS} (r : Result) (foc fot foc' fot' : bool) :
  (foc' = true → foc = true) →
  (fot' = true → fot = true) →
  hasResultPassed r foc fot = true →
  hasResultPassed r foc' fot' = true.
Proof.
  intros Hc Ht. unfold hasResultPassed.
  destruct (isCriticalError r), (strict_eq (error r) TIMEOUT), foc, fot, foc', fot';
    simpl; try done; try (by specialize (Hc eq_refl)); by specialize (Ht eq_refl).
Qed.

(** X1: a test that succeeds under some policy flags still succeeds when
    flags are turned off: relaxing [failOnCriticalErrors] or
    [failOnTimeout] never makes [hasTestSucceeded] fail. *)
Theorem hasTestSucceeded_relax `{ERRORS} (results : list PollResult)
    (foc fot foc' fot' : bool) :
  (foc' = true → foc = true) →
  (fot' = true → fot = true) →
  hasTestSucceeded results foc fot = true →
  hasTestSucceeded results foc' fot' = true.
Proof.
  intros Hc Ht. unfold hasTestSucceeded. rewrite !forallb_forall.
  intros Hall pr Hin. eapply hasResultPassed_relax; [exact Hc|exact Ht|].
  by apply Hall.
Qed.

Lemma hasTestSucceeded_relax_witness :
  hasTestSucceeded (E := sample_errors)
    [sample_poll_result "r1";
     createFailingResult (TIMEOUT (ERRORS := sample_errors)) "r2" "chrome" 1 false]
    true false = true.
Proof.
  apply (hasTestSucceeded_relax (H := sample_errors) _ true false true false);
    [done|done|reflexivity].
Defined.

Lemma strict_eq_Some_ne (a b : string) : a ≠ b → strict_eq (Some a) b = false.
Proof. intros Hne. simpl. by apply String.eqb_neq. Qed.

(** X2: how the classifier reads the results that the polling loop
    synthesises, the three error names being distinct: a timeout passes
    exactly when timeouts do not fail the run, an endpoint failure passes
    exactly when critical errors do not fail the run, and a tunnel
    failure never passes. *)
Theorem hasResultPassed_synthesised `{ERRORS} (resultId deviceId : string) (dcId : Z)
    (tunnel foc fot : bool) :
  ENDPOINT ≠ TIMEOUT → TUNNEL ≠ ENDPOINT → TUNNEL ≠ TIMEOUT →
  hasResultPassed (result (createFailingResult TIMEOUT resultId deviceId dcId tunnel)) foc fot
  = negb fot
  ∧ hasResultPassed (result (createFailingResult ENDPOINT resultId deviceId dcId tunnel)) foc fot
    = negb foc
  ∧ hasResultPassed (result (createFailingResult TUNNEL resultId deviceId dcId tunnel)) foc fot
    = false.
Proof.
  intros Het Hue Hut. unfold hasResultPassed, isCriticalError. cbn [result createFailingResult
    error unhealthy passed truthy_bool orb].
  rewrite (strict_eq_Some_ne TIMEOUT ENDPOINT) by done.
  rewrite (strict_eq_Some_ne TUNNEL ENDPOINT), (strict_eq_Some_ne TUNNEL TIMEOUT) by done.
  rewrite (strict_eq_Some_ne ENDPOINT TIMEOUT) by done.
  assert (∀ s, strict_eq (Some s) s = true) as Hrefl by (intros s; apply String.eqb_refl).
  rewrite !Hrefl. by destruct foc, fot.
Qed.

Lemma hasResultPassed_synthesised_witness :
  hasResultPassed (E := sample_errors)
    (result (createFailingResult "Tunnel Failure" "r1" "chrome" 1 true)) false false
  = false.
Proof.
  apply (hasResultPassed_synthesised (H := sample_errors) "r1" "chrome" 1 true false false);
    discriminate.
Defined.

(** ** Test identifiers *)

Lemma includes_char_cons (c a : ascii) (s : string) :
  includes (String c EmptyString) (String a s)
  = Ascii.eqb a c || includes (String c EmptyString) s.
Proof.
  cbn [includes String.prefix].
  destruct (ascii_dec c a) as [<-|Hne].
  - rewrite Ascii.eqb_refl. by destruct s.
  - rewrite (proj2 (Ascii.eqb_neq a c)) by congruence. done.
Qed.

Lemma includes_slash_cons (c : ascii) (s : string) :
  includes "/" (String c s) = Ascii.eqb c "/" || includes "/" s.
Proof. apply includes_char_cons. Qed.

Lemma includes_char_app (c : ascii) (a b : string) :
  includes (String c EmptyString) (a +:+ b)
  = includes (String c EmptyString) a || includes (String c EmptyString) b.
Proof.
  induction a as [|x a IH].
  - rewrite string_app_nil_l. done.
  - rewrite string_app_cons, !includes_char_cons, IH. by rewrite orb_assoc.
Qed.

Lemma includes_slash_app (a b : string) :
  includes "/" (a +:+ b) = includes "/" a || includes "/" b.
Proof. apply includes_char_app. Qed.

Lemma after_last_slash_no_slash (s : string) :
  includes "/" (after_last_slash s) = false.
Proof.
  induction s as [|c s IH]; [done|].
  cbn [after_last_slash].
  destruct (includes "/" s) eqn:Hs; [done|].
  destruct (Ascii.eqb c "/") eqn:Hc; [done|].
  by rewrite includes_slash_cons, Hc, Hs.
Qed.

Lemma after_last_slash_id (s : string) :
  includes "/" s = false → after_last_slash s = s.
Proof.
  destruct s as [|c s]; [done|].
  rewrite includes_slash_cons. intros [Hc Hs]%orb_false_iff.
  cbn [after_last_slash]. by rewrite Hs, Hc.
Qed.

Lemma after_last_slash_app (pre s : string) :
  includes "/" s = false → after_last_slash (pre +:+ "/" +:+ s) = s.
Proof.
  intros Hs. induction pre as [|c pre IH].
  - rewrite string_app_nil_l.
    change ("/" +:+ s) with (String "/" s). cbn [after_last_slash]. by rewrite Hs.
  - rewrite string_app_cons. cbn [after_last_slash].
    rewrite includes_slash_app.
    change ("/" +:+ s) with (String "/" s). rewrite (includes_slash_cons "/" s).
    cbn [Ascii.eqb]. change (Ascii.eqb "/" "/") with true.
    rewrite orb_true_r. exact IH.
Qed.

Lemma is_word_not_slash (c : ascii) : is_word c = true → Ascii.eqb c "/" = false.
Proof. destruct (Ascii.eqb_spec c "/") as [->|]; [done|done]. Qed.

Lemma is_word_or_dash_not_slash (c : ascii) :
  Ascii.eqb c "-" = true → Ascii.eqb c "/" = false.
Proof. intros ->%Ascii.eqb_eq. done. Qed.

(** What [PUBLIC_ID_REGEX] accepts: three groups of three word characters,
    with a dash between them. *)
Lemma PUBLIC_ID_REGEX_test_shape (s : string) :
  PUBLIC_ID_REGEX_test s = true →
  ∃ a1 a2 a3 b1 b2 b3 c1 c2 c3,
    s = String a1 (String a2 (String a3 (String "-" (String b1 (String b2 (String b3
          (String "-" (String c1 (String c2 (String c3 EmptyString))))))))))
    ∧ forallb is_word [a1; a2; a3; b1; b2; b3; c1; c2; c3] = true.
Proof.
  intros Hs.
  destruct s as [|a1 [|a2 [|a3 [|d1 s]]]]; try discriminate Hs.
  destruct d1 as [[] [] [] [] [] [] [] []]; try discriminate Hs.
  destruct s as [|b1 [|b2 [|b3 [|d2 s]]]]; try discriminate Hs.
  destruct d2 as [[] [] [] [] [] [] [] []]; try discriminate Hs.
  destruct s as [|c1 [|c2 [|c3 [|x s]]]]; try discriminate Hs.
  by exists a1, a2, a3, b1, b2, b3, c1, c2, c3.
Qed.

Lemma PUBLIC_ID_REGEX_no_slash (s : string) :
  PUBLIC_ID_REGEX_test s = true → includes "/" s = false.
Proof.
  intros (a1 & a2 & a3 & b1 & b2 & b3 & c1 & c2 & c3 & -> & Hw)%PUBLIC_ID_REGEX_test_shape.
  cbn [forallb] in Hw. repeat (apply andb_true_iff in Hw as [?%is_word_not_slash Hw]).
  rewrite !includes_slash_cons.
  repeat match goal with H : Ascii.eqb _ "/" = false |- _ => rewrite H; clear H end.
  done.
Qed.

(** X3: an identifier given with a prefix ending in a slash, such as the
    URL of the test, is normalised to the identifier itself. *)
Theorem normalize_id_strips_prefix (pre id : string) :
  PUBLIC_ID_REGEX_test id = true →
  normalize_id id = id ∧ normalize_id (pre +:+ "/" +:+ id) = id.
Proof.
  intros Hid. unfold normalize_id. rewrite Hid. split; [done|].
  pose proof (PUBLIC_ID_REGEX_no_slash id Hid) as Hns.
  destruct (PUBLIC_ID_REGEX_test (pre +:+ "/" +:+ id)) eqn:Hfull.
  - apply PUBLIC_ID_REGEX_no_slash in Hfull.
    rewrite includes_slash_app in Hfull.
    change ("/" +:+ id) with (String "/" id) in Hfull.
    rewrite (includes_slash_cons "/" id) in Hfull.
    change (Ascii.eqb "/" "/") with true in Hfull.
    by rewrite orb_true_r in Hfull.
  - by apply after_last_slash_app.
Qed.

Lemma normalize_id_strips_prefix_witness :
  normalize_id "https://app.datadoghq.com/synthetics/details/abc-def-ghi" = "abc-def-ghi".
Proof.
  apply (proj2 (normalize_id_strips_prefix "https://app.datadoghq.com/synthetics/details"
                  "abc-def-ghi" eq_refl)).
Defined.

(** X4: a normalised identifier holds no slash, and normalising it again
    changes nothing. *)
Theorem normalize_id_idempotent (id : string) :
  includes "/" (normalize_id id) = false
  ∧ normalize_id (normalize_id id) = normalize_id id.
Proof.
  assert (Hns : includes "/" (normalize_id id) = false).
  { unfold normalize_id. destruct (PUBLIC_ID_REGEX_test id) eqn:Hid.
    - by apply PUBLIC_ID_REGEX_no_slash.
    - apply after_last_slash_no_slash. }
  split; [done|].
  unfold normalize_id at 1.
  destruct (PUBLIC_ID_REGEX_test (normalize_id id)); [done|].
  by apply after_last_slash_id.
Qed.

(** ** Variables given on the command line *)

Lemma indexOf_app (c : ascii) (k rest : string) :
  indexOf c k = None → indexOf c (k +:+ String c rest) = Some (String.length k).
Proof.
  induction k as [|a k IH]; intros Hk.
  - rewrite string_app_nil_l. simpl. by rewrite Ascii.eqb_refl.
  - rewrite string_app_cons. simpl in *.
    destruct (Ascii.eqb a c); [done|].
    destruct (indexOf c k); [done|]. by rewrite IH.
Qed.

Lemma take_string_app (k rest : string) : take_string (String.length k) (k +:+ rest) = k.
Proof.
  induction k as [|a k IH]; [by destruct rest|].
  rewrite string_app_cons. simpl. by rewrite IH.
Qed.

Lemma drop_string_app (k rest : string) : drop_string (String.length k) (k +:+ rest) = rest.
Proof.
  induction k as [|a k IH]; [done|].
  rewrite string_app_cons. simpl. exact IH.
Qed.

(** An argument is split at its first separator. *)
Lemma indexOf_split (c : ascii) (s : string) (n : nat) :
  indexOf c s = Some n →
  s = take_string n s +:+ String c (drop_string (S n) s)
  ∧ indexOf c (take_string n s) = None
  ∧ String.length (take_string n s) = n.
Proof.
  revert n. induction s as [|a s IH]; intros n; simpl; [done|].
  destruct (Ascii.eqb_spec a c) as [->|Hne].
  - intros [= <-]. by rewrite string_app_nil_l.
  - destruct (indexOf c s) as [m|]; [|done]. intros [= <-].
    destruct (IH m eq_refl) as (Hs & Hk & Hl). split_and!.
    + cbn [take_string]. rewrite string_app_cons. f_equal. exact Hs.
    + cbn [take_string indexOf]. by rewrite (proj2 (Ascii.eqb_neq a c) Hne), Hk.
    + cbn [take_string String.length]. by rewrite Hl.
Qed.

Lemma parse_variable_named (acc : gmap string string * list string) (key value : string) :
  key ≠ EmptyString → indexOf "=" key = None →
  parse_variable acc (key +:+ "=" +:+ value) = (js_assign key value acc.1, acc.2).
Proof.
  intros Hne Hk. unfold parse_variable.
  change ("=" +:+ value) with (String "=" value).
  rewrite (indexOf_app "=" key value Hk).
  destruct key as [|a key]; [done|]. cbn [String.length].
  change (S (String.length key)) with (String.length (String a key)).
  rewrite take_string_app.
  replace (String a key +:+ String "=" value) with ((String a key +:+ "=") +:+ value)
    by by rewrite string_app_assoc.
  replace (S (String.length (String a key))) with (String.length (String a key +:+ "="))
    by (rewrite string_length_app; simpl; lia).
  by rewrite drop_string_app.
Qed.

Lemma js_assign_lookup (key value : string) (obj : gmap string string) :
  key ≠ "__proto__" → js_assign key value obj !! key = Some value.
Proof.
  intros Hne. unfold js_assign.
  rewrite (proj2 (String.eqb_neq key "__proto__") Hne). apply lookup_insert_eq.
Qed.

Lemma size_pos_lookup (m : gmap string string) (k v : string) :
  m !! k = Some v → (0 < size m)%nat.
Proof.
  intros Hk. destruct (decide (size m = 0%nat)) as [Hz|]; [|lia].
  apply map_size_empty_iff in Hz. subst m. by rewrite lookup_empty in Hk.
Qed.

(** X5: an argument [key=value], with a name that is not empty, holds no
    separator and is not [__proto__], binds the name to everything after
    its first separator; coming last, it overrides the arguments before
    it, and it is not logged. *)
Theorem parseVariablesFromCli_binds_last (variableArguments : list string)
    (key value : string) :
  key ≠ EmptyString → indexOf "=" key = None → key ≠ "__proto__" →
  ∃ variables,
    parseVariablesFromCli (Some (variableArguments ++ [key +:+ "=" +:+ value]))
    = (Some variables, (parseVariablesFromCli (Some variableArguments)).2)
    ∧ variables !! key = Some value.
Proof.
  intros Hne Hk Hproto. unfold parseVariablesFromCli, default. cbn [from_option id Datatypes.id].
  rewrite foldl_app. cbn [foldl].
  rewrite parse_variable_named by done. cbn [fst snd].
  eexists. split; [|by apply js_assign_lookup].
  rewrite bool_decide_eq_true_2; [done|].
  eapply size_pos_lookup. by apply js_assign_lookup.
Qed.

Lemma parseVariablesFromCli_binds_last_witness :
  ∃ variables,
    parseVariablesFromCli (Some ["URL=http://old"; "novalue"; "URL=http://new?a=b"])
    = (Some variables, (parseVariablesFromCli (Some ["URL=http://old"; "novalue"])).2)
    ∧ variables !! "URL" = Some "http://new?a=b".
Proof.
  apply (parseVariablesFromCli_binds_last ["URL=http://old"; "novalue"] "URL"
           "http://new?a=b"); [discriminate|reflexivity|discriminate].
Defined.

(** What the loop keeps true of the variables gathered from [seen]. *)
Lemma foldl_parse_variable_sound (variableArguments seen : list string)
    (acc : gmap string string * list string) :
  (∀ k v, acc.1 !! k = Some v →
          k ≠ EmptyString ∧ indexOf "=" k = None ∧ k +:+ "=" +:+ v ∈ seen) →
  ∀ k v, (foldl parse_variable acc variableArguments).1 !! k = Some v →
         k ≠ EmptyString ∧ indexOf "=" k = None
         ∧ k +:+ "=" +:+ v ∈ seen ++ variableArguments.
Proof.
  revert seen acc. induction variableArguments as [|arg rest IH]; intros seen acc Hacc k v.
  - rewrite app_nil_r. apply Hacc.
  - cbn [foldl]. rewrite (cons_middle arg seen rest), app_assoc.
    apply IH. clear k v. intros k v.
    assert (Hkeep : acc.1 !! k = Some v →
                    k ≠ EmptyString ∧ indexOf "=" k = None ∧ k +:+ "=" +:+ v ∈ seen ++ [arg]).
    { intros Hkv. destruct (Hacc k v Hkv) as (? & ? & ?).
      split_and!; [done..|]. apply elem_of_app. by left. }
    unfold parse_variable.
    destruct (indexOf "=" arg) as [[|n]|] eqn:Hidx; cbn [fst]; [done| |done].
    unfold js_assign. destruct (String.eqb _ "__proto__"); [done|].
    destruct (indexOf_split "=" arg (S n) Hidx) as (Harg & Hnone & Hlen).
    destruct (decide (take_string (S n) arg = k)) as [<-|Hne].
    + rewrite lookup_insert_eq. intros [= <-]. split_and!; [|done|].
      * intros Hempty. by rewrite Hempty in Hlen.
      * apply elem_of_app. right. apply list_elem_of_singleton.
        exact (eq_sym Harg).
    + by rewrite lookup_insert_ne.
Qed.

(** X6: the object returned is never empty, and each of its properties
    comes from an argument: the name is not empty, holds no separator, and
    [name=value] is one of the arguments. *)
Theorem parseVariablesFromCli_sound (variableArguments : option (list string))
    (variables : gmap string string) :
  (parseVariablesFromCli variableArguments).1 = Some variables →
  variables ≠ ∅
  ∧ ∀ k v, variables !! k = Some v →
           k ≠ EmptyString ∧ indexOf "=" k = None
           ∧ k +:+ "=" +:+ v ∈ default [] variableArguments.
Proof.
  unfold parseVariablesFromCli. cbn [fst].
  case_bool_decide as Hsize; [|done]. intros [= <-]. split.
  - intros Hempty. rewrite Hempty, map_size_empty in Hsize. lia.
  - intros k v Hkv.
    apply (foldl_parse_variable_sound (default [] variableArguments) [] (∅, [])); [|done].
    intros k' v'. cbn [fst]. by rewrite lookup_empty.
Qed.

Lemma parseVariablesFromCli_sound_witness :
  ∃ variables,
    (parseVariablesFromCli (Some ["=empty"; "PASSWORD=a=b"])).1 = Some variables
    ∧ variables ≠ ∅
    ∧ ∀ k v, variables !! k = Some v →
             k ≠ EmptyString ∧ indexOf "=" k = None
             ∧ k +:+ "=" +:+ v ∈ ["=empty"; "PASSWORD=a=b"].
Proof.
  eexists. split; [reflexivity|].
  apply (parseVariablesFromCli_sound (Some ["=empty"; "PASSWORD=a=b"]) _ eq_refl).
Defined.

Lemma parse_variable_step (acc : gmap string string * list string) (arg : string) :
  length (parse_variable acc arg).2
  = (length acc.2 + if ignored_variable arg then 1 else 0)%nat
  ∧ (ignored_variable arg = true → (parse_variable acc arg).1 = acc.1).
Proof.
  unfold parse_variable, ignored_variable.
  destruct (indexOf "=" arg) as [[|n]|]; cbn [fst snd]; rewrite ?length_app; simpl;
    (split; [lia|done]).
Qed.

Lemma foldl_parse_variable_logs (variableArguments : list string)
    (acc : gmap string string * list string) :
  length (foldl parse_variable acc variableArguments).2
  = (length acc.2
     + length (filter (fun arg => ignored_variable arg = true) variableArguments))%nat
  ∧ (Forall (fun arg => ignored_variable arg = true) variableArguments →
     (foldl parse_variable acc variableArguments).1 = acc.1).
Proof.
  revert acc. induction variableArguments as [|arg rest IH]; intros acc; cbn [foldl].
  - rewrite filter_nil. simpl. split; [lia|done].
  - destruct (IH (parse_variable acc arg)) as [Hlen Hsame].
    destruct (parse_variable_step acc arg) as [Hstep Hfst].
    rewrite Hlen, Hstep, filter_cons, Forall_cons. split.
    + destruct (ignored_variable arg); case_decide; try done; simpl; lia.
    + intros [Harg Hrest]. by rewrite (Hsame Hrest), (Hfst Harg).
Qed.

(** X7: as many lines are logged as there are arguments without a
    separator or without a name; when all the arguments are of that kind,
    or there is none, the result is [undefined]. *)
Theorem parseVariablesFromCli_logs (variableArguments : option (list string)) :
  length (parseVariablesFromCli variableArguments).2
  = length (filter (fun arg => ignored_variable arg = true) (default [] variableArguments))
  ∧ (Forall (fun arg => ignored_variable arg = true) (default [] variableArguments) →
     (parseVariablesFromCli variableArguments).1 = None).
Proof.
  unfold parseVariablesFromCli. cbn [fst snd].
  destruct (foldl_parse_variable_logs (default [] variableArguments) (∅, [])) as [Hlen Hsame].
  split; [by rewrite Hlen|].
  intros Hall. rewrite (Hsame Hall). cbn [fst].
  by rewrite bool_decide_eq_false_2 by (rewrite map_size_empty; lia).
Qed.

Lemma parseVariablesFromCli_logs_witness :
  (parseVariablesFromCli (Some ["novalue"; "=noname"])).1 = None.
Proof.
  apply (proj2 (parseVariablesFromCli_logs (Some ["novalue"; "=noname"]))).
  repeat constructor.
Defined.

(** ** Retry helper *)

Section RetryFacts.
Context {T E : Type}.
Variable func : nat → E + T.
Variable shouldRetryAfterWait : nat → E → option Z.

Lemma trier_sound (fuel retries : nat) (outcome : E + T) (waits : list Z) :
  trier func shouldRetryAfterWait fuel retries = Some (outcome, waits) →
  (∀ i, (i < length waits)%nat →
        ∃ e w, func (retries + i) = inl e
               ∧ shouldRetryAfterWait (retries + i) e = Some w
               ∧ w ≠ 0 ∧ waits !! i = Some w)
  ∧ match outcome with
    | inr value => func (retries + length waits) = inr value
    | inl e =>
        func (retries + length waits) = inl e
        ∧ truthy_number (shouldRetryAfterWait (retries + length waits) e) = false
    end.
Proof.
  revert retries outcome waits.
  induction fuel as [|fuel IH]; intros retries outcome waits; cbn [trier]; [done|].
  destruct (func retries) as [e|value] eqn:Hcall.
  - destruct (truthy_number (shouldRetryAfterWait retries e)) eqn:Hwait.
    + destruct (trier func shouldRetryAfterWait fuel (S retries)) as [[outcome' waits']|]
        eqn:Hrest; [|done].
      intros [= <- <-]. apply IH in Hrest as [Hwaits Hlast].
      destruct (shouldRetryAfterWait retries e) as [w|] eqn:Hpolicy; [|done].
      cbn [default from_option length]. split.
      * intros [|i] Hi.
        -- exists e, w. rewrite Nat.add_0_r. split_and!; [done..| |done].
           simpl in Hwait. apply negb_true_iff, Z.eqb_neq in Hwait. done.
        -- destruct (Hwaits i ltac:(lia)) as (e' & w' & ? & ? & ? & ?).
           exists e', w'. by replace (retries + S i)%nat with (S retries + i)%nat by lia.
      * by replace (retries + S (length waits'))%nat
          with (S retries + length waits')%nat by lia.
    + intros [= <- <-]. cbn [length]. rewrite Nat.add_0_r. split; [|done].
      intros i Hi. lia.
  - intros [= <- <-]. cbn [length]. rewrite Nat.add_0_r. split; [|done].
    intros i Hi. lia.
Qed.

(** X8: what [retry] settles to.  Every wait answers a failed call on
    which the policy asked for a delay that is not zero, the calls
    being numbered by the failures before them; a value returned is the
    value of the call after the last wait; an error thrown is the error of
    that call, unchanged, and the policy declined to retry on it. *)
Theorem retry_sound (fuel : nat) (outcome : E + T) (waits : list Z) :
  retry func shouldRetryAfterWait fuel = Some (outcome, waits) →
  (∀ i, (i < length waits)%nat →
        ∃ e w, func i = inl e ∧ shouldRetryAfterWait i e = Some w
               ∧ w ≠ 0 ∧ waits !! i = Some w)
  ∧ match outcome with
    | inr value => func (length waits) = inr value
    | inl e =>
        func (length waits) = inl e
        ∧ truthy_number (shouldRetryAfterWait (length waits) e) = false
    end.
Proof. unfold retry. intros Hrun. by apply trier_sound in Hrun. Qed.

Lemma trier_gives_up (k retries : nat) :
  (∀ e, truthy_number (shouldRetryAfterWait (retries + k) e) = false) →
  ∃ outcome waits,
    trier func shouldRetryAfterWait (S k) retries = Some (outcome, waits)
    ∧ (length waits ≤ k)%nat.
Proof.
  revert retries. induction k as [|k IH]; intros retries Hstop.
  - rewrite Nat.add_0_r in Hstop. cbn [trier].
    destruct (func retries) as [e|value]; [|by eexists _, _].
    rewrite Hstop. by eexists _, _.
  - change (trier func shouldRetryAfterWait (S (S k)) retries)
      with (match func retries with
            | inr value => Some (inr value, [])
            | inl e =>
                if truthy_number (shouldRetryAfterWait retries e) then
                  match trier func shouldRetryAfterWait (S k) (S retries) with
                  | Some (outcome, waits) =>
                      Some (outcome, default 0 (shouldRetryAfterWait retries e) :: waits)
                  | None => None
                  end
                else Some (inl e, [])
            end).
    destruct (func retries) as [e|value]; [|eexists _, _; split; [done|simpl; lia]].
    destruct (truthy_number (shouldRetryAfterWait retries e));
      [|eexists _, _; split; [done|simpl; lia]].
    destruct (IH (S retries)) as (outcome & waits & -> & Hlen).
    { intros e'. by replace (S retries + k)%nat with (retries + S k)%nat by lia. }
    eexists _, _. split; [done|]. simpl. lia.
Qed.

(** X9: the policy owns termination: when it declines to retry after [n]
    failures, whatever the error, [retry] settles within [n + 1] calls of
    the action, so after at most [n] waits. *)
Theorem retry_terminates (n : nat) :
  (∀ e, truthy_number (shouldRetryAfterWait n e) = false) →
  ∃ outcome waits,
    retry func shouldRetryAfterWait (S n) = Some (outcome, waits) ∧ (length waits ≤ n)%nat.
Proof. intros Hstop. unfold retry. by apply trier_gives_up. Qed.
End RetryFacts.

Lemma retry_sound_witness :
  retry flaky backoff 5 = Some (inr 42, [500; 1000]) ∧ flaky 2 = inr 42.
Proof.
  split; [reflexivity|].
  exact (proj2 (retry_sound flaky backoff 5 (inr 42) [500; 1000] eq_refl)).
Defined.

Lemma retry_terminates_witness :
  ∃ outcome waits,
    retry (fun _ => inl "ETIMEDOUT" : string + Z) backoff 4 = Some (outcome, waits)
    ∧ (length waits ≤ 3)%nat.
Proof.
  apply (retry_terminates (fun _ => inl "ETIMEDOUT" : string + Z) backoff 3).
  intros e. reflexivity.
Defined.

(** ** Polling engine: the store *)

Lemma timeoutByPublicId_lookup (defaultTimeout : Z) (triggerConfigs : list TriggerConfig)
    (m : gmap string Z) (publicId : string) :
  foldl (fun (m : gmap string Z) trigger =>
           <[tc_id trigger :=
               default defaultTimeout (cfg_pollingTimeout (tc_config trigger))]> m)
        m triggerConfigs !! publicId
  = match last (filter (fun trigger => tc_id trigger = publicId) triggerConfigs) with
    | Some trigger => Some (default defaultTimeout (cfg_pollingTimeout (tc_config trigger)))
    | None => m !! publicId
    end.
Proof.
  revert m. induction triggerConfigs as [|tc rest IH]; intros m; cbn [foldl]; [done|].
  rewrite IH, filter_cons.
  destruct (decide (tc_id tc = publicId)) as [<-|Hne].
  - rewrite last_cons. destruct (last (filter _ rest)); [done|]. apply lookup_insert_eq.
  - destruct (last (filter _ rest)); [done|]. by apply lookup_insert_ne.
Qed.

Lemma map_set_fst {V : Type} (key : string) (value : V) (m : list (string * V)) :
  (map_set key value m).*1 = if decide (key ∈ m.*1) then m.*1 else m.*1 ++ [key].
Proof.
  induction m as [|[k v] m IH]; cbn [map_set].
  - by rewrite decide_False by apply not_elem_of_nil.
  - destruct (String.eqb_spec k key) as [->|Hne].
    + rewrite !fmap_cons. cbn [fst]. by rewrite decide_True by apply list_elem_of_here.
    + rewrite !fmap_cons, IH. cbn [fst].
      destruct (decide (key ∈ m.*1)) as [Hin|Hnin].
      * by rewrite decide_True by by right.
      * rewrite decide_False; [done|].
        intros [?|?]%elem_of_cons; [congruence|done].
Qed.

Lemma map_set_keys {V : Type} (key : string) (value : V) (m : list (string * V)) :
  NoDup m.*1 → NoDup (map_set key value m).*1.
Proof.
  intros Hnd. rewrite map_set_fst. destruct (decide (key ∈ m.*1)) as [|Hnin]; [done|].
  apply NoDup_app. split_and!; [done| |apply NoDup_singleton].
  intros k Hk ->%list_elem_of_singleton. done.
Qed.

Lemma map_set_Forall {V : Type} (P : string * V → Prop) (key : string) (value : V)
    (m : list (string * V)) :
  P (key, value) → Forall P m → Forall P (map_set key value m).
Proof.
  intros Hnew. induction 1 as [|[k v] m Hkv Hm IH]; cbn [map_set].
  - by repeat constructor.
  - destruct (String.eqb k key); by constructor.
Qed.

Lemma foldl_map_set_entries (P : string * TriggerResult → Prop)
    (g : TriggerResponse → TriggerResult) (rs : list TriggerResponse)
    (acc : list (string * TriggerResult)) :
  (∀ tr, tr ∈ rs → P (tr_result_id tr, g tr)) →
  NoDup acc.*1 → Forall P acc →
  NoDup (foldl (fun m tr => map_set (tr_result_id tr) (g tr) m) acc rs).*1
  ∧ Forall P (foldl (fun m tr => map_set (tr_result_id tr) (g tr) m) acc rs).
Proof.
  revert acc. induction rs as [|tr rs IH]; intros acc Hnew Hnd Hall; cbn [foldl]; [done|].
  apply IH.
  - intros tr' Hin. apply Hnew. by right.
  - by apply map_set_keys.
  - apply map_set_Forall; [|done]. apply Hnew. by left.
Qed.

Lemma foldl_map_set_keys (g : TriggerResponse → TriggerResult) (rs : list TriggerResponse)
    (acc : list (string * TriggerResult)) (key : string) :
  key ∈ acc.*1 ∨ key ∈ tr_result_id <$> rs →
  key ∈ (foldl (fun m tr => map_set (tr_result_id tr) (g tr) m) acc rs).*1.
Proof.
  revert acc. induction rs as [|tr rs IH]; intros acc Hkey; cbn [foldl].
  - destruct Hkey as [?|Hin]; [done|]. by apply elem_of_nil in Hin.
  - apply IH. rewrite map_set_fst.
    destruct Hkey as [Hin|[->|Hin]%elem_of_cons].
    + left. destruct (decide _); [done|]. apply elem_of_app. by left.
    + left. destruct (decide _); [done|]. apply elem_of_app. right. apply list_elem_of_here.
    + by right.
Qed.

(** X10: the map of trigger results holds, under distinct keys, pending
    trigger results only; the result id of every trigger response is a
    key, each trigger result sits under the result id of a trigger
    response that was given, and waits for the timeout that the last
    trigger config with the id of its test sets, or else for the default
    one. *)
Theorem createTriggerResultMap_entries (triggerResponses : list TriggerResponse)
    (defaultTimeout : Z) (triggerConfigs : list TriggerConfig) :
  let store := createTriggerResultMap triggerResponses defaultTimeout triggerConfigs in
  NoDup store.*1
  ∧ (∀ tr, tr ∈ triggerResponses → tr_result_id tr ∈ store.*1)
  ∧ Forall (fun entry =>
              entry.1 = tr_result_id (trr_response entry.2)
              ∧ trr_response entry.2 ∈ triggerResponses
              ∧ trr_result entry.2 = None
              ∧ pollingTimeout entry.2
                = configured_timeout defaultTimeout triggerConfigs
                    (tr_public_id (trr_response entry.2)))
           store.
Proof.
  unfold createTriggerResultMap.
  assert (Hkeys : ∀ A B C : Prop, A ∧ C → B → A ∧ B ∧ C) by tauto.
  apply Hkeys.
  - apply (foldl_map_set_entries _
             (fun tr => {| trr_response := tr; pollingTimeout := _; trr_result := None |}));
      [|constructor|constructor].
    intros tr Hin. cbn [fst snd trr_response trr_result pollingTimeout].
    split_and!; [done..|].
    unfold configured_timeout. rewrite timeoutByPublicId_lookup, lookup_empty.
    by destruct (last _).
  - intros tr Hin. apply foldl_map_set_keys. right.
    by apply (list_elem_of_fmap_2 tr_result_id).
Qed.

(** ** Polling engine: one iteration *)

Lemma fail_pending_fmap `{ERRORS} (cond : TriggerResult → bool) (errorMessage : string)
    (tunnel : bool) (store : list (string * TriggerResult)) :
  fail_pending cond errorMessage tunnel store
  = (fun entry : string * TriggerResult =>
       if pending entry.2 && cond entry.2
       then (entry.1,
             set_result (createFailingResult errorMessage
                           (tr_result_id (trr_response entry.2))
                           (tr_device (trr_response entry.2))
                           (tr_location (trr_response entry.2)) tunnel)
                        entry.2)
       else entry) <$> store.
Proof. reflexivity. Qed.

(** X11: the opening of an iteration, trigger result by trigger result:
    one that has its result keeps it; a pending one whose timeout has
    elapsed gets a timeout result, also when the tunnel is down; any other
    pending one gets a tunnel failure when a tunnel was supplied and is no
    longer connected, and stays pending otherwise. *)
Theorem expire_entries `{ERRORS} (env : PollingEnv) (pollingStartDate : Z) (tunnel : bool)
    (i : nat) (store : list (string * TriggerResult)) :
  expire env pollingStartDate tunnel i store
  = expired_entry (now env i - pollingStartDate) tunnel (negb (isTunnelConnected env i))
    <$> store.
Proof.
  unfold expire.
  destruct (tunnel && negb (isTunnelConnected env i)) eqn:Hdown.
  - unfold fail_pending. rewrite <- list_fmap_compose. apply list_fmap_ext.
    intros _ [k tr] _. unfold expired_entry. cbn [fst snd compose].
    rewrite Hdown, andb_true_r.
    destruct (pending tr) eqn:Hp; cbn [andb];
      destruct (pollingTimeout tr <=? now env i - pollingStartDate); cbn [fst snd];
      try done; by rewrite ?Hp.
  - unfold fail_pending. apply list_fmap_ext.
    intros _ [k tr] _. unfold expired_entry. cbn [fst snd]. rewrite Hdown.
    by destruct (pending tr), (pollingTimeout tr <=? now env i - pollingStartDate).
Qed.

(** ** Polling engine: polled results *)

Lemma map_update_absent {V : Type} (key : string) (f : V → V) (m : list (string * V)) :
  key ∉ m.*1 → map_update key f m = m.
Proof.
  induction m as [|[k v] m IH]; intros Hk; cbn [map_update]; [done|].
  rewrite fmap_cons, not_elem_of_cons in Hk. destruct Hk as [Hne Hk].
  destruct (String.eqb_spec k key) as [->|_]; [done|].
  by rewrite IH.
Qed.

Lemma map_update_fmap {V : Type} (key : string) (f : V → V) (m : list (string * V)) :
  NoDup m.*1 →
  map_update key f m
  = (fun entry : string * V => if decide (entry.1 = key) then (entry.1, f entry.2) else entry)
    <$> m.
Proof.
  induction m as [|[k v] m IH]; intros Hnd; cbn [map_update]; [done|].
  rewrite fmap_cons in Hnd. apply NoDup_cons in Hnd as [Hk Hm].
  rewrite fmap_cons. cbn [fst snd].
  destruct (String.eqb_spec k key) as [->|Hne].
  - rewrite decide_True by done. f_equal.
    rewrite <- (map_update_absent key f m Hk) at 1. by apply IH.
  - rewrite decide_False by done. f_equal. by apply IH.
Qed.

Lemma map_update_fst {V : Type} (key : string) (f : V → V) (m : list (string * V)) :
  (map_update key f m).*1 = m.*1.
Proof.
  induction m as [|[k v] m IH]; cbn [map_update]; [done|].
  destruct (String.eqb k key); [done|]. by rewrite !fmap_cons, IH.
Qed.

(** X12: polled results that change nothing.  A batch of polled results
    none of which is both finished and named, by its result id, in the
    map of trigger results, leaves that map as it is. *)
Theorem attach_polled_ignores (polledResults : list PollResult)
    (store : list (string * TriggerResult)) :
  Forall (fun pr => eventType (result pr) ≠ "finished" ∨ resultID pr ∉ store.*1)
         polledResults →
  attach_polled polledResults store = store.
Proof.
  unfold attach_polled. induction 1 as [|pr prs Hpr _ IH]; cbn [foldl]; [done|].
  destruct (String.eqb_spec (eventType (result pr)) "finished") as [Hfin|_].
  - destruct Hpr as [Hne|Habsent]; [done|]. by rewrite map_update_absent.
  - exact IH.
Qed.

Lemma attach_polled_ignores_witness :
  attach_polled [sample_poll_result "r9"] (createTriggerResultMap sample_responses 60000 [])
  = createTriggerResultMap sample_responses 60000 [].
Proof.
  apply attach_polled_ignores. apply Forall_cons. split; [right|apply Forall_nil_2].
  apply (bool_decide_unpack _). by vm_compute.
Defined.

(** X13: what a batch of polled results changes.  After the batch, a
    trigger result holds the last finished result of the batch that
    carries its result id, whatever result it had before, and is as it
    was when the batch has none; its key, its trigger response and its
    polling timeout do not change, nor does the order of the map. *)
Theorem attach_polled_last_wins (polledResults : list PollResult)
    (store : list (string * TriggerResult)) :
  NoDup store.*1 →
  attach_polled polledResults store
  = (fun entry : string * TriggerResult =>
       match last (filter (fun pr => eventType (result pr) = "finished"
                                     ∧ resultID pr = entry.1) polledResults) with
       | Some pr => (entry.1, set_result pr entry.2)
       | None => entry
       end) <$> store.
Proof.
  unfold attach_polled. revert store.
  induction polledResults as [|pr prs IH]; intros store Hnd; cbn [foldl].
  - rewrite <- (list_fmap_id store) at 1. by apply list_fmap_ext.
  - destruct (String.eqb_spec (eventType (result pr)) "finished") as [Hfin|Hne].
    + rewrite IH by by rewrite map_update_fst.
      rewrite map_update_fmap by done. rewrite <- list_fmap_compose.
      apply list_fmap_ext. intros _ [k tr] _. cbn [compose fst snd].
      rewrite filter_cons.
      destruct (decide (k = resultID pr)) as [->|Hk].
      * rewrite decide_True by done. cbn [fst snd]. rewrite last_cons.
        by destruct (last (filter _ prs)).
      * rewrite decide_False by (intros [_ Heq]; done). done.
    + rewrite IH by done. apply list_fmap_ext. intros _ [k tr] _. cbn [fst snd].
      rewrite filter_cons. rewrite decide_False by (intros [Heq _]; done). done.
Qed.

Lemma attach_polled_last_wins_witness :
  attach_polled [sample_poll_result "r1"] (createTriggerResultMap sample_responses 60000 [])
  = (fun entry : string * TriggerResult =>
       match last (filter (fun pr => eventType (result pr) = "finished"
                                     ∧ resultID pr = entry.1) [sample_poll_result "r1"]) with
       | Some pr => (entry.1, set_result pr entry.2)
       | None => entry
       end) <$> createTriggerResultMap sample_responses 60000 [].
Proof.
  apply attach_polled_last_wins. apply (bool_decide_unpack _). by vm_compute.
Defined.

(** ** Tests to trigger: what the lookups leave *)

Section Lookups.
Context `{Runtime} `{ApiHelpers}.
Variable getTest : string → BackendError + InternalTest.
Variable env : list (string * string).

Lemma lookup_one_not_found (st : Lookups) (tc : TriggerConfig) :
  not_found getTest tc = true →
  ∃ st', lookup_one getTest env st tc = Return st'
         ∧ overriddenTestsToTrigger st' = overriddenTestsToTrigger st
         ∧ testsNotFound (summary st')
           = {[ normalize_id (tc_id tc) ]} ∪ testsNotFound (summary st)
         ∧ length (errorMessages st') = S (length (errorMessages st))
         ∧ calls st' = calls st.
Proof.
  unfold not_found, lookup_one. destruct (getTest _) as [e|t]; [|done].
  intros ->. eexists. split; [done|]. cbn. rewrite length_app. cbn.
  split_and!; [done..|lia|done].
Qed.

Lemma lookup_one_found (st : Lookups) (tc : TriggerConfig) :
  not_found getTest tc = false → lookup_fails getTest tc = false →
  ∃ st', lookup_one getTest env st tc = Return st'
         ∧ overriddenTestsToTrigger st' ≠ []
         ∧ testsNotFound (summary st') = testsNotFound (summary st)
         ∧ errorMessages st' = errorMessages st.
Proof.
  unfold not_found, lookup_fails, lookup_one. destruct (getTest _) as [e|t].
  { by destruct (instanceofError e && isNotFoundError e). }
  intros _ _. destruct (handleConfig _ _ _ _) as [payload handleCalls].
  destruct (bool_decide _); eexists; (split; [done|]); cbn;
    (split_and!; [|done..]); by destruct (overriddenTestsToTrigger st).
Qed.

Lemma lookup_one_fails (st : Lookups) (tc : TriggerConfig) (e : BackendError) :
  getTest (normalize_id (tc_id tc)) = inl e →
  instanceofError e && isNotFoundError e = false →
  lookup_one getTest env st tc = Throw (Rethrown e).
Proof. intros He Hnf. unfold lookup_one. by rewrite He, Hnf. Qed.

Lemma lookup_one_grows (st st' : Lookups) (tc : TriggerConfig) :
  lookup_one getTest env st tc = Return st' →
  overriddenTestsToTrigger st ≠ [] → overriddenTestsToTrigger st' ≠ [].
Proof.
  unfold lookup_one. destruct (getTest _) as [e|t].
  - destruct (_ && _); [|done]. by intros [= <-].
  - destruct (handleConfig _ _ _ _) as [payload handleCalls].
    destruct (bool_decide _); intros [= <-]; cbn; by destruct (overriddenTestsToTrigger st).
Qed.

(** What a run of lookups that does not throw leaves in the summary and
    in the error messages. *)
Lemma lookup_all_not_found (triggerConfigs : list TriggerConfig) (st st' : Lookups) :
  lookup_all getTest env st triggerConfigs = Return st' →
  testsNotFound (summary st')
  = list_to_set ((fun tc => normalize_id (tc_id tc))
                 <$> filter (fun tc => not_found getTest tc = true) triggerConfigs)
    ∪ testsNotFound (summary st)
  ∧ length (errorMessages st')
    = (length (errorMessages st)
       + length (filter (fun tc => not_found getTest tc = true) triggerConfigs))%nat
  ∧ (overriddenTestsToTrigger st' = [] →
     overriddenTestsToTrigger st = []
     ∧ Forall (fun tc => not_found getTest tc = true) triggerConfigs).
Proof.
  revert st. induction triggerConfigs as [|tc rest IH]; intros st; cbn [lookup_all].
  - intros [= <-]. rewrite filter_nil. cbn [fmap list_fmap list_to_set length].
    split_and!; [by rewrite (left_id_L ∅ (∪))|lia|done].
  - destruct (lookup_one getTest env st tc) as [st1|e] eqn:Hone; [|done].
    intros Hrest. apply IH in Hrest as (Hset & Hlen & Hempty).
    rewrite filter_cons.
    destruct (not_found getTest tc) eqn:Hnf.
    + destruct (lookup_one_not_found st tc Hnf) as (st1' & Hone' & Hov & Hnfset & Hmsg & _).
      rewrite Hone in Hone'. injection Hone' as <-.
      rewrite decide_True by done. rewrite fmap_cons, list_to_set_cons.
      rewrite Hset, Hlen, Hnfset, Hmsg. cbn [length].
      split_and!; [|lia|].
      { rewrite (assoc_L (∪)). f_equal. apply (comm_L (∪)). }
      intros Hnil. destruct (Hempty Hnil) as [Hnil1 Hall].
      split; [by rewrite <- Hov|]. by constructor.
    + rewrite decide_False by done.
      destruct (lookup_fails getTest tc) eqn:Hfail.
      { exfalso. unfold not_found, lookup_fails in *. unfold lookup_one in Hone.
        destruct (getTest _) as [e|t]; [|done].
        by destruct (instanceofError e && isNotFoundError e). }
      destruct (lookup_one_found st tc Hnf Hfail) as (st1' & Hone' & Hov & Hnfset & Hmsg).
      rewrite Hone in Hone'. injection Hone' as <-.
      rewrite Hset, Hlen, Hnfset, Hmsg. split_and!; [done..|].
      intros Hnil. by destruct (Hempty Hnil) as [Hnil1 _].
Qed.

Lemma lookup_all_all_not_found (triggerConfigs : list TriggerConfig) (st : Lookups) :
  Forall (fun tc => not_found getTest tc = true) triggerConfigs →
  ∃ st', lookup_all getTest env st triggerConfigs = Return st'
         ∧ overriddenTestsToTrigger st' = overriddenTestsToTrigger st.
Proof.
  intros Hall. revert st. induction Hall as [|tc rest Hnf _ IH]; intros st; cbn [lookup_all].
  - by eexists.
  - destruct (lookup_one_not_found st tc Hnf) as (st1 & -> & Hov & _).
    destruct (IH st1) as (st' & -> & Hov'). eexists. split; [done|]. by rewrite Hov', Hov.
Qed.

(** X14: [getTestsToTrigger] never returns an empty list of payloads: when
    no trigger config is given, or the backend knows none of the tests, it
    throws the error "No tests to trigger". *)
Theorem getTestsToTrigger_no_tests (triggerConfigs : list TriggerConfig) :
  (∀ toTrigger reported,
     getTestsToTrigger getTest env triggerConfigs = Return (toTrigger, reported) →
     ttt_overriddenTestsToTrigger toTrigger ≠ [])
  ∧ (Forall (fun tc => not_found getTest tc = true) triggerConfigs →
     getTestsToTrigger getTest env triggerConfigs = Throw (NewError "No tests to trigger")).
Proof.
  unfold getTestsToTrigger. split.
  - intros toTrigger reported.
    destruct (lookup_all _ _ _ _) as [st|e]; [|done].
    destruct (overriddenTestsToTrigger st) as [|p ps] eqn:Hov; [done|].
    by intros [= <- <-].
  - intros Hall.
    destruct (lookup_all_all_not_found triggerConfigs
                {| overriddenTestsToTrigger := []; errorMessages := [];
                   summary := createSummary; tests := []; calls := [] |} Hall)
      as (st' & -> & ->). done.
Qed.

Lemma lookup_all_throws (before after : list TriggerConfig) (tc : TriggerConfig)
    (e : BackendError) (st : Lookups) :
  Forall (fun tc => lookup_fails getTest tc = false) before →
  getTest (normalize_id (tc_id tc)) = inl e →
  instanceofError e && isNotFoundError e = false →
  lookup_all getTest env st (before ++ tc :: after) = Throw (Rethrown e).
Proof.
  intros Hbefore He Hnf. revert st.
  induction Hbefore as [|tc0 rest Hok _ IH]; intros st; cbn [lookup_all app].
  - by rewrite (lookup_one_fails st tc e He Hnf).
  - destruct (not_found getTest tc0) eqn:Hnf0.
    + destruct (lookup_one_not_found st tc0 Hnf0) as (st1 & -> & _). apply IH.
    + destruct (lookup_one_found st tc0 Hnf0 Hok) as (st1 & -> & _). apply IH.
Qed.

(** X15: the lookups being answered in the order of the requests, the
    first lookup error that is not a not-found error aborts
    [getTestsToTrigger], which throws that error as it is, whatever the
    lookups after it find. *)
Theorem getTestsToTrigger_rethrows (before after : list TriggerConfig) (tc : TriggerConfig)
    (e : BackendError) :
  Forall (fun tc => lookup_fails getTest tc = false) before →
  getTest (normalize_id (tc_id tc)) = inl e →
  instanceofError e && isNotFoundError e = false →
  getTestsToTrigger getTest env (before ++ tc :: after) = Throw (Rethrown e).
Proof.
  intros Hbefore He Hnf. unfold getTestsToTrigger.
  by rewrite (lookup_all_throws before after tc e _ Hbefore He Hnf).
Qed.

(** X16: when [getTestsToTrigger] returns, the summary lists as not found
    the normalised identifiers of the configs that the backend does not
    know, and the reporter is handed one error message for each of those
    configs, just before it is told the tests to wait for, which is its
    last call. *)
Theorem getTestsToTrigger_not_found (triggerConfigs : list TriggerConfig)
    (toTrigger : TestsToTrigger) (reported : list ReporterCall) :
  getTestsToTrigger getTest env triggerConfigs = Return (toTrigger, reported) →
  let missing := filter (fun tc => not_found getTest tc = true) triggerConfigs in
  testsNotFound (ttt_summary toTrigger)
  = list_to_set ((fun tc => normalize_id (tc_id tc)) <$> missing)
  ∧ ∃ before messages,
      reported = before ++ [CallInitErrors messages; CallTestsWait (ttt_tests toTrigger)]
      ∧ length messages = length missing.
Proof.
  intros Hrun missing. subst missing. unfold getTestsToTrigger in Hrun.
  destruct (lookup_all _ _ _ _) as [st|e] eqn:Hall; [|done].
  apply lookup_all_not_found in Hall as (Hset & Hlen & _).
  destruct (overriddenTestsToTrigger st) as [|p ps]; [done|].
  injection Hrun as <- <-. cbn [ttt_summary ttt_tests]. split.
  - rewrite Hset. cbn [summary createSummary testsNotFound]. apply (right_id_L ∅ (∪)).
  - eexists _, _. split; [done|]. rewrite Hlen. cbn. lia.
Qed.
End Lookups.

Lemma getTestsToTrigger_no_tests_witness :
  getTestsToTrigger (R := sample_runtime) (H := sample_api) sample_getTest []
    [sample_trigger_config "zzz-zzz-zzz"; sample_trigger_config "https://host/yyy-yyy-yyy"]
  = Throw (NewError "No tests to trigger").
Proof.
  apply (proj2 (getTestsToTrigger_no_tests (H := sample_runtime) (H0 := sample_api)
                  sample_getTest [] _)).
  repeat constructor.
Defined.

Lemma getTestsToTrigger_rethrows_witness :
  getTestsToTrigger (R := sample_runtime) (H := sample_api)
    (fun id => if String.eqb id "bad-bad-bad" then inl bad_gateway else sample_getTest id) []
    [sample_trigger_config "abc-def-ghi"; sample_trigger_config "bad-bad-bad";
     sample_trigger_config "zzz-zzz-zzz"]
  = Throw (Rethrown bad_gateway).
Proof.
  apply (getTestsToTrigger_rethrows (H := sample_runtime) (H0 := sample_api) _ []
           [sample_trigger_config "abc-def-ghi"] [sample_trigger_config "zzz-zzz-zzz"]
           (sample_trigger_config "bad-bad-bad") bad_gateway);
    [repeat constructor|reflexivity|reflexivity].
Defined.

Lemma getTestsToTrigger_not_found_witness :
  ∃ toTrigger reported,
    getTestsToTrigger (R := sample_runtime) (H := sample_api) sample_getTest []
      [sample_trigger_config "zzz-zzz-zzz"; sample_trigger_config "abc-def-ghi"]
    = Return (toTrigger, reported)
    ∧ testsNotFound (ttt_summary toTrigger) = {[ "zzz-zzz-zzz" ]}.
Proof.
  eexists _, _. split; [reflexivity|].
  etrans.
  - apply (proj1 (getTestsToTrigger_not_found (H := sample_runtime) (H0 := sample_api)
                    sample_getTest []
                    [sample_trigger_config "zzz-zzz-zzz"; sample_trigger_config "abc-def-ghi"]
                    _ _ eq_refl)).
  - vm_compute. reflexivity.
Defined.

(** ** Substrings *)

Lemma string_app_nil_r (a : string) : a +:+ EmptyString = a.
Proof.
  induction a as [|x a IH]; [done|].
  rewrite string_app_cons. by rewrite IH.
Qed.

Lemma prefix_app_r (x a b : string) :
  String.prefix x a = true → String.prefix x (a +:+ b) = true.
Proof.
  revert a. induction x as [|c x IH]; intros a; [by destruct (a +:+ b)|].
  destruct a as [|d a]; [done|]. rewrite string_app_cons. cbn [String.prefix].
  destruct (ascii_dec c d); [apply IH|done].
Qed.

Lemma prefix_self_app (x b : string) : String.prefix x (x +:+ b) = true.
Proof.
  induction x as [|c x IH]; [by destruct b|].
  rewrite string_app_cons. cbn [String.prefix]. by destruct (ascii_dec c c).
Qed.

Lemma includes_app_l (x a b : string) :
  includes x a = true → includes x (a +:+ b) = true.
Proof.
  induction a as [|c a IH].
  - cbn [includes]. rewrite orb_false_r. intros Hp. apply prefix_includes.
    by apply prefix_app_r.
  - rewrite string_app_cons. cbn [includes].
    intros [Hp|Hin]%orb_true_iff; apply orb_true_iff.
    + left. by apply (prefix_app_r x (String c a) b).
    + right. by apply IH.
Qed.

Lemma includes_app_r (x a b : string) :
  includes x b = true → includes x (a +:+ b) = true.
Proof.
  intros Hb. induction a as [|c a IH]; [done|].
  rewrite string_app_cons. cbn [includes]. rewrite IH. apply orb_true_r.
Qed.

Lemma includes_self_app (x b : string) : includes x (x +:+ b) = true.
Proof. apply prefix_includes, prefix_self_app. Qed.

Lemma includes_join (sep x : string) (xs : list string) :
  x ∈ xs → includes x (join sep xs) = true.
Proof.
  induction xs as [|y ys IH]; [by intros ?%elem_of_nil|].
  intros [->|Hin]%elem_of_cons.
  - destruct ys as [|z zs]; cbn [join].
    + rewrite <- (string_app_nil_r y) at 2. apply includes_self_app.
    + apply includes_self_app.
  - destruct ys as [|z zs]; [by apply elem_of_nil in Hin|].
    change (join sep (y :: z :: zs)) with (y +:+ sep +:+ join sep (z :: zs)).
    apply includes_app_r, includes_app_r. by apply IH.
Qed.

(** ** The payload of a test *)

Section PayloadFacts.
Context `{Runtime}.

(** X17: [handleConfig] renders a start URL, and calls the reporter, only
    for a browser test or an api test of subtype http whose override
    gives a start URL that is not empty; the start URL of the payload is
    then the template rendered in the context of the test URL. *)
Theorem handleConfig_startUrl_only (env : list (string * string)) (test : InternalTest)
    (publicId : string) (config : option ConfigOverride) :
  let handled := handleConfig env test publicId config in
  payload_public_id handled.1 = publicId
  ∧ (payload_startUrl handled.1 ≠ None ∨ handled.2 ≠ [] →
     (type test = "browser" ∨ subtype test = Some "http")
     ∧ ∃ c st,
         config = Some c ∧ cfg_startUrl c = Some st ∧ st ≠ EmptyString
         ∧ payload_startUrl handled.1
           = Some (template st (parseUrlVariables env (request_url test)).1)).
Proof.
  unfold handleConfig.
  destruct config as [c|]; [|by split; [|intros [|]]].
  destruct (config_is_empty c); [by split; [|intros [|]]|].
  destruct (String.eqb (type test) "browser" || strict_eq (subtype test) "http") eqn:Hkind;
    [|by split; [|intros [|]]].
  destruct (cfg_startUrl c) as [st|] eqn:Hst; [|by split; [|intros [|]]].
  cbn [truthy_string andb default from_option].
  destruct (String.eqb_spec st EmptyString) as [->|Hne]; cbn [negb];
    [by split; [|intros [|]]|].
  destruct (parseUrlVariables env (request_url test)) as [context calls].
  cbn [fst snd payload_public_id payload_startUrl]. split; [done|]. intros _. split.
  - apply orb_true_iff in Hkind as [Hk|Hk]; [left|right].
    + by apply String.eqb_eq.
    + by apply strict_eq_true.
  - by exists c, st.
Qed.

(** X18: once the test URL parses, the eleven reserved names are bound to
    the parts of the URL whatever the environment holds, and every other
    name has the value that the environment gives it. *)
Theorem parseUrlVariables_reserved (env env' : list (string * string)) (url : string)
    (u : URL) :
  newURL url = Some u →
  (∀ k, k ∈ "URL" :: URL_VARIABLES →
        is_Some ((parseUrlVariables env url).1 !! k)
        ∧ (parseUrlVariables env url).1 !! k = (parseUrlVariables env' url).1 !! k)
  ∧ (∀ k, k ∉ "URL" :: URL_VARIABLES →
          (parseUrlVariables env url).1 !! k = JSString <$> env_lookup env k).
Proof.
  intros Hu. unfold parseUrlVariables. rewrite Hu. cbn [fst]. split.
  - intros k Hk. unfold URL_VARIABLES in Hk.
    repeat (apply elem_of_cons in Hk as [->|Hk]);
      [repeat first [rewrite lookup_insert_eq|rewrite lookup_insert_ne by done];
       (split; [by eexists|done])..|].
    by apply elem_of_nil in Hk.
  - intros k Hk. unfold URL_VARIABLES in Hk.
    repeat (apply not_elem_of_cons in Hk as [? Hk]).
    repeat (rewrite lookup_insert_ne by done).
    by rewrite lookup_fmap.
Qed.

(** X19: when the test URL does not parse, the reporter is called once,
    on its hook [error] and with a message that quotes the test URL, and
    the context is the environment with the name URL bound to the test
    URL: no other reserved name is bound unless the environment binds
    it, and no warning about reserved names is logged. *)
Theorem parseUrlVariables_unparsable (env : list (string * string)) (url : string) :
  newURL url = None →
  (parseUrlVariables env url).2
  = [CallError ("The start url " +:+ url
                +:+ " contains variables, CI overrides will be ignored" +:+ nl)]
  ∧ (parseUrlVariables env url).1 !! "URL" = Some (JSString url)
  ∧ ∀ k, k ≠ "URL" → (parseUrlVariables env url).1 !! k = JSString <$> env_lookup env k.
Proof.
  intros Hu. unfold parseUrlVariables. rewrite Hu. cbn [fst snd]. split_and!; [done| |].
  - apply lookup_insert_eq.
  - intros k Hk. rewrite lookup_insert_ne by done. by rewrite lookup_fmap.
Qed.
End PayloadFacts.

Lemma handleConfig_startUrl_only_witness :
  (type (sample_test None) = "browser" ∨ subtype (sample_test None) = Some "http")
  ∧ ∃ c st,
      Some (sample_config (Some "{{URL}}")) = Some c ∧ cfg_startUrl c = Some st
      ∧ st ≠ EmptyString
      ∧ payload_startUrl
          (handleConfig (R := sample_runtime) [] (sample_test None) "abc-def-ghi"
             (Some (sample_config (Some "{{URL}}")))).1
        = Some (template (R := sample_runtime) st
                  (parseUrlVariables (R := sample_runtime) []
                     (request_url (sample_test None))).1).
Proof.
  apply (proj2 (handleConfig_startUrl_only (H := sample_runtime) [] (sample_test None)
                  "abc-def-ghi" (Some (sample_config (Some "{{URL}}"))))).
  left. discriminate.
Defined.

Lemma parseUrlVariables_reserved_witness :
  (parseUrlVariables (R := sample_runtime) [("HOST", "from.env"); ("TOKEN", "t")]
     "https://example.com/v1").1 !! "HOST"
  = (parseUrlVariables (R := sample_runtime) [] "https://example.com/v1").1 !! "HOST".
Proof.
  apply (proj1 (parseUrlVariables_reserved (H := sample_runtime)
                  [("HOST", "from.env"); ("TOKEN", "t")] [] "https://example.com/v1" _
                  eq_refl) "HOST").
  unfold URL_VARIABLES. do 3 right. left.
Defined.

Lemma parseUrlVariables_unparsable_witness :
  (parseUrlVariables (R := sample_runtime) [("HOST", "from.env")] "{{URL}}/path").1 !! "HOST"
  = JSString <$> env_lookup [("HOST", "from.env")] "HOST".
Proof.
  apply (proj2 (proj2 (parseUrlVariables_unparsable (H := sample_runtime)
                         [("HOST", "from.env")] "{{URL}}/path" eq_refl))).
  discriminate.
Defined.

(** ** Reserved names of the environment *)

(** X20: the warning about reserved names.  Nothing is logged when no
    variable of the environment bears a reserved name; otherwise a single
    line is logged, which names every such variable. *)
Theorem warnOnReservedEnvVarNames_names (env : list (string * string)) :
  (Forall (fun name => name ∉ URL_VARIABLES) env.*1 → warnOnReservedEnvVarNames env = [])
  ∧ (∀ name, name ∈ env.*1 → name ∈ URL_VARIABLES →
             ∃ message, warnOnReservedEnvVarNames env = [CallLog message]
                        ∧ includes name message = true).
Proof.
  unfold warnOnReservedEnvVarNames. split.
  - intros Hall.
    assert (filter (fun name => name ∈ URL_VARIABLES) env.*1 = []) as ->; [|done].
    induction Hall as [|name names Hname _ IH]; [done|].
    by rewrite filter_cons_False.
  - intros name Hin Hreserved.
    assert (Hused : name ∈ filter (fun name => name ∈ URL_VARIABLES) env.*1).
    { by apply list_elem_of_filter. }
    rewrite bool_decide_eq_true_2.
    + eexists. split; [done|].
      apply includes_app_r, includes_app_l. by apply includes_join.
    + destruct (filter _ _); [by apply elem_of_nil in Hused|]. simpl. lia.
Qed.

Lemma warnOnReservedEnvVarNames_names_witness :
  ∃ message,
    warnOnReservedEnvVarNames [("PATH", "/bin"); ("PORT", "8080")] = [CallLog message]
    ∧ includes "PORT" message = true.
Proof.
  apply (proj2 (warnOnReservedEnvVarNames_names [("PATH", "/bin"); ("PORT", "8080")])).
  - right. left.
  - unfold URL_VARIABLES. do 7 right. left.
Defined.

(** ** Subdomain and domain of a host name *)

Lemma group_at_sound (s g : string) :
  group_at s = Some g → ∃ rest, s = g +:+ String "." rest ∧ lookahead rest = true.
Proof.
  revert g. induction s as [|c s IH]; intros g; cbn [group_at]; [done|].
  destruct (Ascii.eqb c "." && lookahead s) eqn:Hdot.
  - intros [= <-]. apply andb_true_iff in Hdot as [->%Ascii.eqb_eq Hl]. by exists s.
  - destruct (is_line_terminator c); [done|].
    destruct (group_at s) as [g'|]; [|done]. intros [= <-].
    destruct (IH g' eq_refl) as (rest & -> & Hl). exists rest. by rewrite string_app_cons.
Qed.

Lemma group_at_lookahead (s g : string) :
  group_at s = Some g → includes "/" s = false → lookahead s = true.
Proof.
  revert g. induction s as [|c s IH]; intros g; cbn [group_at]; [done|].
  rewrite includes_slash_cons. intros Hg [Hc Hs]%orb_false_iff.
  cbn [lookahead]. rewrite Hc. cbn [negb andb].
  destruct (Ascii.eqb c "." && lookahead s) eqn:Hdot.
  - apply andb_true_iff in Hdot as [_ ->]. apply orb_true_r.
  - destruct (is_line_terminator c); [done|].
    destruct (group_at s) as [g'|]; [|done].
    rewrite (IH g' eq_refl Hs). apply orb_true_r.
Qed.

Lemma group_at_label (s g : string) :
  group_at s = Some g → includes "/" s = false → includes "." g = false.
Proof.
  revert g. induction s as [|c s IH]; intros g; cbn [group_at]; [done|].
  rewrite includes_slash_cons. intros Hg [Hc Hs]%orb_false_iff.
  destruct (Ascii.eqb c "." && lookahead s) eqn:Hdot; [by injection Hg as <-|].
  destruct (is_line_terminator c); [done|].
  destruct (group_at s) as [g'|] eqn:Hg'; [|done]. injection Hg as <-.
  rewrite (includes_char_cons "." c g'), (IH g' eq_refl Hs), orb_false_r.
  rewrite (group_at_lookahead s g' Hg' Hs), andb_true_r in Hdot. exact Hdot.
Qed.

Lemma subdomain_match_head (s : string) :
  no_line_terminator s = true → subdomain_match s = group_at s.
Proof.
  induction s as [|c s IH]; [done|].
  cbn [no_line_terminator]. intros [Hc Hs]%andb_true_iff. apply negb_true_iff in Hc.
  cbn [subdomain_match]. destruct (group_at (String c s)) as [g|] eqn:Hg; [done|].
  rewrite (IH Hs). cbn [group_at] in Hg. rewrite Hc in Hg.
  destruct (Ascii.eqb c "." && lookahead s); [done|].
  by destruct (group_at s).
Qed.

Lemma replace_first_prefix (pat rep s : string) :
  String.prefix pat s = true →
  replace_first pat rep s = rep +:+ drop_string (String.length pat) s.
Proof. intros Hp. destruct s; cbn [replace_first]; by rewrite Hp. Qed.

Section HostName.
Context `{Runtime}.

(** X21: for a host name without slash or line break in which a subdomain
    is found, the subdomain is the first label of the host name, it holds
    no dot, and the domain is what follows its dot: the host name reads
    SUBDOMAIN.DOMAIN. *)
Theorem parseUrlVariables_splits_hostname (env : list (string * string)) (url : string)
    (u : URL) (g : string) :
  newURL url = Some u →
  no_line_terminator (hostname u) = true →
  includes "/" (hostname u) = false →
  subdomain_match (hostname u) = Some g →
  (parseUrlVariables env url).1 !! "SUBDOMAIN" = Some (JSString g)
  ∧ includes "." g = false
  ∧ ∃ d, (parseUrlVariables env url).1 !! "DOMAIN" = Some (JSString d)
         ∧ hostname u = g +:+ "." +:+ d.
Proof.
  intros Hu Hlt Hslash Hmatch.
  pose proof Hmatch as Hgroup. rewrite (subdomain_match_head _ Hlt) in Hgroup.
  destruct (group_at_sound _ _ Hgroup) as (rest & Hhost & _).
  unfold parseUrlVariables. rewrite Hu, Hmatch. cbn [fst]. split_and!.
  - apply lookup_insert_eq.
  - by apply (group_at_label (hostname u)).
  - exists rest. split; [|exact Hhost].
    do 9 (rewrite lookup_insert_ne by done). rewrite lookup_insert_eq. do 2 f_equal.
    rewrite Hhost.
    replace (g +:+ String "." rest) with ((g +:+ ".") +:+ rest)
      by by rewrite string_app_assoc.
    rewrite replace_first_prefix by apply prefix_self_app.
    by rewrite drop_string_app.
Qed.

(** ** Templates without known names *)

Lemma match_template_opening (s m p1 rest : string) :
  match_template s = Some (m, p1, rest) → ∃ m', m = String "{" m'.
Proof.
  unfold match_template.
  destruct (strip_prefix "{{" s) as [t|]; [|done].
  destruct (span_no_brace t) as [w r].
  destruct (strip_prefix "}}" r); [|done].
  intros [= <- _ _]. by eexists.
Qed.

Lemma template_from_absent (st : string) (skip : nat) (context : gmap string JSValue) :
  Forall (fun p => js_in p context = false) (placeholders_from skip st) →
  template_from skip st context = drop_string skip st.
Proof.
  revert skip. induction st as [|c st IH]; intros skip; [by destruct skip|].
  destruct skip as [|k]; [|apply IH].
  change (placeholders_from 0 (String c st))
    with (match match_template (String c st) with
          | Some (m, p1, _) => p1 :: placeholders_from (String.length m - 1) st
          | None => placeholders_from 0 st
          end).
  change (template_from 0 (String c st) context)
    with (match match_template (String c st) with
          | Some (m, p1, _) =>
              replacer context m p1 +:+ template_from (String.length m - 1) st context
          | None => String c (template_from 0 st context)
          end).
  destruct (match_template (String c st)) as [[[m p1] rest]|] eqn:Hm.
  - intros [Hp1 Hrest]%Forall_cons. rewrite (IH _ Hrest).
    unfold replacer. rewrite Hp1. cbn [drop_string].
    destruct (match_template_opening _ _ _ _ Hm) as [m' ->].
    apply match_template_sound in Hm.
    rewrite string_app_cons in Hm. injection Hm as -> ->.
    replace (String.length (String "{" m') - 1)%nat with (String.length m')
      by (cbn [String.length]; lia).
    by rewrite drop_string_app, string_app_cons.
  - intros Hrest. rewrite (IH _ Hrest). done.
Qed.

(** X22: a text in which no placeholder bears a name that is in the
    context is rendered as it is. *)
Theorem template_absent_names (st : string) (context : gmap string JSValue) :
  Forall (fun p => js_in p context = false) (placeholders st) →
  template st context = st.
Proof. intros Hall. unfold template. by rewrite template_from_absent. Qed.
End HostName.

Lemma parseUrlVariables_splits_hostname_witness :
  includes "." "api" = false
  ∧ ∃ d, (parseUrlVariables (R := shop_runtime) [] "https://api.shop.example.com/v1").1
         !! "DOMAIN" = Some (JSString d)
         ∧ "api.shop.example.com" = "api" +:+ "." +:+ d.
Proof.
  apply (proj2 (parseUrlVariables_splits_hostname (H := shop_runtime) []
                  "https://api.shop.example.com/v1" _ "api" eq_refl eq_refl eq_refl eq_refl)).
Defined.

Lemma template_absent_names_witness :
  template (R := sample_runtime) "{{ STAGING }}/{{PATHNAME"
    (parseUrlVariables (R := sample_runtime) [] "https://example.com/v1").1
  = "{{ STAGING }}/{{PATHNAME".
Proof.
  apply (template_absent_names (H := sample_runtime)).
  apply (bool_decide_unpack _). by vm_compute.
Defined.

(** ** Reporter fan-out: composition *)

Section FanOutFacts.
Context {World : Type}.

Lemma for_each_reporter_app {A : Type} (hook : Reporter World → option (A → Effect World))
    (before after : list (Reporter World)) (args : A) (w : World) :
  for_each_reporter hook (before ++ after) args w
  = match for_each_reporter hook before args w with
    | Returned w' => for_each_reporter hook after args w'
    | Threw e w' => Threw e w'
    end.
Proof.
  revert w. induction before as [|r before IH]; intros w; cbn [for_each_reporter app]; [done|].
  destruct (hook r) as [f|]; [|apply IH].
  destruct (f args w) as [w'|e w']; [apply IH|done].
Qed.

(** X23: the composite reporter of two lists of members put end to end
    runs the composite of the first list and then, from the state it
    leaves, the composite of the second one; when the first one throws,
    the second one is not run. *)
Theorem getReporter_app (h : Hook) (before after : list (Reporter World))
    (args : HookArgs h) (w : World) :
  main_hook h (getReporter (before ++ after)) args w
  = match main_hook h (getReporter before) args w with
    | Returned w' => main_hook h (getReporter after) args w'
    | Threw e w' => Threw e w'
    end.
Proof. rewrite !main_hook_getReporter. apply for_each_reporter_app. Qed.
End FanOutFacts.

(** ** Trigger dispatcher: the wrapping error *)

Section WrappingError.
Context `{ApiHelpers} {Metadata : Type} (ciMetadata : Metadata).

(** X24: when the backend fails with a response, the error that [runTests]
    throws carries the status of the response, and its message holds the
    public id of every test submitted. *)
Theorem runTests_error_names_tests (triggerTests : Payload → BackendError + Trigger)
    (ciTriggerApp : string) (testsToTrigger : list TestPayload) (e : BackendError)
    (r : HttpResponse) :
  triggerTests (runTests_payload ciMetadata ciTriggerApp testsToTrigger) = inl e →
  response e = Some r →
  ∃ msg,
    runTests ciMetadata triggerTests ciTriggerApp testsToTrigger
    = Throw (EndpointError msg (status r))
    ∧ ∀ payload, payload ∈ testsToTrigger →
                 includes (payload_public_id payload) msg = true.
Proof.
  intros He Hr. unfold runTests. rewrite He, Hr. eexists. split; [done|].
  intros payload Hin. apply includes_app_r, includes_app_l, includes_join.
  by apply list_elem_of_fmap_2.
Qed.
End WrappingError.

Lemma runTests_error_names_tests_witness :
  ∃ msg,
    runTests (H := sample_api) tt (fun _ => inl bad_gateway) "npm_package"
      [sample_payload "abc-def-ghi" BLOCKING; sample_payload "jkl-mno-pqr" SKIPPED]
    = Throw (EndpointError msg (Some 502))
    ∧ ∀ payload,
        payload ∈ [sample_payload "abc-def-ghi" BLOCKING; sample_payload "jkl-mno-pqr" SKIPPED] →
        includes (payload_public_id payload) msg = true.
Proof.
  apply (runTests_error_names_tests (H := sample_api) tt (fun _ => inl bad_gateway)
           "npm_package" _ bad_gateway {| status := Some 502 |} eq_refl eq_refl).
Defined.

(** ** User supplied git metadata: branch or tag *)

Section BranchOrTag.
Context {G : GitHelpers}.

(** X25: provided [normalizeRef] gives nothing for the [DD_GIT_TAG] of the
    environment when that one is absent or empty, the metadata never hold
    both a branch and a tag. *)
Theorem getUserGitMetadata_branch_or_tag (env : list (string * string)) :
  (truthy_string (env_lookup env "DD_GIT_TAG") = false →
   removeEmptyValue (normalizeRef (env_lookup env "DD_GIT_TAG")) = None) →
  GIT_BRANCH (getUserGitMetadata env) = None ∨ GIT_TAG (getUserGitMetadata env) = None.
Proof.
  intros Hnorm. unfold getUserGitMetadata.
  destruct (opt_includes "origin/tags" (env_lookup env "DD_GIT_BRANCH")
            || opt_includes "refs/heads/tags" (env_lookup env "DD_GIT_BRANCH"));
    cbn [GIT_BRANCH GIT_TAG]; [by left|].
  destruct (truthy_string (env_lookup env "DD_GIT_TAG")); [by left|].
  right. by apply Hnorm.
Qed.
End BranchOrTag.

Lemma getUserGitMetadata_branch_or_tag_witness :
  GIT_BRANCH (getUserGitMetadata (G := sample_git) [("DD_GIT_BRANCH", "refs/heads/main")])
  = None
  ∨ GIT_TAG (getUserGitMetadata (G := sample_git) [("DD_GIT_BRANCH", "refs/heads/main")])
    = None.
Proof.
  apply (getUserGitMetadata_branch_or_tag (G := sample_git)). intros _. reflexivity.
Defined.

(** ** Polling engine: whole runs *)

Lemma foldl_map_set_fresh (g : TriggerResponse → TriggerResult) (rs seen : list TriggerResponse)
    (acc : list (string * TriggerResult)) :
  acc.*1 = tr_result_id <$> seen →
  NoDup (tr_result_id <$> seen ++ rs) →
  foldl (fun m tr => map_set (tr_result_id tr) (g tr) m) acc rs
  = acc ++ ((fun tr => (tr_result_id tr, g tr)) <$> rs).
Proof.
  revert seen acc. induction rs as [|tr rs IH]; intros seen acc Hkeys Hnd; cbn [foldl].
  - by rewrite app_nil_r.
  - rewrite fmap_cons, (cons_middle _ acc), app_assoc.
    assert (Hfresh : map_set (tr_result_id tr) (g tr) acc = acc ++ [(tr_result_id tr, g tr)]).
    { apply map_set_fresh. rewrite Hkeys. rewrite fmap_app, fmap_cons in Hnd.
      apply NoDup_app in Hnd as (_ & Hdisj & _).
      intros Hin. apply (Hdisj _ Hin). apply list_elem_of_here. }
    rewrite Hfresh. apply (IH (seen ++ [tr])).
    + rewrite !fmap_app, Hkeys. done.
    + by rewrite <- app_assoc.
Qed.

Lemma createTriggerResultMap_fresh (triggerResponses : list TriggerResponse)
    (defaultTimeout : Z) (triggerConfigs : list TriggerConfig) :
  NoDup (tr_result_id <$> triggerResponses) →
  createTriggerResultMap triggerResponses defaultTimeout triggerConfigs
  = fresh_entry defaultTimeout triggerConfigs <$> triggerResponses.
Proof.
  intros Hnd. unfold createTriggerResultMap.
  rewrite (foldl_map_set_fresh _ triggerResponses [] []) by done.
  cbn [app]. apply list_fmap_ext. intros _ tr _. unfold fresh_entry. do 2 f_equal.
  unfold configured_timeout. rewrite timeoutByPublicId_lookup, lookup_empty.
  by destruct (last _).
Qed.

Lemma map_update_middle {V : Type} (key : string) (f : V → V) (v : V)
    (l1 l2 : list (string * V)) :
  key ∉ l1.*1 → map_update key f (l1 ++ (key, v) :: l2) = l1 ++ (key, f v) :: l2.
Proof.
  induction l1 as [|[k v'] l1 IH]; intros Hk; cbn [map_update app].
  - by rewrite String.eqb_refl.
  - rewrite fmap_cons, not_elem_of_cons in Hk. destruct Hk as [Hne Hk].
    destruct (String.eqb_spec k key) as [->|_]; [done|]. by rewrite IH.
Qed.

(** Finished results for all the trigger responses, attached in turn. *)
Lemma attach_polled_all (defaultTimeout : Z) (triggerConfigs : list TriggerConfig)
    (answer : TriggerResponse → PollResult) (todo settled : list TriggerResponse) :
  NoDup (tr_result_id <$> settled ++ todo) →
  (∀ tr, tr ∈ todo →
         resultID (answer tr) = tr_result_id tr
         ∧ eventType (result (answer tr)) = "finished") →
  attach_polled (answer <$> todo)
    ((settled_entry defaultTimeout triggerConfigs answer <$> settled)
     ++ (fresh_entry defaultTimeout triggerConfigs <$> todo))
  = settled_entry defaultTimeout triggerConfigs answer <$> (settled ++ todo).
Proof.
  unfold attach_polled. revert settled.
  induction todo as [|tr todo IH]; intros settled Hnd Hanswer; cbn [foldl fmap list_fmap].
  - by rewrite !app_nil_r.
  - destruct (Hanswer tr ltac:(left)) as [Hid Hfin]. rewrite Hfin. cbn [String.eqb].
    change (String.eqb "finished" "finished") with true. cbn iota.
    unfold fresh_entry at 1. rewrite Hid.
    rewrite map_update_middle.
    + rewrite (cons_middle tr settled todo), app_assoc.
      rewrite <- (IH (settled ++ [tr])).
      * by rewrite fmap_app, <- app_assoc.
      * by rewrite <- app_assoc.
      * intros tr' Hin. apply Hanswer. by right.
    + rewrite <- list_fmap_compose.
      rewrite fmap_app, fmap_cons in Hnd. apply NoDup_app in Hnd as (_ & Hdisj & _).
      intros Hin. apply (Hdisj (tr_result_id tr)); [exact Hin|apply list_elem_of_here].
Qed.

Lemma filter_pending_fresh (defaultTimeout : Z) (triggerConfigs : list TriggerConfig)
    (rs : list TriggerResponse) :
  filter (fun entry : string * TriggerResult => pending entry.2 = true)
         (fresh_entry defaultTimeout triggerConfigs <$> rs)
  = fresh_entry defaultTimeout triggerConfigs <$> rs.
Proof.
  induction rs as [|tr rs IH]; [done|].
  rewrite fmap_cons, filter_cons_True by done. by rewrite IH.
Qed.

Lemma filter_settled (defaultTimeout : Z) (triggerConfigs : list TriggerConfig)
    (answer : TriggerResponse → PollResult) (rs : list TriggerResponse) (p : string) :
  filter (fun entry : string * TriggerResult => tr_public_id (trr_response entry.2) = p)
         (settled_entry defaultTimeout triggerConfigs answer <$> rs)
  = settled_entry defaultTimeout triggerConfigs answer
    <$> filter (fun tr => tr_public_id tr = p) rs.
Proof.
  induction rs as [|tr rs IH]; [done|].
  rewrite fmap_cons, !filter_cons. cbn [settled_entry snd trr_response].
  destruct (decide (tr_public_id tr = p)); by rewrite IH.
Qed.

Section FirstPoll.
Context {E : ERRORS} {H : ApiHelpers}.

(** X26: a run that the first poll settles.  When no timeout has elapsed
    at the first iteration, the tunnel, if any, is connected, and the
    backend answers the first poll with a finished result for every
    trigger response, of distinct result ids, [waitForResults] returns
    after that one iteration, and its mapping holds these results, under
    the public ids of their responses and in the order of the responses. *)
Theorem waitForResults_first_poll (env : PollingEnv) (pollingStartDate : Z)
    (triggerResponses : list TriggerResponse) (defaultTimeout : Z)
    (triggerConfigs : list TriggerConfig) (tunnel : bool) (failOnCriticalErrors : option bool)
    (answer : TriggerResponse → PollResult) :
  NoDup (tr_result_id <$> triggerResponses) →
  Forall (fun tr => now env 0 - pollingStartDate
                    < configured_timeout defaultTimeout triggerConfigs (tr_public_id tr))
         triggerResponses →
  tunnel = false ∨ isTunnelConnected env 0 = true →
  pollResults env 0 (tr_result_id <$> triggerResponses) = inr (answer <$> triggerResponses) →
  (∀ tr, tr ∈ triggerResponses →
         resultID (answer tr) = tr_result_id tr
         ∧ eventType (result (answer tr)) = "finished") →
  ∃ out,
    waitForResults env pollingStartDate 1 triggerResponses defaultTimeout triggerConfigs
      tunnel failOnCriticalErrors = Some (Return out)
    ∧ ∀ p, out !! p
           = match filter (fun tr => tr_public_id tr = p) triggerResponses with
             | [] => None
             | responses => Some ((fun tr => Some (answer tr)) <$> responses)
             end.
Proof.
  intros Hnd Hearly Htunnel Hpoll Hanswer.
  unfold waitForResults. rewrite (createTriggerResultMap_fresh _ _ _ Hnd).
  set (store := fresh_entry defaultTimeout triggerConfigs <$> triggerResponses).
  assert (Hloop : poll_loop env pollingStartDate tunnel failOnCriticalErrors
                    (max_of ((fun entry => pollingTimeout entry.2) <$> store)) 1 0 store
                  = Some (Return (settled_entry defaultTimeout triggerConfigs answer
                                  <$> triggerResponses))).
  { destruct (decide (triggerResponses = [])) as [Hnil|Hsome].
    { subst store. by rewrite Hnil. }
    cbn [poll_loop].
    assert (any_pending store = true) as ->.
    { unfold any_pending. subst store. rewrite filter_pending_fresh.
      destruct triggerResponses; [done|]. apply bool_decide_eq_true_2. simpl. lia. }
    unfold poll_iteration.
    assert (Hexpire : expire env pollingStartDate tunnel 0 store = store).
    { unfold expire.
      assert (tunnel && negb (isTunnelConnected env 0) = false) as ->.
      { destruct Htunnel as [->| ->]; [done|apply andb_false_r]. }
      unfold fail_pending. subst store. rewrite <- list_fmap_compose.
      apply list_fmap_ext. intros _ tr Hin%list_elem_of_lookup_2. cbn.
      rewrite (proj2 (Z.leb_gt _ _)); [done|].
      by apply (proj1 (Forall_forall _ _) Hearly). }
    rewrite Hexpire.
    assert (reached (now env 0 - pollingStartDate)
              (max_of ((fun entry => pollingTimeout entry.2) <$> store)) = false) as ->.
    { apply not_true_is_false. rewrite reached_max_of. subst store.
      destruct triggerResponses as [|tr0 rs0]; [done|].
      rewrite !fmap_cons. intros [Hle _]%Forall_cons. cbn in Hle.
      apply Forall_cons in Hearly as [Hlt _]. lia. }
    unfold pending_ids. subst store. rewrite filter_pending_fresh, <- list_fmap_compose.
    assert ((fun entry : string * TriggerResult => tr_result_id (trr_response entry.2))
            ∘ fresh_entry defaultTimeout triggerConfigs <$> triggerResponses
            = tr_result_id <$> triggerResponses) as -> by by apply list_fmap_ext.
    rewrite Hpoll.
    pose proof (attach_polled_all defaultTimeout triggerConfigs answer triggerResponses []
                  Hnd Hanswer) as Hattach.
    cbn [fmap list_fmap app] in Hattach. cbn beta iota. rewrite Hattach.
    assert (any_pending (settled_entry defaultTimeout triggerConfigs answer
                         <$> triggerResponses) = false) as ->; [|done].
    apply any_pending_false, Forall_fmap, Forall_forall. done. }
  rewrite Hloop. eexists. split; [done|].
  intros p. unfold bundle_results.
  rewrite bundle_results_lookup, lookup_empty, filter_settled.
  destruct (filter _ triggerResponses) as [|tr trs]; [done|].
  rewrite fmap_cons. rewrite <- (fmap_cons (settled_entry _ _ _)).
  cbn [default from_option app]. by rewrite <- list_fmap_compose.
Qed.
End FirstPoll.

Lemma waitForResults_first_poll_witness :
  ∃ out,
    waitForResults (E := sample_errors) (H := sample_api) prompt_polling_env 0 1
      sample_responses 60000 [] false None = Some (Return out)
    ∧ ∀ p, out !! p
           = match filter (fun tr => tr_public_id tr = p) sample_responses with
             | [] => None
             | responses =>
                 Some ((fun tr => Some (sample_poll_result (tr_result_id tr))) <$> responses)
             end.
Proof.
  apply (waitForResults_first_poll (E := sample_errors) (H := sample_api) prompt_polling_env 0
           sample_responses 60000 [] false None
           (fun tr => sample_poll_result (tr_result_id tr))).
  - apply (bool_decide_unpack _). by vm_compute.
  - apply (bool_decide_unpack _). by vm_compute.
  - by left.
  - reflexivity.
  - intros tr _. by split.
Defined.
